(** * imcsdk.imccore: the object/XML marshalling core

    A shallow embedding of [imcsdk/imccore.py] and the properties of its
    specification.

    Two models of the same classes are given.

    - The value model (top level) represents an object by its class and its
      instance dictionary, and a tree of objects by nesting: the child list
      held under the key [_child] is a list of objects.  It carries the
      serialiser, the deserialiser and the dirty tracking.
    - The store model ([Module Store]) keeps objects and lists in a store
      indexed by references.  It carries the operations whose behaviour
      depends on object identity: [child_remove] (Python compares objects of
      these classes by identity) and [clone] (which copies objects and
      shares others).

    Conventions of the embedding.

    - An instance dictionary is an association list in insertion order, as
      Python dictionaries iterate; assigning to a key already present keeps
      its position.
    - A Python exception is the [Raise] result.
    - A method call [obj.m(...)] first reads the instance dictionary of
      [obj], as Python does for a name that is not a property of the class:
      when the dictionary holds the key [m], the value held there is called
      in the place of the method.  The values of the model are data, none of
      them callable, so that call raises [TypeError] ([call_method]).
    - Recursion that follows the object graph takes a [fuel] argument, the
      interpreter's remaining recursion depth; when it is used up the call
      raises [RecursionError].
    - The arguments [option] and [cookie] of [to_xml] and [child_to_xml] are
      only forwarded by the code and never read; they are left out.
    - The functions of [imcgenutils] and [imccoreutils] are not part of this
      module; the deserialiser takes them as parameters.
    - [ImcErrorResponse] (a pair of fields with no method) is left out. *)

From stdpp Require Import gmap strings list.
From Stdlib Require Import ZArith Ascii DecimalString.
Open Scope string_scope.
Open Scope list_scope.
Set Warnings "-register-all".

(** ** Results and exceptions *)

Inductive exn :=
| AttributeError
| KeyError
| TypeError
| ValueError
| RecursionError
| NotModelled.

Inductive result (A : Type) :=
| Ok (a : A)
| Raise (e : exn).
Arguments Ok {A} a.
Arguments Raise {A} e.

Definition bind {A B} (m : result A) (k : A -> result B) : result B :=
  match m with
  | Ok a => k a
  | Raise e => Raise e
  end.

Notation "x <- e ;; k" := (bind e (fun x => k))
  (at level 100, e at next level, right associativity).

Notation "'let*' p := e 'in' k" := (bind e (fun p => k))
  (at level 10, p pattern, e at level 200, k at level 200).

(** [for x in l: s = body(s, x)], stopping at the first exception. *)
Fixpoint for_each {A S} (body : S -> A -> result S) (l : list A) (s : S)
  : result S :=
  match l with
  | [] => Ok s
  | a :: l' => s' <- body s a ;; for_each body l' s'
  end.

(** ** Dictionaries *)

Section Dict.
Context {V : Type}.

Fixpoint dict_get (k : string) (d : list (string * V)) : option V :=
  match d with
  | [] => None
  | (k', v) :: d' => if String.eqb k k' then Some v else dict_get k d'
  end.

(** [d[k] = v] *)
Fixpoint dict_set (k : string) (v : V) (d : list (string * V))
  : list (string * V) :=
  match d with
  | [] => [(k, v)]
  | (k', v') :: d' =>
      if String.eqb k k' then (k', v) :: d' else (k', v') :: dict_set k v d'
  end.

Definition keys (d : list (string * V)) : list string := map fst d.

End Dict.

(** ** Classes and values *)

Inductive pyclass :=
| ImcBase
| AbstractFilter
| BaseObject
| ImcCustomMethod
| OperationStatus.

Definition base_class (c : pyclass) : option pyclass :=
  match c with
  | ImcBase => None
  | AbstractFilter => Some ImcBase
  | BaseObject => Some ImcBase
  | ImcCustomMethod => Some ImcBase
  | OperationStatus => Some ImcCustomMethod
  end.

Definition pyclass_eqb (a b : pyclass) : bool :=
  match a, b with
  | ImcBase, ImcBase
  | AbstractFilter, AbstractFilter
  | BaseObject, BaseObject
  | ImcCustomMethod, ImcCustomMethod
  | OperationStatus, OperationStatus => true
  | _, _ => false
  end.

(** [issubclass(c, k)]; the hierarchy is two levels deep. *)
Definition issubclass (c k : pyclass) : bool :=
  pyclass_eqb c k ||
  match base_class c with
  | Some b =>
      pyclass_eqb b k ||
      match base_class b with
      | Some b' => pyclass_eqb b' k
      | None => false
      end
  | None => false
  end.

(** The values an instance dictionary holds: [None], strings, integers, an
    opaque session handle, and a list of objects; an object is its class
    and its [__dict__]. *)
Inductive value :=
| VNone
| VStr (s : string)
| VInt (z : Z)
| VHandle (h : nat)
| VList (l : list node)
with node :=
| Node (cls : pyclass) (__dict__ : list (string * value)).

Definition type_of (self : node) : pyclass :=
  match self with Node c _ => c end.

Definition dict_of (self : node) : list (string * value) :=
  match self with Node _ d => d end.

Definition isinstance (self : node) (k : pyclass) : bool :=
  issubclass (type_of self) k.

(** [bool(v)] *)
Definition truthy (v : value) : bool :=
  match v with
  | VNone => false
  | VStr s => negb (String.eqb s "")
  | VInt z => negb (Z.eqb z 0)
  | VHandle _ => true
  | VList l => match l with [] => false | _ => true end
  end.

(** [self.name] for a name held in the instance dictionary. *)
Definition getattr (self : node) (name : string) : result value :=
  match dict_get name (dict_of self) with
  | Some v => Ok v
  | None => Raise AttributeError
  end.

(** [self.name = v] *)
Definition setattr (self : node) (name : string) (v : value) : node :=
  Node (type_of self) (dict_set name v (dict_of self)).

(** The objects a [for child in self._child] loop visits.  A list gives its
    elements.  The characters of a string have none of the methods the loops
    call, so a non-empty string raises [AttributeError] at the first one;
    the other values are not iterable. *)
Definition iter (v : value) : result (list node) :=
  match v with
  | VList l => Ok l
  | VStr s => if String.eqb s "" then Ok [] else Raise AttributeError
  | _ => Raise TypeError
  end.

(** [obj.name(...)], where [method] is what the function [name] of the class
    of [obj] does on these arguments.  The instance dictionary is read
    before the functions of the class: a field [name] of [obj] is what gets
    called, and as it is not callable the call raises [TypeError]. *)
Definition call_method {A} (obj : node) (name : string) (method : result A)
  : result A :=
  match dict_get name (dict_of obj) with
  | Some _ => Raise TypeError
  | None => method
  end.

(** [[f(x) for x in l]], stopping at the first exception. *)
Fixpoint for_all {A B} (f : A -> result B) (l : list A) : result (list B) :=
  match l with
  | [] => Ok []
  | a :: l' => b <- f a ;; bs <- for_all f l' ;; Ok (b :: bs)
  end.

(** ** class ImcBase *)

(** [ImcBase.__init__(self, class_id)], on the dictionary built so far. *)
Definition ImcBase__init__ (self : node) (class_id : value) : node :=
  let self := setattr self "_class_id" class_id in
  let self := setattr self "_child" (VList []) in
  setattr self "_handle" VNone.

Definition new_ImcBase (class_id : value) : node :=
  ImcBase__init__ (Node ImcBase []) class_id.

(** The properties [child] and [dirty_mask]. *)
Definition child (self : node) : result value :=
  getattr self "_child".

Definition dirty_mask (self : node) : result value :=
  getattr self "_dirty_mask".

Definition get_class_id (self : node) : result value :=
  getattr self "_class_id".

Definition get_handle (self : node) : result value :=
  getattr self "_handle".

(** [self._child.append(obj)]: only a list has [append]. *)
Definition child_append (self : node) (obj : node) : result node :=
  c <- getattr self "_child" ;;
  match c with
  | VList l => Ok (setattr self "_child" (VList (l ++ [obj])))
  | _ => Raise AttributeError
  end.

Definition child_add (self : node) (obj : node) : result node :=
  child_append self obj.

(** [len(self._child)].  The length of a string is its number of
    characters, which the byte strings of the model do not give: left
    out. *)
Definition child_count (self : node) : result nat :=
  c <- getattr self "_child" ;;
  match c with
  | VList l => Ok (length l)
  | VStr s => Raise NotModelled
  | _ => Raise TypeError
  end.

(** [mark_clean]: one assignment, no call on the children. *)
Definition mark_clean (self : node) : node :=
  setattr self "_dirty_mask" (VInt 0).

(** [child_mark_clean]: [child.mark_clean()] for each child.  The children
    are updated in place, so the list holds the updated children. *)
Definition child_mark_clean (self : node) : result node :=
  c <- getattr self "_child" ;;
  l <- iter c ;;
  l' <- for_all (fun child =>
                   call_method child "mark_clean" (Ok (mark_clean child)))
          l ;;
  match c with
  | VList _ => Ok (setattr self "_child" (VList l'))
  | _ => Ok self
  end.

(** [child_is_dirty], with the method [is_dirty] of the children given. *)
Fixpoint any_dirty (is_dirty : node -> result bool) (l : list node)
  : result bool :=
  match l with
  | [] => Ok false
  | child :: l' =>
      b <- is_dirty child ;;
      if b then Ok true else any_dirty is_dirty l'
  end.

Definition child_is_dirty (is_dirty : node -> result bool) (self : node)
  : result bool :=
  c <- getattr self "_child" ;;
  l <- iter c ;;
  any_dirty is_dirty l.

(** [self.is_dirty()]: every class of the module inherits
    [ImcBase.is_dirty], which returns [self.child_is_dirty()]; there the
    method of each child is the same call on the child. *)
Fixpoint is_dirty (fuel : nat) (self : node) : result bool :=
  match fuel with
  | 0 => Raise RecursionError
  | S fuel =>
      call_method self "is_dirty"
        (call_method self "child_is_dirty"
           (child_is_dirty (is_dirty fuel) self))
  end.

(** [self.write_object()]: the method of the base class writes nothing
    itself; it calls [write_object] on each child that is true, and an
    object of these classes is always true. *)
Fixpoint write_object (fuel : nat) (self : node) : result unit :=
  match fuel with
  | 0 => Raise RecursionError
  | S fuel =>
      call_method self "write_object"
        (c <- getattr self "_child" ;;
         l <- iter c ;;
         for_each (fun _ child => write_object fuel child) l tt)
  end.

(** [self.__dict__[key] = value] *)
Definition attr_set (self : node) (key : string) (v : value) : node :=
  Node (type_of self) (dict_set key v (dict_of self)).

(** [self.__dict__[key]] *)
Definition attr_get (self : node) (key : string) : result value :=
  match dict_get key (dict_of self) with
  | Some v => Ok v
  | None => Raise KeyError
  end.

(** ** XML elements ([xml.etree]) *)

(** An element has a tag, an attribute dictionary and a list of
    sub-elements. *)
Inductive element :=
| MkElement (tag : value) (attrib : list (string * value))
    (children : list element).

Definition tag (e : element) : value :=
  match e with MkElement t _ _ => t end.

Definition attrib (e : element) : list (string * value) :=
  match e with MkElement _ a _ => a end.

(** [elem.getchildren()] *)
Definition getchildren (e : element) : list element :=
  match e with MkElement _ _ c => c end.

(** [Element(tag)] *)
Definition Element (t : value) : element := MkElement t [] [].

(** [elem.set(key, value)] *)
Definition Element_set (e : element) (key : string) (v : value) : element :=
  MkElement (tag e) (dict_set key v (attrib e)) (getchildren e).

Definition Element_append (parent e : element) : element :=
  MkElement (tag parent) (attrib parent) (getchildren parent ++ [e]).

(** [SubElement(parent, tag)] makes an element and appends it to [parent];
    the result is the new element and the parent that now holds it. *)
Definition SubElement (parent : element) (t : value) : element * element :=
  (Element t, Element_append parent (Element t)).

(** The element [SubElement] returned is the same object as the last
    sub-element of the parent: what the caller does to it afterwards shows
    in the parent.  [sync_last parent e] is the parent once its last
    sub-element has become [e]. *)
Definition sync_last (parent : option element) (e : element)
  : option element :=
  match parent with
  | None => None
  | Some p =>
      Some (MkElement (tag p) (attrib p) (removelast (getchildren p) ++ [e]))
  end.

(** [ImcBase.elem_create]: the element made, and [xml_doc] afterwards. *)
Definition elem_create (class_tag : value) (xml_doc : option element)
  (override_tag : value) : element * option element :=
  match xml_doc with
  | None => (Element class_tag, None)
  | Some xml_doc =>
      if truthy override_tag then
        let '(xml_obj, xml_doc) := SubElement xml_doc override_tag in
        (xml_obj, Some xml_doc)
      else
        let '(xml_obj, xml_doc) := SubElement xml_doc class_tag in
        (xml_obj, Some xml_doc)
  end.

(** ** Serialisation *)

Section ToXml.

(** The call [child.to_xml(...)] on a child; it returns the element made
    and the parent element afterwards. *)
Variable to_xml : node -> option element -> value ->
                  result (element * option element).

(** [ImcBase.child_to_xml]: each child is serialised under [xml_doc]. *)
Definition child_to_xml (self : node) (xml_doc : element) : result element :=
  c <- getattr self "_child" ;;
  l <- iter c ;;
  for_each (fun xml_doc child =>
              r <- to_xml child (Some xml_doc) VNone ;;
              Ok (default xml_doc (snd r)))
           l xml_doc.

(** [AbstractFilter.to_xml] *)
Definition AbstractFilter_to_xml (self : node) (xml_doc : option element)
  (elem_name : value) : result (element * option element) :=
  class_tag <- getattr self "_tag_name" ;;
  let* (xml_obj, xml_doc) :=
    call_method self "elem_create"
      (Ok (elem_create class_tag xml_doc elem_name)) in
  xml_obj <- for_each (fun xml_obj key =>
                if String.prefix "_" key then Ok xml_obj
                else if String.eqb key "class_" then
                  v <- call_method self "attr_get" (attr_get self key) ;;
                  Ok (Element_set xml_obj "class" v)
                else
                  v <- call_method self "attr_get" (attr_get self key) ;;
                  Ok (Element_set xml_obj key v))
             (keys (dict_of self)) xml_obj ;;
  xml_obj <- call_method self "child_to_xml" (child_to_xml self xml_obj) ;;
  Ok (xml_obj, sync_last xml_doc xml_obj).

(** [BaseObject.to_xml] *)
Definition BaseObject_to_xml (self : node) (xml_doc : option element)
  (elem_name : value) : result (element * option element) :=
  class_tag <- getattr self "_tag_name" ;;
  let* (xml_obj, xml_doc) :=
    call_method self "elem_create"
      (Ok (elem_create class_tag xml_doc elem_name)) in
  xml_obj <- for_each (fun xml_obj key =>
                if String.prefix "_" key then Ok xml_obj
                else
                  v <- call_method self "attr_get" (attr_get self key) ;;
                  Ok (Element_set xml_obj key v))
             (keys (dict_of self)) xml_obj ;;
  xml_obj <- call_method self "child_to_xml" (child_to_xml self xml_obj) ;;
  Ok (xml_obj, sync_last xml_doc xml_obj).

(** [obj.to_xml(xml_doc, elem_name=...)]: a field [to_xml] of the object
    comes first; then [AbstractFilter] and [BaseObject] define the method,
    and the other classes do not. *)
Definition call_to_xml (self : node) (xml_doc : option element)
  (elem_name : value) : result (element * option element) :=
  call_method self "to_xml"
    match type_of self with
    | AbstractFilter => AbstractFilter_to_xml self xml_doc elem_name
    | BaseObject => BaseObject_to_xml self xml_doc elem_name
    | ImcBase | ImcCustomMethod | OperationStatus => Raise AttributeError
    end.

End ToXml.

(** [self.to_xml(xml_doc, elem_name=...)] *)
Fixpoint to_xml (fuel : nat) (self : node) (xml_doc : option element)
  (elem_name : value) : result (element * option element) :=
  match fuel with
  | 0 => Raise RecursionError
  | S fuel => call_to_xml (to_xml fuel) self xml_doc elem_name
  end.

(** ** class AbstractFilter, class BaseObject, class ImcCustomMethod *)

Definition new_AbstractFilter (class_id tag_name : value) : node :=
  ImcBase__init__ (setattr (Node AbstractFilter []) "_tag_name" tag_name)
    class_id.

Definition new_BaseObject (class_id tag_name : value) : node :=
  ImcBase__init__ (setattr (Node BaseObject []) "_tag_name" tag_name)
    class_id.

Definition ImcCustomMethod__init__ (self : node) (class_id tag_name : value)
  : node :=
  ImcBase__init__ (setattr self "_tag_name" tag_name) class_id.

Definition new_ImcCustomMethod (class_id tag_name : value) : node :=
  ImcCustomMethod__init__ (Node ImcCustomMethod []) class_id tag_name.

(** [OperationStatus.__init__]: the keyword arguments are set in order, each
    by a call [self.attr_set(n, v)]. *)
Definition new_OperationStatus (kwargs : list (string * value))
  : result node :=
  for_each (fun self nv =>
              call_method self "attr_set"
                (Ok (attr_set self (fst nv) (snd nv))))
    kwargs
    (ImcCustomMethod__init__ (Node OperationStatus [])
       (VStr "OperationStatus") (VStr "operationStatus")).

(** ** Deserialisation *)

(** [str(v)] for the values whose text does not depend on an address. *)
Definition py_str (object_repr : value -> string) (v : value) : string :=
  match v with
  | VStr s => s
  | VNone => "None"
  | VInt z => NilZero.string_of_int (Z.to_int z)
  | VHandle _ | VList _ => object_repr v
  end.

Section FromXml.

(** [imcgenutils.convert_to_python_var_name], [imcgenutils.word_u] and
    [imccoreutils.get_imc_obj] live in other modules of the package. *)
Variable convert_to_python_var_name : string -> string.
Variable word_u : value -> result string.
Variable get_imc_obj : string -> element -> result node.
(** The text of the default [repr] of an object. *)
Variable object_repr : value -> string.

(** The attribute loop of [from_xml]: a call [self.attr_set(...)] for each
    attribute of the element. *)
Definition ingest_attributes (self : node) (elem : element) : result node :=
  for_each (fun self item =>
              call_method self "attr_set"
                (Ok (attr_set self (convert_to_python_var_name (fst item))
                       (VStr (py_str object_repr (snd item))))))
           (attrib elem) self.

(** The child just appended to [self._child] and the object [from_xml] then
    fills in are one object; [child_sync self child] is [self] once its last
    child has become [child]. *)
Definition child_sync (self : node) (child : node) : node :=
  match dict_get "_child" (dict_of self) with
  | Some (VList l) => setattr self "_child" (VList (removelast l ++ [child]))
  | _ => self
  end.

(** [BaseObject.from_xml].  The recursion follows the element tree.  The
    call [child.from_xml(child_elem, handle)] finds the method on
    [BaseObject] only, and a field [from_xml] of the child comes first. *)
Fixpoint BaseObject_from_xml (elem : element) (self : node) (handle : value)
  {struct elem} : result node :=
  let self := setattr self "_handle" handle in
  self <- ingest_attributes self elem ;;
  (fix children_loop (child_elems : list element) (self : node)
     {struct child_elems} : result node :=
     match child_elems with
     | [] => Ok self
     | child_elem :: rest =>
         cln <- word_u (tag child_elem) ;;
         child <- get_imc_obj cln child_elem ;;
         self <- child_append self child ;;
         if isinstance child OperationStatus then
           children_loop rest self
         else
           child <- call_method child "from_xml"
                      match type_of child with
                      | BaseObject =>
                          BaseObject_from_xml child_elem child handle
                      | _ => Raise AttributeError
                      end ;;
           children_loop rest (child_sync self child)
     end) (getchildren elem) self.

(** The state of [self] in [from_xml] when the child loop starts. *)
Definition ingested (self : node) (elem : element) (handle : value)
  : result node :=
  ingest_attributes (setattr self "_handle" handle) elem.

(** One round of the child loop of [from_xml]. *)
Definition from_xml_child (handle : value) (self : node)
  (child_elem : element) : result node :=
  cln <- word_u (tag child_elem) ;;
  child <- get_imc_obj cln child_elem ;;
  self <- child_append self child ;;
  if isinstance child OperationStatus then Ok self
  else
    child <- call_method child "from_xml"
               match type_of child with
               | BaseObject => BaseObject_from_xml child_elem child handle
               | _ => Raise AttributeError
               end ;;
    Ok (child_sync self child).

(** What [from_xml] makes of a child element: the object of the registry as
    it is when that object is an [OperationStatus], and otherwise that
    object (a [BaseObject], the class that has [from_xml], with no field in
    the place of the method) after its own [from_xml] on the child element
    with the same handle. *)
Definition resolved_child (handle : value) (child_elem : element)
  (child' : node) : Prop :=
  exists cln child,
    word_u (tag child_elem) = Ok cln
    /\ get_imc_obj cln child_elem = Ok child
    /\ if isinstance child OperationStatus then child' = child
       else type_of child = BaseObject
            /\ dict_get "from_xml" (dict_of child) = None
            /\ BaseObject_from_xml child_elem child handle = Ok child'.

End FromXml.

(** ** The store model

    Objects and lists live in a store and are named by references, so that
    two references to one object, and two equal but distinct objects, can be
    told apart. *)

Module Store.

Definition loc := nat.

(** A value is an atom or a reference into the store. *)
Inductive value :=
| VNone
| VStr (s : string)
| VInt (z : Z)
| VRef (l : loc).

#[global] Instance value_eq_dec : EqDecision value.
Proof. solve_decision. Defined.

(** A cell is an object of one of the classes of the module, with its
    instance dictionary, or a Python list. *)
Inductive cell :=
| CObj (cls : pyclass) (__dict__ : list (string * value))
| CList (items : list value).

Abbreviation store := (gmap loc cell).

(** A new object: a reference that is not in use. *)
Definition alloc (h : store) (c : cell) : loc * store :=
  let l := fresh (dom h) in (l, <[l := c]> h).

(** [self.name], read from the instance dictionary. *)
Definition getattr (h : store) (self : loc) (name : string) : result value :=
  match h !! self with
  | Some (CObj _ d) =>
      match dict_get name d with
      | Some v => Ok v
      | None => Raise AttributeError
      end
  | Some (CList _) => Raise AttributeError
  | None => Raise NotModelled
  end.

(** [self.name = v] *)
Definition setattr (h : store) (self : loc) (name : string) (v : value)
  : result store :=
  match h !! self with
  | Some (CObj c d) => Ok (<[self := CObj c (dict_set name v d)]> h)
  | Some (CList _) => Raise AttributeError
  | None => Raise NotModelled
  end.

(** [x.append(y)] *)
Definition list_append (h : store) (x : value) (y : value) : result store :=
  match x with
  | VRef l =>
      match h !! l with
      | Some (CList items) => Ok (<[l := CList (items ++ [y])]> h)
      | Some (CObj _ _) => Raise AttributeError
      | None => Raise NotModelled
      end
  | _ => Raise AttributeError
  end.

(** [a == b].  Atoms compare by value.  An object of the classes of this
    module defines no [__eq__], so it equals only itself.  The comparison of
    the elements of two distinct lists, and of objects the store does not
    hold, is left out. *)
Definition py_eq (h : store) (a b : value) : result bool :=
  match a, b with
  | VNone, VNone => Ok true
  | VStr s, VStr s' => Ok (String.eqb s s')
  | VInt z, VInt z' => Ok (Z.eqb z z')
  | VRef l, VRef l' =>
      if Nat.eqb l l' then Ok true
      else
        match h !! l, h !! l' with
        | Some (CList _), Some (CList _) => Raise NotModelled
        | Some _, Some _ => Ok false
        | _, _ => Raise NotModelled
        end
  | VRef l, _ | _, VRef l =>
      match h !! l with
      | Some _ => Ok false
      | None => Raise NotModelled
      end
  | _, _ => Ok false
  end.

(** [items.remove(x)] on the elements of a list: the first element equal to
    [x] is taken out, and [ValueError] is raised when there is none. *)
Fixpoint remove_first (h : store) (x : value) (items : list value)
  : result (list value) :=
  match items with
  | [] => Raise ValueError
  | y :: items' =>
      b <- py_eq h y x ;;
      if b then Ok items'
      else
        r <- remove_first h x items' ;;
        Ok (y :: r)
  end.

(** [x.remove(y)] *)
Definition list_remove (h : store) (x : value) (y : value) : result store :=
  match x with
  | VRef l =>
      match h !! l with
      | Some (CList items) =>
          items' <- remove_first h y items ;;
          Ok (<[l := CList items']> h)
      | Some (CObj _ _) => Raise AttributeError
      | None => Raise NotModelled
      end
  | _ => Raise AttributeError
  end.

(** The values a [for child in x] loop visits: the elements of a list.  A
    string gives its characters, which the byte strings of the model do not
    tell apart: left out, but for the empty string. *)
Definition iter (h : store) (x : value) : result (list value) :=
  match x with
  | VRef l =>
      match h !! l with
      | Some (CList items) => Ok items
      | Some (CObj _ _) => Raise TypeError
      | None => Raise NotModelled
      end
  | VStr s => if String.eqb s "" then Ok [] else Raise NotModelled
  | _ => Raise TypeError
  end.

(** [bool(v)]; an object of these classes is true. *)
Definition truthy (h : store) (v : value) : result bool :=
  match v with
  | VNone => Ok false
  | VStr s => Ok (negb (String.eqb s ""))
  | VInt z => Ok (negb (Z.eqb z 0))
  | VRef l =>
      match h !! l with
      | Some (CList items) => Ok (match items with [] => false | _ => true end)
      | Some (CObj _ _) => Ok true
      | None => Raise NotModelled
      end
  end.

(** *** class ImcBase *)

(** [ImcBase.__init__(self, class_id)] *)
Definition ImcBase__init__ (h : store) (self : loc) (class_id : value)
  : result store :=
  h <- setattr h self "_class_id" class_id ;;
  let '(child, h) := alloc h (CList []) in
  h <- setattr h self "_child" (VRef child) ;;
  setattr h self "_handle" VNone.

(** [cls(class_id, tag_name)] for [AbstractFilter], [BaseObject] and
    [ImcCustomMethod]. *)
Definition new_object (cls : pyclass) (h : store) (class_id tag_name : value)
  : result (loc * store) :=
  let '(self, h) := alloc h (CObj cls []) in
  h <- setattr h self "_tag_name" tag_name ;;
  h <- ImcBase__init__ h self class_id ;;
  Ok (self, h).

Definition child_add (h : store) (self : loc) (obj : value) : result store :=
  c <- getattr h self "_child" ;;
  list_append h c obj.

Definition child_remove (h : store) (self : loc) (obj : value)
  : result store :=
  c <- getattr h self "_child" ;;
  list_remove h c obj.

(** [self.__dict__[key] = value] *)
Definition attr_set (h : store) (self : loc) (key : string) (v : value)
  : result store :=
  match h !! self with
  | Some (CObj c d) => Ok (<[self := CObj c (dict_set key v d)]> h)
  | _ => Raise NotModelled
  end.

(** [self.__dict__[key]] *)
Definition attr_get (h : store) (self : loc) (key : string) : result value :=
  match h !! self with
  | Some (CObj _ d) =>
      match dict_get key d with
      | Some v => Ok v
      | None => Raise KeyError
      end
  | _ => Raise NotModelled
  end.

(** The module [copy] reads some special methods on the object and not on
    its class ([getattr(x, name, None)]): a field of that name comes before
    the method.  What the field holds is then called, when it is true, and
    raises [TypeError], as no value of the model is callable.  When it is
    not true the library falls back on another protocol, or calls it all
    the same, depending on the interpreter: left out. *)
Definition special_method (h : store) (d : list (string * value))
  (name : string) : result unit :=
  match dict_get name d with
  | None => Ok tt
  | Some v =>
      b <- truthy h v ;;
      if b then Raise TypeError else Raise NotModelled
  end.

(** [copy.copy(self)]: a new object of the same class whose dictionary holds
    the same values.  The copy is made by [__reduce_ex__], read on the
    object, which in turn calls [__getstate__] when the object has one; the
    classes of the module define neither.  [__getnewargs__] is read on the
    object by the interpreters of the 2.x line and on the class by the later
    ones: an object that holds a field of that name is left out. *)
Definition copy (h : store) (self : loc) : result (loc * store) :=
  match h !! self with
  | Some (CObj c d) =>
      _ <- special_method h d "__reduce_ex__" ;;
      match dict_get "__getnewargs__" d, dict_get "__getstate__" d with
      | Some _, _ => Raise NotModelled
      | None, Some _ => Raise TypeError
      | None, None => Ok (alloc h (CObj c d))
      end
  | _ => Raise NotModelled
  end.

Section DeepCopy.

(** [copy.deepcopy], as the children are copied with. *)
Variable deepcopy : store -> value -> result (value * store).

(** [ImcBase.__deepcopy__(self, memo)] *)
Definition ImcBase__deepcopy__ (h : store) (self : loc)
  : result (value * store) :=
  let* (clone, h) := copy h self in
  let '(clone_child, h) := alloc h (CList []) in
  c <- getattr h clone "_child" ;;
  children <- iter h c ;;
  h <- for_each (fun h child =>
                   let* (y, h) := deepcopy h child in
                   list_append h (VRef clone_child) y)
                children h ;;
  h <- setattr h clone "_child" (VRef clone_child) ;;
  Ok (VRef clone, h).

End DeepCopy.

(** [copy.deepcopy(x)]: an atom is returned as it is; an object of the
    classes of this module is copied by its [__deepcopy__], which
    [copy.deepcopy] reads on the object.  Each call made by [__deepcopy__]
    starts with an empty memo, so the memo is left out.  The generic copy of
    a list, and of an object the store does not hold, is left out. *)
Fixpoint deepcopy (fuel : nat) (h : store) (x : value)
  : result (value * store) :=
  match fuel with
  | 0 => Raise RecursionError
  | S fuel =>
      match x with
      | VRef l =>
          match h !! l with
          | Some (CObj _ d) =>
              _ <- special_method h d "__deepcopy__" ;;
              ImcBase__deepcopy__ (deepcopy fuel) h l
          | Some (CList _) => Raise NotModelled
          | None => Raise NotModelled
          end
      | _ => Ok (x, h)
      end
  end.

(** [ImcBase.clone] *)
Definition clone (fuel : nat) (h : store) (self : loc)
  : result (value * store) :=
  deepcopy fuel h (VRef self).

(** *** The vocabulary of the specification, on the store *)

(** [tree_at n h l]: the object at [l] is the root of a tree of height at
    most [n]: it holds a list under [_child], and the elements of the list
    are references to the roots of trees of height at most [n - 1]. *)
Fixpoint tree_at (n : nat) (h : store) (l : loc) : Prop :=
  match n with
  | 0 => False
  | S n =>
      exists c d lc items,
        h !! l = Some (CObj c d)
        /\ dict_get "_child" d = Some (VRef lc)
        /\ h !! lc = Some (CList items)
        /\ Forall (fun v => exists l', v = VRef l' /\ tree_at n h l') items
  end.

(** The objects and the child lists of the tree at [l], down to depth
    [n]. *)
Fixpoint cells (n : nat) (h : store) (l : loc) : list loc :=
  match n with
  | 0 => []
  | S n =>
      match h !! l with
      | Some (CObj _ d) =>
          match dict_get "_child" d with
          | Some (VRef lc) =>
              match h !! lc with
              | Some (CList items) =>
                  l :: lc ::
                  flat_map (fun v => match v with
                                     | VRef l' => cells n h l'
                                     | _ => []
                                     end) items
              | _ => [l]
              end
          | _ => [l]
          end
      | _ => []
      end
  end.

(** [similar n h l h' l']: the tree at [l'] in [h'] has the shape and the
    contents of the tree at [l] in [h]: node by node the same class and the
    same dictionary, but for the reference held under [_child]. *)
Fixpoint similar (n : nat) (h : store) (l : loc) (h' : store) (l' : loc)
  : Prop :=
  match n with
  | 0 => False
  | S n =>
      exists c d lc items lc' items',
        h !! l = Some (CObj c d)
        /\ dict_get "_child" d = Some (VRef lc)
        /\ h !! lc = Some (CList items)
        /\ h' !! l' = Some (CObj c (dict_set "_child" (VRef lc') d))
        /\ h' !! lc' = Some (CList items')
        /\ Forall2 (fun v v' => exists x x', v = VRef x /\ v' = VRef x'
                                            /\ similar n h x h' x')
             items items'
  end.

(** A value that [==] is modelled on: an atom, or a reference to an
    object of the store. *)
Definition comparable (h : store) (v : value) : Prop :=
  match v with
  | VRef l => exists c d, h !! l = Some (CObj c d)
  | _ => True
  end.

(** The special methods that [copy.copy] and [copy.deepcopy] read on the
    object. *)
Definition copy_methods : list string :=
  ["__deepcopy__"; "__reduce_ex__"; "__getnewargs__"; "__getstate__"].

(** [plain n h l]: no object of the tree at [l] holds a field under the
    name of one of these methods. *)
Definition plain (n : nat) (h : store) (l : loc) : Prop :=
  forall x c d k,
    In x (cells n h l) -> h !! x = Some (CObj c d) -> In k copy_methods ->
    dict_get k d = None.

(** What [deepcopy] does on trees of height at most [n]. *)
Definition copies (n fuel : nat) : Prop :=
  forall (h : store) root,
    tree_at n h root -> plain n h root ->
    exists root' h',
      deepcopy fuel h (VRef root) = Ok (VRef root', h')
      /\ (forall x, is_Some (h !! x) -> h' !! x = h !! x)
      /\ similar n h root h' root'
      /\ (forall x, In x (cells n h' root') -> h !! x = None).

End Store.

(** ** The vocabulary of the specification *)

(** The children of a node: the elements of its [_child] list. *)
Definition children_of (t : node) : list node :=
  match dict_get "_child" (dict_of t) with
  | Some (VList l) => l
  | _ => []
  end.

(** [is_tree n t]: [t] is a tree of height at most [n], every node of which
    holds a list of nodes under [_child]. *)
Fixpoint is_tree (n : nat) (t : node) : bool :=
  match n with
  | 0 => false
  | S n =>
      match dict_get "_child" (dict_of t) with
      | Some (VList l) => forallb (is_tree n) l
      | _ => false
      end
  end.

(** The nodes of the subtree of [t], down to depth [n]: the root first,
    then the subtrees of the children in order. *)
Fixpoint subtree (n : nat) (t : node) : list node :=
  match n with
  | 0 => []
  | S n => t :: flat_map (subtree n) (children_of t)
  end.

(** [unshadowed names t]: no field of [t] bears one of the [names], so that
    a call of a method of one of these names on [t] reaches the method of
    the class. *)
Definition unshadowed (names : list string) (t : node) : bool :=
  forallb (fun name => match dict_get name (dict_of t) with
                       | Some _ => false
                       | None => true
                       end) names.

(** The methods that the serialiser, the deserialiser and the dirty
    tracking call on an object. *)
Definition to_xml_methods : list string :=
  ["to_xml"; "elem_create"; "attr_get"; "child_to_xml"].

Definition from_xml_methods : list string := ["from_xml"; "attr_set"].

Definition is_dirty_methods : list string := ["is_dirty"; "child_is_dirty"].

(** The dirty flag of a node is set when its dirty mask is not the clean
    mask [0]. *)
Definition dirty_flag (t : node) : bool :=
  match dict_get "_dirty_mask" (dict_of t) with
  | Some (VInt z) => negb (Z.eqb z 0)
  | Some _ => true
  | None => false
  end.

(** The keys of an instance dictionary are distinct. *)
Definition well_keyed {V} (d : list (string * V)) : Prop :=
  NoDup (keys d).

(** A public field: its name does not begin with the private marker. *)
Definition public (key : string) : bool := negb (String.prefix "_" key).

(** The attributes of a node, as the specification has them: its public
    fields, in dictionary order. *)
Definition attributes (t : node) : list (string * value) :=
  filter (fun kv => public (fst kv) = true) (dict_of t).

(** The tag a node is serialised under. *)
Definition element_tag (t : node) : option value :=
  dict_get "_tag_name" (dict_of t).

(** [appends f]: serialising a child under a parent element with [f] leaves
    the parent with that child's element appended. *)
Definition appends (f : node -> option element -> value ->
                        result (element * option element)) : Prop :=
  forall self p name e doc',
    f self (Some p) name = Ok (e, doc') -> doc' = Some (Element_append p e).

(** The body of the attribute loop of [AbstractFilter.to_xml]. *)
Definition filter_attribute (self : node) (xml_obj : element) (key : string)
  : result element :=
  if String.prefix "_" key then Ok xml_obj
  else if String.eqb key "class_" then
    v <- call_method self "attr_get" (attr_get self key) ;;
    Ok (Element_set xml_obj "class" v)
  else
    v <- call_method self "attr_get" (attr_get self key) ;;
    Ok (Element_set xml_obj key v).

(** ** The services of the other modules

    [imcgenutils] and [imccoreutils] are not part of [imccore.py]; the
    deserialiser takes their functions as parameters.  The instances below
    serve the examples. *)

Definition is_upper (c : ascii) : bool :=
  let n := nat_of_ascii c in Nat.leb 65 n && Nat.leb n 90.

Definition is_lower (c : ascii) : bool :=
  let n := nat_of_ascii c in Nat.leb 97 n && Nat.leb n 122.

Definition to_lower (c : ascii) : ascii :=
  if is_upper c then ascii_of_nat (nat_of_ascii c + 32) else c.

Definition to_upper (c : ascii) : ascii :=
  if is_lower c then ascii_of_nat (nat_of_ascii c - 32) else c.

Fixpoint snake_tail (s : string) : string :=
  match s with
  | EmptyString => EmptyString
  | String c s' =>
      if is_upper c then String "_" (String (to_lower c) (snake_tail s'))
      else String c (snake_tail s')
  end.

(** Modelled from the spec: [imcgenutils.convert_to_python_var_name], the
    naming-convention service, which is not in [imccore.py].  The
    specification asks for a deterministic, pure mapping from wire attribute
    names to internal field names; this one turns a camel-case name into a
    lower-case name with underscores. *)
Definition sample_convert (name : string) : string :=
  match name with
  | EmptyString => EmptyString
  | String c s' => String (to_lower c) (snake_tail s')
  end.

(** Modelled from the spec: [imcgenutils.word_u], which is not in
    [imccore.py]; it prepares a tag for the lookup in the type registry.
    This one capitalises the first letter. *)
Definition sample_word_u (t : value) : result string :=
  match t with
  | VStr (String c s') => Ok (String (to_upper c) s')
  | VStr EmptyString => Ok EmptyString
  | _ => Raise TypeError
  end.

(** The default [repr] of an object, whose text depends on its address. *)
Definition sample_repr (v : value) : string := "<object>".

(** Modelled from the spec: [imccoreutils.get_imc_obj], the type registry,
    which is not in [imccore.py].  The specification asks that it resolve a
    tag to a node type and construct the instance pre-populated from the
    element; this one makes an [OperationStatus] from the attributes of an
    [operationStatus] element, and for any other element a [BaseObject]
    carrying the tag. *)
Definition sample_get_imc_obj (cln : string) (elem : element) : result node :=
  if String.eqb cln "OperationStatus" then
    new_OperationStatus
      (map (fun kv => (fst kv, VStr (py_str sample_repr (snd kv))))
           (attrib elem))
  else Ok (new_BaseObject (VStr cln) (tag elem)).

(** Modelled from the spec: a type registry that constructs every instance
    pre-populated from the element: the attributes of the element are set
    on the new object, as they are, under their converted names. *)
Definition populating_get_imc_obj (cln : string) (elem : element)
  : result node :=
  if String.eqb cln "OperationStatus" then
    new_OperationStatus
      (map (fun kv => (fst kv, VStr (py_str sample_repr (snd kv))))
           (attrib elem))
  else
    Ok (fold_left (fun o kv => attr_set o (sample_convert (fst kv)) (snd kv))
          (attrib elem) (new_BaseObject (VStr cln) (tag elem))).

(** A type registry that constructs the class a tag resolves to with no
    argument taken from the element, and leaves the fields to the caller. *)
Definition bare_get_imc_obj (cln : string) (elem : element) : result node :=
  if String.eqb cln "OperationStatus" then new_OperationStatus []
  else Ok (new_BaseObject (VStr cln) (tag elem)).

(** ** The hypotheses of the round trip *)

(** An attribute object: a [BaseObject] with a string for its tag and
    strings for its attributes, none of which bears the name of a method
    that the serialiser or the deserialiser calls on the object. *)
Definition attribute_object (t : node) : Prop :=
  type_of t = BaseObject
  /\ well_keyed (dict_of t)
  /\ (exists tg, element_tag t = Some (VStr tg))
  /\ (forall k v, In (k, v) (attributes t) -> exists s, v = VStr s)
  /\ unshadowed (to_xml_methods ++ from_xml_methods) t = true.

(** A tree of attribute objects, of height at most [n]. *)
Definition attribute_tree (n : nat) (t : node) : Prop :=
  is_tree n t = true /\ forall m, In m (subtree n t) -> attribute_object m.

(** The naming convention leaves the attribute names of the tree as they
    are. *)
Definition names_kept (convert : string -> string) (n : nat) (t : node)
  : Prop :=
  forall m k v,
    In m (subtree n t) -> In (k, v) (attributes m) -> convert k = k.

(** [takes_in o e]: the object [o] is one that the element [e] can be
    ingested into afresh: a [BaseObject] with an empty child list, whose
    attributes, if it has any, bear the first attribute names of [e] in
    order: none, as on a new object, or those of [e], as on an object
    pre-populated from [e]. *)
Definition takes_in (o : node) (e : element) : Prop :=
  type_of o = BaseObject
  /\ dict_get "_child" (dict_of o) = Some (VList [])
  /\ exists rest, keys (attrib e) = keys (attributes o) ++ rest.

(** The registry resolves the element of every child in the tree (an
    element under the tag of the child that carries its attributes) to an
    object under that tag that takes the element in. *)
Definition children_resolved (word_u : value -> result string)
  (get_imc_obj : string -> element -> result node) (n : nat) (t : node)
  : Prop :=
  forall m c e,
    In m (subtree n t) -> In c (children_of m) ->
    Some (tag e) = element_tag c -> attrib e = attributes c ->
    exists cln o,
      word_u (tag e) = Ok cln
      /\ get_imc_obj cln e = Ok o
      /\ element_tag o = Some (tag e)
      /\ takes_in o e.

(** [t'] reproduces [t]: the same attributes, and children with the same
    tags in the same order. *)
Definition reproduces (t' t : node) : Prop :=
  attributes t' = attributes t
  /\ map element_tag (children_of t') = map element_tag (children_of t).


(** [restores t e]: ingesting the element [e] into any object that takes it
    in gives an object that reproduces [t] and keeps its own tag. *)
Definition restores (convert_to_python_var_name : string -> string)
  (word_u : value -> result string)
  (get_imc_obj : string -> element -> result node)
  (object_repr : value -> string) (t : node) (e : element) : Prop :=
  forall self handle,
    takes_in self e ->
    exists t',
      BaseObject_from_xml convert_to_python_var_name word_u get_imc_obj
        object_repr e self handle = Ok t'
      /\ reproduces t' t
      /\ element_tag t' = element_tag self.


(** The body of the attribute loop of [BaseObject.to_xml]. *)
Definition object_attribute (self : node) (xml_obj : element) (key : string)
  : result element :=
  if String.prefix "_" key then Ok xml_obj
  else
    v <- call_method self "attr_get" (attr_get self key) ;;
    Ok (Element_set xml_obj key v).

(** * Properties *)

(** ** Results, loops and dictionaries *)

Lemma bind_Ok {A B} (m : result A) (k : A -> result B) (b : B) :
  bind m k = Ok b -> exists a, m = Ok a /\ k a = Ok b.
Proof. destruct m as [a|e]; simpl; [eauto | discriminate]. Qed.

Tactic Notation "bind_inv" hyp(H) "as" ident(a) ident(Ha) :=
  apply bind_Ok in H; destruct H as (a & Ha & H).

(** A method call returns only when no field stands in the place of the
    method, and then as the method does. *)
Lemma call_method_Ok {A} obj name (method : result A) a :
  call_method obj name method = Ok a ->
  dict_get name (dict_of obj) = None /\ method = Ok a.
Proof.
  unfold call_method. by destruct (dict_get name (dict_of obj)).
Qed.

Lemma call_method_None {A} obj name (method : result A) :
  dict_get name (dict_of obj) = None -> call_method obj name method = method.
Proof. unfold call_method. by intros ->. Qed.

Lemma call_method_Some {A} obj name (method : result A) v :
  dict_get name (dict_of obj) = Some v ->
  call_method obj name method = Raise TypeError.
Proof. unfold call_method. by intros ->. Qed.

Tactic Notation "call_inv" hyp(H) "as" ident(Hn) :=
  apply call_method_Ok in H; destruct H as [Hn H].

Lemma unshadowed_In names t k :
  unshadowed names t = true -> In k names -> dict_get k (dict_of t) = None.
Proof.
  unfold unshadowed. rewrite forallb_forall. intros H Hk.
  specialize (H k Hk). by destruct (dict_get k (dict_of t)).
Qed.

Lemma unshadowed_incl names names' t :
  unshadowed names t = true -> (forall k, In k names' -> In k names) ->
  unshadowed names' t = true.
Proof.
  unfold unshadowed. rewrite !forallb_forall. intros H Hincl k Hk.
  apply H, Hincl, Hk.
Qed.

Lemma for_all_Ok {A B} (f : A -> result B) l l' :
  for_all f l = Ok l' -> Forall2 (fun a b => f a = Ok b) l l'.
Proof.
  revert l'. induction l as [|a l IH]; simpl; intros l' H.
  - inversion H. constructor.
  - bind_inv H as b Hb. bind_inv H as bs Hbs. inversion H; subst.
    constructor; [done|by apply IH].
Qed.

Lemma for_all_map {A B} (f : A -> result B) (g : A -> B) l :
  (forall a, In a l -> f a = Ok (g a)) -> for_all f l = Ok (map g l).
Proof.
  induction l as [|a l IH]; simpl; intros H; [done|].
  rewrite (H a) by (by left). simpl. rewrite IH; [done|].
  intros a' Ha'. apply H. by right.
Qed.

Lemma Forall2_In_l {A B} (P : A -> B -> Prop) l k x :
  Forall2 P l k -> In x l -> exists y, In y k /\ P x y.
Proof.
  induction 1 as [|a b l k Hab _ IH]; simpl; [done|].
  intros [<-|Hx]; [by eauto|]. destruct (IH Hx) as (y & Hy & Hxy). eauto.
Qed.

Lemma Forall2_In_r {A B} (P : A -> B -> Prop) l k y :
  Forall2 P l k -> In y k -> exists x, In x l /\ P x y.
Proof.
  induction 1 as [|a b l k Hab _ IH]; simpl; [done|].
  intros [<-|Hy]; [by eauto|]. destruct (IH Hy) as (x & Hx & Hxy). eauto.
Qed.

Lemma Forall2_impl_In {A B} (P Q : A -> B -> Prop) l k :
  Forall2 P l k ->
  (forall x y, In x l -> In y k -> P x y -> Q x y) ->
  Forall2 Q l k.
Proof.
  induction 1 as [|a b l k Hab _ IH]; intros HPQ; constructor.
  - apply HPQ; [by left|by left|done].
  - apply IH. intros x y Hx Hy. apply HPQ; by right.
Qed.

(** An invariant of a loop that ends without an exception. *)
Lemma for_each_inv {A S} (P : S -> Prop) (body : S -> A -> result S) l :
  forall s s',
    (forall s a s', In a l -> P s -> body s a = Ok s' -> P s') ->
    P s -> for_each body l s = Ok s' -> P s'.
Proof.
  induction l as [|a l IH]; simpl; intros s s' Hbody Hs Hrun.
  - by inversion Hrun; subst.
  - bind_inv Hrun as s1 Hs1. eapply IH; [ | | exact Hrun]; eauto.
Qed.

(** A loop that ends without an exception ran its body on every element. *)
Lemma for_each_all {A S} (body : S -> A -> result S) l :
  forall s s' a,
    for_each body l s = Ok s' -> In a l ->
    exists s1 s2, body s1 a = Ok s2.
Proof.
  induction l as [|x l IH]; simpl; intros s s' a Hrun Hin; [done|].
  bind_inv Hrun as s1 Hs1. destruct Hin as [->|Hin]; eauto.
Qed.

Section DictFacts.
Context {V : Type}.
Implicit Types (d : list (string * V)) (k : string) (v : V).

Lemma dict_get_set_eq d k v : dict_get k (dict_set k v d) = Some v.
Proof.
  induction d as [|[k' v'] d IH]; simpl.
  - by rewrite String.eqb_refl.
  - destruct (String.eqb_spec k k') as [->|Hne]; simpl.
    + by rewrite String.eqb_refl.
    + by destruct (String.eqb_spec k k').
Qed.

Lemma dict_get_set_ne d k k' v :
  k <> k' -> dict_get k' (dict_set k v d) = dict_get k' d.
Proof.
  intros Hne. induction d as [|[k0 v0] d IH]; simpl.
  - by destruct (String.eqb_spec k' k) as [->|].
  - destruct (String.eqb_spec k k0) as [->|]; simpl.
    + by destruct (String.eqb_spec k' k0) as [->|].
    + by rewrite IH.
Qed.

Lemma dict_get_In d k v : dict_get k d = Some v -> In (k, v) d.
Proof.
  induction d as [|[k0 v0] d IH]; simpl; [done|].
  destruct (String.eqb_spec k k0) as [->|]; [|by auto].
  intros [= ->]. by left.
Qed.

Lemma dict_get_None d k : dict_get k d = None <-> ~ In k (keys d).
Proof.
  induction d as [|[k0 v0] d IH]; simpl; [tauto|].
  destruct (String.eqb_spec k k0) as [->|Hne].
  - split; [done|]. intros H. exfalso. apply H. by left.
  - rewrite IH. split.
    + intros H [?|?]; [congruence|done].
    + intros H ?. apply H. by right.
Qed.

Lemma keys_dict_set_In d k v : In k (keys (dict_set k v d)).
Proof.
  induction d as [|[k0 v0] d IH]; simpl; [by left|].
  destruct (String.eqb_spec k k0) as [->|]; simpl; auto.
Qed.

(** Assigning to a key that is absent appends it. *)
Lemma dict_set_absent d k v :
  dict_get k d = None -> dict_set k v d = d ++ [(k, v)].
Proof.
  induction d as [|[k0 v0] d IH]; simpl; [done|].
  destruct (String.eqb_spec k k0) as [->|]; [done|].
  intros H. by rewrite IH.
Qed.

End DictFacts.

(** ** C9: [attr_set] *)

Lemma filter_dict_set_private (d : list (string * value)) key v :
  public key = false ->
  filter (fun kv => public (fst kv) = true) (dict_set key v d)
  = filter (fun kv => public (fst kv) = true) d.
Proof.
  intros Hp. induction d as [|[k0 v0] d IH]; simpl.
  - rewrite filter_cons. simpl. by rewrite decide_False; [|rewrite Hp].
  - destruct (String.eqb_spec key k0) as [->|].
    + rewrite !filter_cons. simpl. by rewrite !decide_False; [| rewrite Hp..].
    + rewrite !filter_cons. simpl. by rewrite IH.
Qed.

Lemma attributes_public t k v : In (k, v) (attributes t) -> public k = true.
Proof.
  unfold attributes. rewrite <- list_elem_of_In, list_elem_of_filter.
  by intros [H _].
Qed.

(** C9 (as stated, refuted): a name that begins with the private marker is
    not rejected.  [attr_set] stores it like any other name, and through it
    even the child list of the object can be replaced. *)
Lemma attr_set_private_not_rejected :
  let self := new_BaseObject (VStr "ComputeBlade") (VStr "computeBlade") in
  attr_get (attr_set self "_secret" (VStr "x")) "_secret" = Ok (VStr "x")
  /\ In "_secret" (keys (dict_of (attr_set self "_secret" (VStr "x"))))
  /\ child_add (attr_set self "_child" (VStr "oops")) self
     = Raise AttributeError.
Proof. vm_compute. intuition. Qed.

(** C9 (amended): [attr_set] accepts every key, also one that begins with
    the private marker, and raises nothing: afterwards the key holds the
    value, the other keys hold what they held, and a key that begins with
    the private marker leaves the attributes (the public fields) as they
    were, which never begin with the marker. *)
Theorem attr_set_stores_any_key :
  forall (self : node) (key : string) (v : value),
    attr_get (attr_set self key v) key = Ok v
    /\ (forall k, k <> key ->
          attr_get (attr_set self key v) k = attr_get self k)
    /\ (public key = false ->
          attributes (attr_set self key v) = attributes self)
    /\ (forall k x, In (k, x) (attributes (attr_set self key v)) ->
          String.prefix "_" k = false).
Proof.
  intros [c d] key v. unfold attr_get, attr_set, attributes. simpl.
  repeat split.
  - by rewrite dict_get_set_eq.
  - intros k Hne. by rewrite dict_get_set_ne.
  - apply filter_dict_set_private.
  - intros k x Hin.
    apply (attributes_public (Node c (dict_set key v d))) in Hin.
    unfold public in Hin. by destruct (String.prefix "_" k).
Qed.

Lemma attr_set_stores_any_key_witness :
  public "_handle" = false
  /\ attributes (attr_set (new_BaseObject (VStr "A") (VStr "a")) "_handle"
                   (VStr "h"))
     = attributes (new_BaseObject (VStr "A") (VStr "a")).
Proof.
  split; [reflexivity|].
  apply (attr_set_stores_any_key
           (new_BaseObject (VStr "A") (VStr "a")) "_handle" (VStr "h")).
  reflexivity.
Defined.

(** ** C6: the element [to_xml] creates *)

Lemma sync_last_append p e0 e :
  sync_last (Some (Element_append p e0)) e = Some (Element_append p e).
Proof.
  unfold sync_last, Element_append. simpl. by rewrite removelast_last.
Qed.

Lemma elem_create_spec class_tag xml_doc override_tag :
  elem_create class_tag xml_doc override_tag
  = match xml_doc with
    | None => (Element class_tag, None)
    | Some p =>
        let t := if truthy override_tag then override_tag else class_tag in
        (Element t, Some (Element_append p (Element t)))
    end.
Proof.
  unfold elem_create, SubElement. destruct xml_doc; [|done].
  by destruct (truthy override_tag).
Qed.

Lemma child_to_xml_keeps f self x x' :
  appends f -> child_to_xml f self x = Ok x' ->
  tag x' = tag x /\ attrib x' = attrib x.
Proof.
  intros Hf Hrun. unfold child_to_xml in Hrun.
  bind_inv Hrun as c Hc. bind_inv Hrun as l Hl.
  revert Hrun.
  apply (for_each_inv (fun y => tag y = tag x /\ attrib y = attrib x)); [|done].
  intros s ch s' _ [Ht Hat] Hbody. bind_inv Hbody as r Hr.
  destruct r as [e doc']. apply Hf in Hr. subst doc'. simpl in Hbody.
  by inversion Hbody; subst.
Qed.

Lemma attribute_loop_keeps (body : element -> string -> result element) l :
  (forall x key x', body x key = Ok x' ->
     tag x' = tag x /\ getchildren x' = getchildren x) ->
  forall x x', for_each body l x = Ok x' ->
    tag x' = tag x /\ getchildren x' = getchildren x.
Proof.
  intros Hbody x x'.
  apply (for_each_inv (fun y => tag y = tag x /\ getchildren y = getchildren x));
    [|done].
  intros s key s' _ [Ht Hc] Hb. apply Hbody in Hb as [-> ->]. done.
Qed.

Lemma to_xml_tail_shape f self xml_doc elem_name class_tag
  (body : element -> string -> result element) e doc' :
  appends f ->
  (forall x key x', body x key = Ok x' ->
     tag x' = tag x /\ getchildren x' = getchildren x) ->
  (let* (xml_obj, xml_doc) :=
     call_method self "elem_create"
       (Ok (elem_create class_tag xml_doc elem_name)) in
   xml_obj <- for_each body (keys (dict_of self)) xml_obj ;;
   xml_obj <- call_method self "child_to_xml" (child_to_xml f self xml_obj) ;;
   Ok (xml_obj, sync_last xml_doc xml_obj)) = Ok (e, doc') ->
  tag e = match xml_doc with
          | None => class_tag
          | Some _ => if truthy elem_name then elem_name else class_tag
          end
  /\ doc' = option_map (fun p => Element_append p e) xml_doc.
Proof.
  intros Hf Hbody Hrun. bind_inv Hrun as r Hr. call_inv Hr as Hcreate.
  rewrite elem_create_spec in Hr.
  destruct xml_doc as [p|]; inversion Hr; subst r; clear Hr;
    cbv beta iota zeta in Hrun.
  - bind_inv Hrun as x0 Hx0. bind_inv Hrun as x1 Hx1.
    call_inv Hx1 as Hchild.
    apply (attribute_loop_keeps _ _ Hbody) in Hx0 as [Ht _].
    apply (child_to_xml_keeps _ _ _ _ Hf) in Hx1 as [Ht' _].
    rewrite sync_last_append in Hrun. inversion Hrun; subst.
    split; [by rewrite Ht', Ht|done].
  - bind_inv Hrun as x0 Hx0. bind_inv Hrun as x1 Hx1.
    call_inv Hx1 as Hchild.
    apply (attribute_loop_keeps _ _ Hbody) in Hx0 as [Ht _].
    apply (child_to_xml_keeps _ _ _ _ Hf) in Hx1 as [Ht' _].
    inversion Hrun; subst. split; [by rewrite Ht', Ht|done].
Qed.

Lemma call_to_xml_shape f self xml_doc elem_name e doc' :
  appends f ->
  call_to_xml f self xml_doc elem_name = Ok (e, doc') ->
  exists class_tag,
    element_tag self = Some class_tag
    /\ tag e = match xml_doc with
               | None => class_tag
               | Some _ => if truthy elem_name then elem_name else class_tag
               end
    /\ doc' = option_map (fun p => Element_append p e) xml_doc.
Proof.
  intros Hf Hrun. unfold call_to_xml in Hrun. call_inv Hrun as Hcall.
  destruct (type_of self); try discriminate.
  - unfold AbstractFilter_to_xml in Hrun. bind_inv Hrun as class_tag Ha.
    exists class_tag. split.
    { unfold element_tag. unfold getattr in Ha.
      by destruct (dict_get "_tag_name" (dict_of self)); inversion Ha. }
    eapply to_xml_tail_shape; [exact Hf| |exact Hrun].
    intros x key x' Hb. simpl in Hb.
    destruct (String.prefix "_" key); [by inversion Hb|].
    destruct (String.eqb key "class_"); bind_inv Hb as v Hv;
      by inversion Hb.
  - unfold BaseObject_to_xml in Hrun. bind_inv Hrun as class_tag Ha.
    exists class_tag. split.
    { unfold element_tag. unfold getattr in Ha.
      by destruct (dict_get "_tag_name" (dict_of self)); inversion Ha. }
    eapply to_xml_tail_shape; [exact Hf| |exact Hrun].
    intros x key x' Hb. simpl in Hb.
    destruct (String.prefix "_" key); [by inversion Hb|].
    bind_inv Hb as v Hv; by inversion Hb.
Qed.

Lemma to_xml_appends fuel : appends (to_xml fuel).
Proof.
  induction fuel as [|fuel IH]; intros self p name e doc' Hrun; [done|].
  simpl in Hrun. apply call_to_xml_shape in Hrun as (t & _ & _ & ->); done.
Qed.

(** C6 (as stated, refuted): without a parent element the override name is
    not used; the root element is named after [_tag_name]. *)
Lemma root_element_ignores_override :
  elem_create (VStr "computeBlade") None (VStr "inConfig")
  = (MkElement (VStr "computeBlade") [] [], None)
  /\ to_xml 2 (new_BaseObject (VStr "ComputeBlade") (VStr "computeBlade"))
       None (VStr "inConfig")
     = Ok (MkElement (VStr "computeBlade") [] [], None).
Proof. split; reflexivity. Qed.

(** C6 (amended): given no parent element, [elem_create] (and so [to_xml])
    creates a standalone root element named [element_tag], whether or not an
    override name is supplied; given a parent element, it creates a child
    element under it (appended after the children already there), named by
    the override when one is supplied and is not empty, and [element_tag]
    otherwise. *)
Theorem to_xml_element_name :
  forall fuel self xml_doc elem_name e doc',
    to_xml fuel self xml_doc elem_name = Ok (e, doc') ->
    exists class_tag,
      element_tag self = Some class_tag
      /\ elem_create class_tag None elem_name = (Element class_tag, None)
      /\ match xml_doc with
         | None => tag e = class_tag /\ doc' = None
         | Some parent =>
             tag e = (if truthy elem_name then elem_name else class_tag)
             /\ doc' = Some (Element_append parent e)
         end.
Proof.
  intros [|fuel] self xml_doc elem_name e doc' Hrun; [done|].
  simpl in Hrun.
  apply call_to_xml_shape in Hrun as (t & Htag & He & Hdoc);
    [|apply to_xml_appends].
  exists t. split; [done|]. split; [done|].
  by destruct xml_doc.
Qed.

Lemma to_xml_element_name_witness :
  exists class_tag,
    element_tag (new_AbstractFilter (VStr "FilterFilter") (VStr "filter"))
    = Some class_tag
    /\ elem_create class_tag None (VStr "inFilter") = (Element class_tag, None)
    /\ tag (MkElement (VStr "inFilter") [] []) = VStr "inFilter"
    /\ Some (MkElement (VStr "root") [] [MkElement (VStr "inFilter") [] []])
       = Some (Element_append (Element (VStr "root"))
                 (MkElement (VStr "inFilter") [] [])).
Proof.
  apply (to_xml_element_name 3
           (new_AbstractFilter (VStr "FilterFilter") (VStr "filter"))
           (Some (Element (VStr "root"))) (VStr "inFilter")).
  reflexivity.
Defined.

(** ** C3 and C2: dirty tracking *)

Lemma is_tree_inv n t :
  is_tree (S n) t = true ->
  exists l, dict_get "_child" (dict_of t) = Some (VList l)
            /\ children_of t = l
            /\ forall c, In c l -> is_tree n c = true.
Proof.
  simpl. unfold children_of.
  destruct (dict_get "_child" (dict_of t)) as [[| | | |l]|]; try discriminate.
  intros H. exists l. repeat split. intros c Hc.
  rewrite forallb_forall in H. by apply H.
Qed.

Lemma is_tree_S n : forall t, is_tree n t = true -> is_tree (S n) t = true.
Proof.
  induction n as [|n IH]; intros t Ht; [done|].
  apply is_tree_inv in Ht as (l & Hl & _ & Hall).
  change (is_tree (S (S n)) t) with
    (match dict_get "_child" (dict_of t) with
     | Some (VList l) => forallb (is_tree (S n)) l
     | _ => false
     end).
  rewrite Hl. apply forallb_forall. intros c Hc. apply IH. by apply Hall.
Qed.

Lemma is_tree_le n m t : n <= m -> is_tree n t = true -> is_tree m t = true.
Proof.
  intros Hle. induction Hle as [|m Hle IH]; [done|].
  intros Ht. by apply is_tree_S, IH.
Qed.

Lemma subtree_is_tree n :
  forall t m, is_tree n t = true -> In m (subtree n t) -> is_tree n m = true.
Proof.
  induction n as [|n IH]; intros t m Ht Hin; [done|].
  change (In m (t :: flat_map (subtree n) (children_of t))) in Hin.
  destruct Hin as [<-|Hin]; [done|].
  apply is_tree_inv in Ht as (l & _ & Hl & Hall). rewrite Hl in Hin.
  apply in_flat_map in Hin as (c & Hc & Hm).
  apply is_tree_S. eapply IH; [|exact Hm]. by apply Hall.
Qed.

Lemma any_dirty_false (f : node -> result bool) l :
  (forall c, In c l -> f c = Ok false) -> any_dirty f l = Ok false.
Proof.
  induction l as [|c l IH]; simpl; intros H; [done|].
  rewrite (H c) by (by left). simpl. apply IH. intros c' Hc'. apply H.
  by right.
Qed.

Lemma any_dirty_true (f : node -> result bool) l :
  any_dirty f l = Ok true -> exists c, In c l /\ f c = Ok true.
Proof.
  induction l as [|c l IH]; simpl; intros H; [done|].
  bind_inv H as b Hb. destruct b.
  - exists c. split; [by left|done].
  - destruct (IH H) as (c' & Hc' & Hf). exists c'. split; [by right|done].
Qed.

(** On a tree no node of which holds a field in the place of [is_dirty] or
    [child_is_dirty], with fuel for its height, [is_dirty] returns
    [False]. *)
Lemma is_dirty_tree fuel :
  forall n t,
    is_tree n t = true -> n <= fuel ->
    (forall m, In m (subtree n t) -> unshadowed is_dirty_methods m = true) ->
    is_dirty fuel t = Ok false.
Proof.
  induction fuel as [|fuel IH]; intros n t Ht Hle Hun.
  - assert (n = 0) as -> by lia. done.
  - destruct n as [|n]; [done|].
    assert (Hroot := Hun t (or_introl eq_refl)).
    apply is_tree_inv in Ht as (l & Hl & Hch & Hall).
    simpl.
    rewrite !call_method_None
      by (apply (unshadowed_In _ _ _ Hroot); simpl; tauto).
    unfold child_is_dirty, getattr. rewrite Hl. simpl.
    apply any_dirty_false. intros c Hc. apply (IH n); [by apply Hall|lia|].
    intros m Hm. apply Hun.
    change (In m (t :: flat_map (subtree n) (children_of t))).
    right. apply in_flat_map. exists c. by rewrite Hch.
Qed.

Lemma is_dirty_subtree fuel :
  forall n t m,
    is_tree n t = true -> n <= fuel ->
    (forall x, In x (subtree n t) -> unshadowed is_dirty_methods x = true) ->
    In m (subtree n t) ->
    is_dirty fuel m = Ok false.
Proof.
  intros n. induction n as [|n IH]; intros t m Ht Hle Hun Hm; [done|].
  change (In m (t :: flat_map (subtree n) (children_of t))) in Hm.
  destruct Hm as [<-|Hm]; [by apply (is_dirty_tree fuel (S n))|].
  apply in_flat_map in Hm as (c & Hc & Hm).
  apply is_tree_inv in Ht as (l & _ & Hch & Hall).
  apply (IH c m); [apply Hall; by rewrite <- Hch|lia| |done].
  intros x Hx. apply Hun.
  change (In x (t :: flat_map (subtree n) (children_of t))).
  right. apply in_flat_map. by exists c.
Qed.

(** Whatever the object, [is_dirty] does not return [True]. *)
Lemma is_dirty_not_true fuel : forall t, is_dirty fuel t <> Ok true.
Proof.
  induction fuel as [|fuel IH]; intros t H; [done|].
  simpl in H. call_inv H as Hn. call_inv H as Hn'.
  unfold child_is_dirty in H.
  bind_inv H as c Hc. bind_inv H as l Hl.
  apply any_dirty_true in H as (ch & _ & Hch). by apply IH in Hch.
Qed.

(** C3 (as stated, refuted): a node whose dirty flag is set, and whose
    [is_dirty] is [False]. *)
Lemma is_dirty_misses_own_flag :
  let t := attr_set (new_BaseObject (VStr "ComputeBlade") (VStr "computeBlade"))
             "_dirty_mask" (VInt 1) in
  In t (subtree 1 t)
  /\ dirty_flag t = true
  /\ is_dirty 3 t = Ok false.
Proof. repeat split. by left. Qed.

(** C3 (amended): [is_dirty] on the root aggregates the [is_dirty] of the
    children only and reads no dirty mask.  On no object does it return
    true.  On a tree of objects of the classes of this module, none of which
    holds a field named [is_dirty] or [child_is_dirty] (such a field is
    called in the place of the method, and the call raises), it returns
    false whatever dirty flags are set in the subtree. *)
Theorem is_dirty_reads_no_mask :
  forall fuel t,
    is_dirty fuel t <> Ok true
    /\ (forall n, is_tree n t = true -> n <= fuel ->
          (forall m, In m (subtree n t) ->
             unshadowed is_dirty_methods m = true) ->
          is_dirty fuel t = Ok false).
Proof.
  intros fuel t. split.
  - apply is_dirty_not_true.
  - intros n. apply is_dirty_tree.
Qed.

Lemma is_dirty_reads_no_mask_witness :
  let c := attr_set (new_BaseObject (VStr "AdaptorUnit") (VStr "adaptorUnit"))
             "_dirty_mask" (VInt 1) in
  let t := setattr
             (attr_set
                (new_BaseObject (VStr "ComputeBlade") (VStr "computeBlade"))
                "_dirty_mask" (VInt 1))
             "_child" (VList [c]) in
  is_tree 2 t = true /\ 2 <= 3
  /\ dirty_flag t = true /\ dirty_flag c = true
  /\ is_dirty 3 t = Ok false.
Proof.
  intros c t. split; [reflexivity|]. split; [lia|].
  split; [reflexivity|]. split; [reflexivity|].
  apply (proj2 (is_dirty_reads_no_mask 3 t) 2); [reflexivity|lia|].
  intros m [<-|[<-|[]]]; reflexivity.
Defined.

Lemma children_of_mark_clean t : children_of (mark_clean t) = children_of t.
Proof.
  unfold children_of, mark_clean, setattr. simpl.
  by rewrite dict_get_set_ne.
Qed.

Lemma is_tree_mark_clean n t : is_tree n (mark_clean t) = is_tree n t.
Proof.
  destruct n as [|n]; [done|]. simpl. by rewrite dict_get_set_ne.
Qed.

Lemma unshadowed_setattr names t k v :
  ~ In k names -> unshadowed names (setattr t k v) = unshadowed names t.
Proof.
  intros Hk. unfold unshadowed.
  induction names as [|name names IH]; [done|].
  cbn [forallb]. rewrite IH by (intros Hin; apply Hk; by right).
  f_equal. unfold setattr. simpl. rewrite dict_get_set_ne; [done|].
  intros ->. apply Hk. by left.
Qed.

Lemma subtree_mark_clean n t m :
  In m (subtree n (mark_clean t)) -> m = mark_clean t \/ In m (subtree n t).
Proof.
  destruct n as [|n]; [done|].
  change (In m (mark_clean t
                  :: flat_map (subtree n) (children_of (mark_clean t)))
          -> m = mark_clean t
             \/ In m (t :: flat_map (subtree n) (children_of t))).
  rewrite children_of_mark_clean. intros [<-|Hm]; [by left|].
  right. by right.
Qed.

(** C2 (as stated, refuted): after [mark_clean] on the parent, the child is
    still in the subtree with its dirty flag set; [child_mark_clean] is the
    operation that reaches the children. *)
Lemma mark_clean_leaves_children_dirty :
  let c := attr_set (new_BaseObject (VStr "C") (VStr "c"))
             "_dirty_mask" (VInt 1) in
  exists p,
    child_add (new_BaseObject (VStr "P") (VStr "p")) c = Ok p
    /\ In c (subtree 2 (mark_clean p))
    /\ dirty_flag c = true
    /\ children_of (mark_clean p) = [c]
    /\ (exists p', child_mark_clean p = Ok p'
                   /\ forallb dirty_flag (children_of p') = false).
Proof.
  eexists. split; [reflexivity|]. split; [right; by left|].
  split; [reflexivity|]. split; [reflexivity|].
  eexists. split; reflexivity.
Qed.

(** C2 (amended): [mark_clean] on a node clears the dirty flag of that node
    only; it visits no descendant and leaves the children as they were
    ([child_mark_clean] is the separate operation that calls [mark_clean]
    on each child).  Afterwards [is_dirty] returns true on no node of the
    subtree, and it returns false on every node of the subtree when no node
    of the tree holds a field named [is_dirty] or [child_is_dirty] (such a
    field is called in the place of the method, and the call raises). *)
Theorem mark_clean_clears_own_flag :
  forall t,
    dirty_flag (mark_clean t) = false
    /\ children_of (mark_clean t) = children_of t
    /\ (forall n fuel m,
          is_tree n t = true -> n <= fuel ->
          In m (subtree n (mark_clean t)) ->
          is_dirty fuel m <> Ok true
          /\ ((forall x, In x (subtree n t) ->
                 unshadowed is_dirty_methods x = true) ->
              is_dirty fuel m = Ok false)).
Proof.
  intros t. split; [|split].
  - unfold dirty_flag, mark_clean, setattr. simpl.
    by rewrite dict_get_set_eq.
  - apply children_of_mark_clean.
  - intros n fuel m Ht Hle Hm. split; [apply is_dirty_not_true|].
    intros Hun.
    assert (Hun' : forall x, In x (subtree n (mark_clean t)) ->
                     unshadowed is_dirty_methods x = true).
    { intros x Hx. apply subtree_mark_clean in Hx as [->|Hx]; [|by apply Hun].
      unfold mark_clean. rewrite unshadowed_setattr.
      - apply Hun. destruct n; [done|]. by left.
      - simpl. intros [?|[?|[]]]; discriminate. }
    assert (Ht' : is_tree n (mark_clean t) = true)
      by (by rewrite is_tree_mark_clean).
    by apply (is_dirty_subtree fuel n (mark_clean t) m).
Qed.

Lemma mark_clean_clears_own_flag_witness :
  let c := attr_set (new_BaseObject (VStr "C") (VStr "c"))
             "_dirty_mask" (VInt 1) in
  let p := setattr (new_BaseObject (VStr "P") (VStr "p")) "_child"
             (VList [c]) in
  is_tree 2 p = true /\ 2 <= 3 /\ In c (subtree 2 (mark_clean p))
  /\ is_dirty 3 c = Ok false.
Proof.
  intros c p.
  assert (Hin : In c (subtree 2 (mark_clean p))) by (right; by left).
  split; [reflexivity|]. split; [lia|]. split; [exact Hin|].
  apply (proj2 (proj2 (mark_clean_clears_own_flag p)) 2 3 c);
    [reflexivity|lia|exact Hin|].
  intros x [<-|[<-|[]]]; reflexivity.
Defined.

(** ** C5: the reserved key of a filter object *)

Lemma for_each_app {A S} (body : S -> A -> result S) l1 l2 s :
  for_each body (l1 ++ l2) s
  = (s1 <- for_each body l1 s ;; for_each body l2 s1).
Proof.
  revert s. induction l1 as [|a l1 IH]; intros s; simpl; [done|].
  destruct (body s a); simpl; [apply IH|done].
Qed.

Lemma filter_loop_no_class_ self l x x' :
  for_each (filter_attribute self) l x = Ok x' ->
  dict_get "class_" (attrib x) = None ->
  dict_get "class_" (attrib x') = None.
Proof.
  intros Hrun H0. revert Hrun.
  apply (for_each_inv (fun y => dict_get "class_" (attrib y) = None));
    [|done].
  intros s key s' _ Hs Hb. unfold filter_attribute in Hb.
  destruct (String.prefix "_" key); [by inversion Hb; subst|].
  destruct (String.eqb_spec key "class_") as [->|Hne];
    bind_inv Hb as v Hv; inversion Hb; subst; simpl;
    by rewrite dict_get_set_ne.
Qed.

Lemma filter_loop_keeps_class self X l x x' :
  attr_get self "class_" = Ok X ->
  ~ In "class" l ->
  for_each (filter_attribute self) l x = Ok x' ->
  dict_get "class" (attrib x) = Some X ->
  dict_get "class" (attrib x') = Some X.
Proof.
  intros HX Hl Hrun H0. revert Hrun.
  apply (for_each_inv (fun y => dict_get "class" (attrib y) = Some X));
    [|done].
  intros s key s' Hkey Hs Hb. unfold filter_attribute in Hb.
  destruct (String.prefix "_" key); [by inversion Hb; subst|].
  destruct (String.eqb_spec key "class_") as [->|Hne].
  - bind_inv Hb as v Hv. call_inv Hv as Hget. rewrite HX in Hv.
    inversion Hv; subst v. inversion Hb; subst. simpl.
    by rewrite dict_get_set_eq.
  - bind_inv Hb as v Hv. inversion Hb; subst. simpl.
    rewrite dict_get_set_ne; [done|]. intros ->. by apply Hl.
Qed.

(** C5 (as stated, refuted): a filter whose field [class_] holds ["X"] and
    which also has a field named [class], set later; the XML attribute
    [class] carries the value of the later field. *)
Lemma filter_class_overwritten :
  let f := attr_set
             (attr_set (new_AbstractFilter (VStr "FilterFilter") (VStr "filter"))
                "class_" (VStr "X"))
             "class" (VStr "Y") in
  attr_get f "class_" = Ok (VStr "X")
  /\ to_xml 2 f None VNone
     = Ok (MkElement (VStr "filter") [("class", VStr "Y")] [], None).
Proof. split; reflexivity. Qed.

(** C5 (amended): serialising a filter object whose field [class_] holds
    [X] emits no attribute named [class_], and emits the attribute [class]
    with value [X] provided no field literally named [class] comes after
    [class_] in the instance dictionary (both fields are written to the XML
    attribute [class], and the later one wins). *)
Theorem filter_class_attribute :
  forall fuel self xml_doc elem_name e doc' X d1 X0 d2,
    type_of self = AbstractFilter ->
    attr_get self "class_" = Ok X ->
    dict_of self = d1 ++ ("class_", X0) :: d2 ->
    ~ In "class" (keys d2) ->
    to_xml fuel self xml_doc elem_name = Ok (e, doc') ->
    dict_get "class" (attrib e) = Some X
    /\ dict_get "class_" (attrib e) = None.
Proof.
  intros [|fuel] self xml_doc elem_name e doc' X d1 X0 d2
    Hty HX Hd Hlater Hrun; [done|].
  simpl in Hrun. unfold call_to_xml in Hrun. call_inv Hrun as Hcall.
  rewrite Hty in Hrun. unfold AbstractFilter_to_xml in Hrun.
  bind_inv Hrun as class_tag Htag. bind_inv Hrun as r Hr.
  call_inv Hr as Hcreate. rewrite elem_create_spec in Hr.
  change (fun xml_obj key => _) with (filter_attribute self) in Hrun.
  assert (Hkeep := to_xml_appends fuel).
  assert (Hgoal : forall x0 x1 x2,
             attrib x0 = [] ->
             for_each (filter_attribute self) (keys (dict_of self)) x0 = Ok x1 ->
             child_to_xml (to_xml fuel) self x1 = Ok x2 ->
             dict_get "class" (attrib x2) = Some X
             /\ dict_get "class_" (attrib x2) = None).
  { intros x0 x1 x2 Hx0 Hloop Hch.
    apply (child_to_xml_keeps _ _ _ _ Hkeep) in Hch as [_ ->].
    split.
    - rewrite Hd in Hloop. unfold keys in Hloop.
      rewrite map_app, for_each_app in Hloop. simpl in Hloop.
      bind_inv Hloop as y1 Hy1. bind_inv Hloop as y2 Hy2.
      unfold filter_attribute at 1 in Hy2. simpl in Hy2.
      bind_inv Hy2 as v Hv. call_inv Hv as Hget. rewrite HX in Hv.
      inversion Hv; subst v. inversion Hy2; subst y2.
      eapply filter_loop_keeps_class; [exact HX|exact Hlater|exact Hloop|].
      simpl. apply dict_get_set_eq.
    - eapply filter_loop_no_class_; [exact Hloop|]. by rewrite Hx0. }
  destruct xml_doc as [p|]; inversion Hr; subst r; clear Hr;
    cbv beta iota zeta in Hrun;
    bind_inv Hrun as x1 Hx1; bind_inv Hrun as x2 Hx2;
    call_inv Hx2 as Hchild; inversion Hrun; subst;
    (eapply (Hgoal _ x1 e); [|exact Hx1|exact Hx2]; reflexivity).
Qed.

Lemma filter_class_attribute_witness :
  let f := attr_set
             (attr_set (new_AbstractFilter (VStr "FilterFilter") (VStr "filter"))
                "class" (VStr "Y"))
             "class_" (VStr "X") in
  dict_get "class" [("class", VStr "X")] = Some (VStr "X")
  /\ dict_get "class_" [("class", VStr "X")] = @None value.
Proof.
  intros f.
  apply (filter_class_attribute 2 f None VNone
           (MkElement (VStr "filter") [("class", VStr "X")] []) None
           (VStr "X")
           [("_tag_name", VStr "filter"); ("_class_id", VStr "FilterFilter");
            ("_child", VList []); ("_handle", VNone); ("class", VStr "Y")]
           (VStr "X") []);
    [reflexivity|reflexivity|reflexivity| |reflexivity].
  simpl. tauto.
Defined.

(** ** C10: which trees serialise *)

Lemma iter_children_of t c l :
  getattr t "_child" = Ok c -> iter c = Ok l -> children_of t = l.
Proof.
  unfold getattr, children_of.
  destruct (dict_get "_child" (dict_of t)) as [v|]; [|done].
  intros [= ->]. destruct c as [|s| | |l']; simpl; try done.
  - destruct (String.eqb s ""); [by intros [= <-]|done].
  - by intros [= <-].
Qed.

Lemma child_to_xml_all f self x x' :
  child_to_xml f self x = Ok x' ->
  forall c, In c (children_of self) ->
    exists p r, f c (Some p) VNone = Ok r.
Proof.
  unfold child_to_xml. intros Hrun c Hc.
  bind_inv Hrun as v Hv. bind_inv Hrun as l Hl.
  rewrite (iter_children_of _ _ _ Hv Hl) in Hc.
  destruct (for_each_all _ _ _ _ _ Hrun Hc) as (s1 & s2 & Hb).
  bind_inv Hb as r Hr. eauto.
Qed.

Lemma call_to_xml_Ok f self xml_doc elem_name r :
  call_to_xml f self xml_doc elem_name = Ok r ->
  (type_of self = BaseObject \/ type_of self = AbstractFilter)
  /\ forall c, In c (children_of self) ->
       exists p r', f c (Some p) VNone = Ok r'.
Proof.
  unfold call_to_xml. intros Hrun. call_inv Hrun as Hcall.
  destruct (type_of self); try discriminate; (split; [tauto|]).
  - unfold AbstractFilter_to_xml in Hrun. bind_inv Hrun as t Ht.
    bind_inv Hrun as r0 Hr0. destruct r0 as [x0 doc0].
    bind_inv Hrun as x1 Hx1. bind_inv Hrun as x2 Hx2.
    call_inv Hx2 as Hchild.
    by apply (child_to_xml_all _ _ _ _ Hx2).
  - unfold BaseObject_to_xml in Hrun. bind_inv Hrun as t Ht.
    bind_inv Hrun as r0 Hr0. destruct r0 as [x0 doc0].
    bind_inv Hrun as x1 Hx1. bind_inv Hrun as x2 Hx2.
    call_inv Hx2 as Hchild.
    by apply (child_to_xml_all _ _ _ _ Hx2).
Qed.

Lemma to_xml_Ok_classes fuel :
  forall t xml_doc elem_name r,
    to_xml fuel t xml_doc elem_name = Ok r ->
    forall n m, In m (subtree n t) ->
      type_of m = BaseObject \/ type_of m = AbstractFilter.
Proof.
  induction fuel as [|fuel IH]; intros t xml_doc elem_name r Hrun n m Hm;
    [done|].
  simpl in Hrun. apply call_to_xml_Ok in Hrun as [Hty Hch].
  destruct n as [|n]; [done|].
  change (In m (t :: flat_map (subtree n) (children_of t))) in Hm.
  destruct Hm as [<-|Hm]; [done|].
  apply in_flat_map in Hm as (c & Hc & Hm).
  destruct (Hch c Hc) as (p & r' & Hr'). by eapply IH.
Qed.

(** C10: an [OperationStatus] has no [to_xml], so calling it raises
    [AttributeError] (and [TypeError] when the object holds a field named
    [to_xml], which is then what is called); the serialisation of a parent
    calls [to_xml] on every child, so a node that has an [OperationStatus]
    child does not serialise: the call raises.  [to_xml] returns an element
    only on a tree every node of which is a [BaseObject] or an
    [AbstractFilter]. *)
Theorem to_xml_fails_on_status_child :
  forall fuel t xml_doc elem_name,
    (forall r, to_xml fuel t xml_doc elem_name = Ok r ->
       forall n m, In m (subtree n t) ->
         type_of m = BaseObject \/ type_of m = AbstractFilter)
    /\ (forall c, In c (children_of t) -> type_of c = OperationStatus ->
          to_xml (S fuel) c xml_doc elem_name
          = Raise (match dict_get "to_xml" (dict_of c) with
                   | Some _ => TypeError
                   | None => AttributeError
                   end)
          /\ exists e, to_xml fuel t xml_doc elem_name = Raise e).
Proof.
  intros fuel t xml_doc elem_name. split.
  - intros r. apply to_xml_Ok_classes.
  - intros c Hc Hty. split.
    { simpl. unfold call_to_xml, call_method. rewrite Hty.
      by destruct (dict_get "to_xml" (dict_of c)). }
    destruct (to_xml fuel t xml_doc elem_name) as [r|e] eqn:Hrun; [|eauto].
    exfalso.
    assert (Hin : In c (subtree 2 t)).
    { change (In c (t :: flat_map (subtree 1) (children_of t))).
      right. apply in_flat_map. exists c. split; [done|]. by left. }
    destruct (to_xml_Ok_classes _ _ _ _ _ Hrun 2 c Hin); congruence.
Qed.

Lemma to_xml_fails_on_status_child_witness :
  exists status,
    new_OperationStatus [("rn", VStr "operation"); ("status", VStr "success")]
    = Ok status
    /\ let blade := setattr
                      (attr_set (new_BaseObject (VStr "ComputeBlade")
                                   (VStr "computeBlade"))
                         "dn" (VStr "sys/blade-1"))
                      "_child" (VList [status]) in
       to_xml 6 status None VNone = Raise AttributeError
       /\ exists e, to_xml 5 blade None VNone = Raise e.
Proof.
  eexists. split; [reflexivity|]. intros blade.
  apply (proj2 (to_xml_fails_on_status_child 5 blade None VNone)
           (Node OperationStatus
              [("_tag_name", VStr "operationStatus");
               ("_class_id", VStr "OperationStatus");
               ("_child", VList []); ("_handle", VNone);
               ("rn", VStr "operation"); ("status", VStr "success")])).
  - by left.
  - reflexivity.
Defined.

(** ** C7: status leaves end the descent of [from_xml] *)

Section Deserialiser.

Variable convert_to_python_var_name : string -> string.
Variable word_u : value -> result string.
Variable get_imc_obj : string -> element -> result node.
Variable object_repr : value -> string.

Abbreviation from_xml :=
  (BaseObject_from_xml convert_to_python_var_name word_u get_imc_obj
     object_repr).
Abbreviation child_round :=
  (from_xml_child convert_to_python_var_name word_u get_imc_obj object_repr).
Abbreviation resolved :=
  (resolved_child convert_to_python_var_name word_u get_imc_obj object_repr).
Abbreviation started :=
  (ingested convert_to_python_var_name object_repr).
Abbreviation ingest_loop :=
  (ingest_attributes convert_to_python_var_name object_repr).

(** What the attribute loop of [from_xml] stores, when every call of
    [attr_set] reaches the method. *)
Abbreviation stored :=
  (fold_left (fun (self : node) (item : string * value) =>
                attr_set self (convert_to_python_var_name (fst item))
                  (VStr (py_str object_repr (snd item))))).

Lemma ingest_attributes_Ok_inv elem :
  forall self self',
    ingest_loop self elem = Ok self' -> self' = stored (attrib elem) self.
Proof.
  unfold ingest_attributes.
  induction (attrib elem) as [|[k v] a IH]; simpl; intros self self' H.
  - by inversion H.
  - bind_inv H as s1 Hs1. call_inv Hs1 as Hn. inversion Hs1; subst s1.
    by apply IH.
Qed.

Lemma ingest_attributes_Ok elem :
  forall self,
    dict_get "attr_set" (dict_of self) = None ->
    (forall k, In k (keys (attrib elem)) ->
       convert_to_python_var_name k <> "attr_set") ->
    ingest_loop self elem = Ok (stored (attrib elem) self).
Proof.
  unfold ingest_attributes.
  induction (attrib elem) as [|[k v] a IH]; simpl; intros self Hself Hk;
    [done|].
  rewrite call_method_None by done. simpl. apply IH.
  - unfold attr_set. simpl. rewrite dict_get_set_ne; [done|].
    apply Hk. by left.
  - intros k' Hk'. apply Hk. by right.
Qed.

Lemma from_xml_unfold elem self handle :
  from_xml elem self handle
  = (s0 <- started self elem handle ;;
     for_each (child_round handle) (getchildren elem) s0).
Proof.
  destruct elem as [t a ces]. unfold ingested. simpl.
  destruct (ingest_attributes convert_to_python_var_name object_repr
              (setattr self "_handle" handle) (MkElement t a ces))
    as [s0|]; [|done].
  simpl. revert s0.
  induction ces as [|ce ces IH]; intros s; [done|].
  simpl. unfold from_xml_child at 1.
  destruct (word_u (tag ce)) as [cln|]; [|done]. simpl.
  destruct (get_imc_obj cln ce) as [child|]; [|done]. simpl.
  destruct (child_append s child) as [s1|]; [|done]. simpl.
  destruct (isinstance child OperationStatus); [apply IH|].
  destruct (call_method child "from_xml" _); [apply IH|done].
Qed.

Lemma child_append_children self c self' :
  child_append self c = Ok self' ->
  exists l, dict_get "_child" (dict_of self) = Some (VList l)
            /\ self' = setattr self "_child" (VList (l ++ [c])).
Proof.
  unfold child_append, getattr. intros H.
  destruct (dict_get "_child" (dict_of self)) as [[| | | |l]|];
    try discriminate.
  simpl in H. inversion H. eauto.
Qed.

Lemma children_of_setattr_child self l :
  children_of (setattr self "_child" (VList l)) = l.
Proof. unfold children_of, setattr. simpl. by rewrite dict_get_set_eq. Qed.

Lemma children_of_list self l :
  dict_get "_child" (dict_of self) = Some (VList l) -> children_of self = l.
Proof. unfold children_of. by intros ->. Qed.

Lemma dict_set_set {V} (d : list (string * V)) k v v' :
  dict_set k v' (dict_set k v d) = dict_set k v' d.
Proof.
  induction d as [|[k0 v0] d IH]; simpl.
  - by rewrite String.eqb_refl.
  - destruct (String.eqb_spec k k0) as [->|Hne]; simpl.
    + by rewrite String.eqb_refl.
    + destruct (String.eqb_spec k k0); [done|]. by rewrite IH.
Qed.

Lemma dict_set_same {V} (d : list (string * V)) k v :
  dict_get k d = Some v -> dict_set k v d = d.
Proof.
  induction d as [|[k0 v0] d IH]; simpl; [done|].
  destruct (String.eqb_spec k k0) as [->|Hne].
  - by intros [= ->].
  - intros H. by rewrite IH.
Qed.

Lemma child_sync_append self l c c' :
  child_sync (setattr self "_child" (VList (l ++ [c]))) c'
  = setattr self "_child" (VList (l ++ [c'])).
Proof.
  unfold child_sync, setattr. simpl. rewrite dict_get_set_eq.
  by rewrite removelast_last, dict_set_set.
Qed.

Lemma from_xml_child_spec handle self ce self' :
  child_round handle self ce = Ok self' ->
  exists c', children_of self' = children_of self ++ [c']
             /\ resolved handle ce c'.
Proof.
  unfold from_xml_child. intros H.
  bind_inv H as cln Hcln. bind_inv H as child Hchild.
  bind_inv H as s1 Hs1.
  apply child_append_children in Hs1 as (l & Hl & ->).
  rewrite (children_of_list _ _ Hl).
  destruct (isinstance child OperationStatus) eqn:Hst.
  - inversion H; subst. exists child. rewrite children_of_setattr_child.
    split; [done|]. exists cln, child. by rewrite Hst.
  - bind_inv H as c' Hc'. call_inv Hc' as Hfield. inversion H; subst.
    exists c'.
    rewrite child_sync_append, children_of_setattr_child.
    split; [done|]. exists cln, child. rewrite Hst. repeat split; try done;
      by destruct (type_of child).
Qed.

Lemma from_xml_children_spec handle ces :
  forall self self',
    for_each (child_round handle) ces self = Ok self' ->
    exists cs, children_of self' = children_of self ++ cs
               /\ Forall2 (resolved handle) ces cs.
Proof.
  induction ces as [|ce ces IH]; intros self self' H; simpl in H.
  - inversion H; subst. exists []. by rewrite app_nil_r.
  - bind_inv H as s1 Hs1.
    apply from_xml_child_spec in Hs1 as (c' & Hc' & Hres).
    apply IH in H as (cs & Hcs & Hall).
    exists (c' :: cs). split; [|by constructor].
    by rewrite Hcs, Hc', <- app_assoc.
Qed.


End Deserialiser.



(** ** C1: the round trip through XML *)

Lemma dict_get_app {V} (d1 d2 : list (string * V)) k :
  dict_get k (d1 ++ d2)
  = match dict_get k d1 with Some v => Some v | None => dict_get k d2 end.
Proof.
  induction d1 as [|[k0 v0] d1 IH]; simpl; [done|].
  by destruct (String.eqb k k0).
Qed.

Lemma dict_get_NoDup {V} (d : list (string * V)) k v :
  NoDup (keys d) -> In (k, v) d -> dict_get k d = Some v.
Proof.
  induction d as [|[k0 v0] d IH]; simpl; [done|].
  intros Hnd [Heq|Hin].
  - inversion Heq; subst. by rewrite String.eqb_refl.
  - apply NoDup_cons in Hnd as [Hk0 Hnd].
    destruct (String.eqb_spec k k0) as [->|Hne]; [|by apply IH].
    exfalso. apply Hk0. apply list_elem_of_In.
    change (In k0 (map fst d)). apply in_map_iff. by exists (k0, v).
Qed.

Lemma filter_public_cons (k : string) (v : value) d :
  filter (fun kv => public (fst kv) = true) ((k, v) :: d)
  = if public k then (k, v) :: filter (fun kv => public (fst kv) = true) d
    else filter (fun kv => public (fst kv) = true) d.
Proof.
  rewrite filter_cons. simpl. destruct (public k) eqn:Hp.
  - by rewrite decide_True.
  - by rewrite decide_False.
Qed.

(** The attribute loop of [BaseObject.to_xml] writes the public fields, in
    dictionary order. *)
Lemma object_loop_attributes self t ch :
  dict_get "attr_get" (dict_of self) = None ->
  forall rest acc,
    (forall k v, In (k, v) rest -> attr_get self k = Ok v) ->
    NoDup (keys rest) ->
    (forall k, In k (keys rest) -> dict_get k acc = None) ->
    for_each (object_attribute self) (keys rest) (MkElement t acc ch)
    = Ok (MkElement t
            (acc ++ filter (fun kv => public (fst kv) = true) rest) ch).
Proof.
  intros Hself.
  induction rest as [|[k v] rest IH]; intros acc Hget Hnd Hacc.
  - simpl. by rewrite app_nil_r.
  - simpl. rewrite filter_public_cons. unfold public.
    apply NoDup_cons in Hnd as [Hk Hnd]. unfold object_attribute at 1.
    destruct (String.prefix "_" k) eqn:Hp; simpl.
    + apply IH; [|done|].
      * intros k' v' Hin. apply Hget. by right.
      * intros k' Hin. apply Hacc. by right.
    + rewrite call_method_None by done.
      rewrite (Hget k v) by (by left). simpl.
      unfold Element_set. simpl.
      rewrite dict_set_absent by (apply Hacc; by left).
      rewrite IH; [by rewrite <- app_assoc| |done|].
      * intros k' v' Hin. apply Hget. by right.
      * intros k' Hin. rewrite dict_get_app, Hacc by (by right). simpl.
        destruct (String.eqb_spec k' k) as [->|]; [|done].
        exfalso. apply Hk. by apply list_elem_of_In.
Qed.

Lemma keys_filter_public (d : list (string * value)) k :
  In k (keys (filter (fun kv => public (fst kv) = true) d)) ->
  In k (keys d) /\ public k = true.
Proof.
  unfold keys. rewrite !in_map_iff. intros ([k0 v0] & <- & Hin).
  apply list_elem_of_In, list_elem_of_filter in Hin as [Hp Hin]. simpl in *.
  split; [|done]. exists (k0, v0). split; [done|]. by apply list_elem_of_In.
Qed.

Lemma NoDup_keys_filter_public (d : list (string * value)) :
  NoDup (keys d) ->
  NoDup (keys (filter (fun kv => public (fst kv) = true) d)).
Proof.
  induction d as [|[k v] d IH]; simpl; intros Hnd; [done|].
  apply NoDup_cons in Hnd as [Hk Hnd]. rewrite filter_public_cons.
  destruct (public k); [|by apply IH]. simpl. apply NoDup_cons. split.
  - intros Hin. apply Hk. apply list_elem_of_In.
    by apply (keys_filter_public d k), list_elem_of_In.
  - by apply IH.
Qed.

Lemma filter_public_app (d1 d2 : list (string * value)) :
  filter (fun kv => public (fst kv) = true) (d1 ++ d2)
  = filter (fun kv => public (fst kv) = true) d1
    ++ filter (fun kv => public (fst kv) = true) d2.
Proof. apply filter_app. Qed.

Lemma filter_public_idemp (d : list (string * value)) :
  filter (fun kv => public (fst kv) = true)
    (filter (fun kv => public (fst kv) = true) d)
  = filter (fun kv => public (fst kv) = true) d.
Proof.
  induction d as [|[k v] d IH]; [done|].
  rewrite filter_public_cons. destruct (public k) eqn:Hp; [|done].
  by rewrite filter_public_cons, Hp, IH.
Qed.

Lemma subtree_child n t c m :
  In c (children_of t) -> In m (subtree n c) -> In m (subtree (S n) t).
Proof.
  intros Hc Hm. change (In m (t :: flat_map (subtree n) (children_of t))).
  right. apply in_flat_map. eauto.
Qed.

Lemma subtree_root n t : In t (subtree (S n) t).
Proof. by left. Qed.

Lemma is_tree_root_in n t : is_tree n t = true -> In t (subtree n t).
Proof. destruct n; [done|]. intros _. apply subtree_root. Qed.

Lemma attribute_tree_child n t c :
  attribute_tree (S n) t -> In c (children_of t) -> attribute_tree n c.
Proof.
  intros [Ht Hall] Hc. apply is_tree_inv in Ht as (l & _ & Hl & Hch).
  split; [apply Hch; by rewrite <- Hl|].
  intros m Hm. apply Hall. by eapply subtree_child.
Qed.

(** A public key is assigned in the attributes as in the dictionary. *)
Lemma filter_dict_set_public (d : list (string * value)) key v :
  public key = true ->
  filter (fun kv => public (fst kv) = true) (dict_set key v d)
  = dict_set key v (filter (fun kv => public (fst kv) = true) d).
Proof.
  intros Hp. induction d as [|[k0 v0] d IH]; simpl.
  - by rewrite filter_public_cons, Hp.
  - destruct (String.eqb_spec key k0) as [<-|Hne].
    + rewrite !filter_public_cons, Hp. simpl. by rewrite String.eqb_refl.
    + rewrite !filter_public_cons. destruct (public k0); [|done].
      simpl. destruct (String.eqb_spec key k0); [done|]. by rewrite IH.
Qed.

(** Assignments that go through a list of items with distinct keys, on a
    dictionary that holds the first of these keys in order, leave the
    list. *)
Lemma fold_dict_set_cons {V} (a : list (string * V)) :
  forall k v d,
    ~ In k (keys a) ->
    fold_left (fun d kv => dict_set (fst kv) (snd kv) d) a ((k, v) :: d)
    = (k, v) :: fold_left (fun d kv => dict_set (fst kv) (snd kv) d) a d.
Proof.
  induction a as [|[k' v'] a IH]; intros k v d Hk; simpl; [done|].
  destruct (String.eqb_spec k' k) as [->|Hne].
  - exfalso. apply Hk. by left.
  - apply IH. intros Hin. apply Hk. by right.
Qed.

Lemma fold_dict_set_fresh {V} (a : list (string * V)) :
  forall d,
    NoDup (keys a) ->
    (forall k, In k (keys a) -> dict_get k d = None) ->
    fold_left (fun d kv => dict_set (fst kv) (snd kv) d) a d = d ++ a.
Proof.
  induction a as [|[k v] a IH]; intros d Hnd Hd; simpl.
  - by rewrite app_nil_r.
  - apply NoDup_cons in Hnd as [Hk Hnd].
    rewrite dict_set_absent by (apply Hd; by left).
    rewrite IH; [by rewrite <- app_assoc|done|].
    intros k' Hk'. rewrite dict_get_app, Hd by (by right). simpl.
    destruct (String.eqb_spec k' k) as [->|]; [|done].
    exfalso. apply Hk. by apply list_elem_of_In.
Qed.

Lemma fold_dict_set_prefix {V} (p : list (string * V)) :
  forall a rest,
    NoDup (keys a) -> keys a = keys p ++ rest ->
    fold_left (fun d kv => dict_set (fst kv) (snd kv) d) a p = a.
Proof.
  induction p as [|[k0 v0] p IH]; intros a rest Hnd Hkeys.
  - by rewrite fold_dict_set_fresh.
  - destruct a as [|[k v] a]; [done|]. simpl in Hkeys.
    inversion Hkeys as [[Hk Ha]]. subst k0.
    apply NoDup_cons in Hnd as [Hnk Hnd]. simpl.
    rewrite String.eqb_refl. rewrite fold_dict_set_cons.
    + f_equal. by apply (IH a rest).
    + intros Hin. apply Hnk. by apply list_elem_of_In.
Qed.

Lemma attributes_setattr_private t k v :
  public k = false -> attributes (setattr t k v) = attributes t.
Proof. intros Hp. unfold attributes, setattr. simpl. by apply filter_dict_set_private. Qed.

Lemma dict_get_public_attributes t k :
  public k = true ->
  dict_get k (attributes t) = dict_get k (dict_of t).
Proof.
  intros Hp. unfold attributes.
  induction (dict_of t) as [|[k0 v0] d IH]; [done|].
  rewrite filter_public_cons. simpl.
  destruct (String.eqb_spec k k0) as [->|Hne].
  - rewrite Hp. simpl. by rewrite String.eqb_refl.
  - destruct (public k0); [|done]. simpl.
    by destruct (String.eqb_spec k k0).
Qed.

(** An object that takes in the element of a node holds no public field
    that the node does not hold. *)
Lemma takes_in_absent o e t k :
  takes_in o e -> attrib e = attributes t ->
  public k = true -> dict_get k (dict_of t) = None ->
  dict_get k (dict_of o) = None.
Proof.
  intros (_ & _ & rest & Hkeys) He Hp Hk.
  rewrite <- (dict_get_public_attributes o k Hp).
  apply dict_get_None. intros Hin.
  rewrite <- (dict_get_public_attributes t k Hp), <- He in Hk.
  apply dict_get_None in Hk. apply Hk. rewrite Hkeys.
  apply in_or_app. by left.
Qed.

Section RoundTrip.

Variable convert_to_python_var_name : string -> string.
Variable word_u : value -> result string.
Variable get_imc_obj : string -> element -> result node.
Variable object_repr : value -> string.

Abbreviation from_xml' :=
  (BaseObject_from_xml convert_to_python_var_name word_u get_imc_obj
     object_repr).
Abbreviation restores' :=
  (restores convert_to_python_var_name word_u get_imc_obj object_repr).
Abbreviation stored' :=
  (fold_left (fun (self : node) (item : string * value) =>
                attr_set self (convert_to_python_var_name (fst item))
                  (VStr (py_str object_repr (snd item))))).

(** What the attribute loop of [from_xml] stores, on names the convention
    keeps and values that are strings, is an assignment of each item. *)
Lemma stored_kept_names attrs :
  forall self,
    (forall k v, In (k, v) attrs ->
       convert_to_python_var_name k = k /\ exists s, v = VStr s) ->
    stored' attrs self
    = Node (type_of self)
        (fold_left (fun d kv => dict_set (fst kv) (snd kv) d) attrs
           (dict_of self)).
Proof.
  induction attrs as [|[k v] attrs IH]; intros self Hkv; simpl.
  - by destruct self.
  - destruct (Hkv k v) as [Hk [s ->]]; [by left|]. rewrite Hk. simpl.
    rewrite IH; [done|]. intros k' v' Hin. apply Hkv. by right.
Qed.

Lemma fold_dict_set_attributes (attrs : list (string * value)) :
  forall d,
    (forall k, In k (keys attrs) -> public k = true) ->
    filter (fun kv => public (fst kv) = true)
      (fold_left (fun d kv => dict_set (fst kv) (snd kv) d) attrs d)
    = fold_left (fun d kv => dict_set (fst kv) (snd kv) d) attrs
        (filter (fun kv => public (fst kv) = true) d).
Proof.
  induction attrs as [|[k v] attrs IH]; intros d Hp; simpl; [done|].
  rewrite IH by (intros k' Hk'; apply Hp; by right).
  rewrite filter_dict_set_public; [done|]. apply Hp. by left.
Qed.

Lemma fold_dict_set_other (attrs : list (string * value)) k :
  forall d,
    ~ In k (keys attrs) ->
    dict_get k (fold_left (fun d kv => dict_set (fst kv) (snd kv) d) attrs d)
    = dict_get k d.
Proof.
  induction attrs as [|[k' v] attrs IH]; intros d Hk; simpl; [done|].
  rewrite IH by (intros Hin; apply Hk; by right).
  apply dict_get_set_ne. intros ->. apply Hk. by left.
Qed.

(** The child loop of [child_to_xml]. *)
Lemma child_loop_restores fuel l :
  (forall c, In c l ->
     forall p, exists e r,
       to_xml fuel c (Some p) VNone = Ok (e, r)
       /\ restores' c e /\ attrib e = attributes c) ->
  forall x,
    exists es,
      for_each (fun xml_doc child =>
                  r <- to_xml fuel child (Some xml_doc) VNone ;;
                  Ok (default xml_doc (snd r)))
               l x
      = Ok (MkElement (tag x) (attrib x) (getchildren x ++ es))
      /\ Forall2 (fun c e => restores' c e /\ Some (tag e) = element_tag c
                             /\ attrib e = attributes c)
           l es.
Proof.
  induction l as [|c l IH]; intros Hl x.
  - exists []. rewrite app_nil_r. split; [by destruct x|constructor].
  - destruct (Hl c (in_eq _ _) x) as (e & r & Hrun & Hres & Hattr).
    assert (Hshape : r = Some (Element_append x e)
                     /\ Some (tag e) = element_tag c).
    { clear -Hrun. destruct fuel as [|fuel]; [done|]. simpl in Hrun.
      apply call_to_xml_shape in Hrun as (t & Ht & Htag & ->);
        [|apply to_xml_appends].
      by rewrite Htag, Ht. }
    destruct Hshape as [-> Htag].
    destruct (IH (fun c' Hc' => Hl c' (in_cons _ _ _ Hc'))
                (Element_append x e)) as (es & Hes & Hall).
    exists (e :: es). cbn [for_each]. rewrite Hrun. simpl. split.
    + rewrite Hes. simpl. by rewrite <- app_assoc.
    + by constructor.
Qed.

(** The child loop of [from_xml] on the elements of such children. *)
Lemma from_xml_loop_restores handle l :
  forall es,
    Forall2 (fun c e => restores' c e /\ Some (tag e) = element_tag c
                        /\ attrib e = attributes c) l es ->
    (forall c e, In c l ->
       Some (tag e) = element_tag c -> attrib e = attributes c ->
       dict_get "from_xml" (dict_of c) = None
       /\ exists cln o,
            word_u (tag e) = Ok cln
            /\ get_imc_obj cln e = Ok o
            /\ element_tag o = Some (tag e)
            /\ takes_in o e) ->
    forall self l0,
      dict_get "_child" (dict_of self) = Some (VList l0) ->
      exists cs,
        for_each (from_xml_child convert_to_python_var_name word_u
                    get_imc_obj object_repr handle) es self
        = Ok (setattr self "_child" (VList (l0 ++ cs)))
        /\ map element_tag cs = map element_tag l.
Proof.
  induction l as [|c l IH]; intros es Hall Hreg self l0 Hl0.
  - inversion Hall; subst. exists []. simpl. rewrite app_nil_r. split; [|done].
    f_equal. destruct self as [k d]. unfold setattr. simpl.
    by rewrite dict_set_same.
  - inversion Hall as [|c0 e l' es' (Hres & Htag & Hattr) Hall']; subst.
    destruct (Hreg c e (in_eq _ _) Htag Hattr)
      as (Hfield & cln & o & Hwu & Hobj & Hotag & Htakes).
    destruct (Hres o handle Htakes) as (c' & Hfrom & _ & Hc'tag).
    destruct (IH es' Hall'
                (fun c' e' Hc' => Hreg c' e' (in_cons _ _ _ Hc'))
                (setattr self "_child" (VList (l0 ++ [c']))) (l0 ++ [c']))
      as (cs & Hcs & Htags).
    { unfold setattr. simpl. apply dict_get_set_eq. }
    exists (c' :: cs). cbn [for_each]. unfold from_xml_child at 1.
    rewrite Hwu. simpl. rewrite Hobj. simpl.
    unfold child_append, getattr. rewrite Hl0. simpl.
    destruct Htakes as (Hoty & Htakes).
    assert (Hst : isinstance o OperationStatus = false).
    { unfold isinstance. by rewrite Hoty. }
    rewrite Hst, Hoty.
    rewrite call_method_None.
    2:{ apply (takes_in_absent o e c); [by split|done|done|done]. }
    rewrite Hfrom. simpl. rewrite child_sync_append, Hcs. split.
    + f_equal. unfold setattr. simpl.
      by rewrite dict_set_set, <- app_assoc.
    + simpl. rewrite Htags, Hc'tag, Hotag. by rewrite Htag.
Qed.

Lemma attribute_object_unshadowed t k :
  attribute_object t -> In k (to_xml_methods ++ from_xml_methods) ->
  dict_get k (dict_of t) = None.
Proof. intros (_ & _ & _ & _ & Hun). by apply unshadowed_In. Qed.

Lemma tree_round_trip n :
  forall t,
    attribute_tree n t ->
    names_kept convert_to_python_var_name n t ->
    children_resolved word_u get_imc_obj n t ->
    forall fuel xml_doc elem_name,
      n <= fuel ->
      exists e r,
        to_xml fuel t xml_doc elem_name = Ok (e, r)
        /\ restores' t e /\ attrib e = attributes t.
Proof.
  induction n as [|n IH];
    intros t Htree Hnames Hreg fuel xml_doc elem_name Hfuel.
  { by destruct Htree. }
  destruct fuel as [|fuel]; [lia|].
  assert (Hn : n <= fuel) by lia.
  assert (Hobj := proj2 Htree t (subtree_root n t)).
  destruct Hobj as (Hty & Hkeys & [tg Htg] & Hstr & Hun).
  assert (Hmeth : forall k, In k (to_xml_methods ++ from_xml_methods) ->
                    dict_get k (dict_of t) = None).
  { intros k. by apply unshadowed_In. }
  destruct (is_tree_inv _ _ (proj1 Htree)) as (l & Hl & Hch & _).
  (* the children *)
  assert (Hchildren : forall c, In c l ->
            forall p, exists e r,
              to_xml fuel c (Some p) VNone = Ok (e, r)
              /\ restores' c e /\ attrib e = attributes c).
  { intros c Hc p. rewrite <- Hch in Hc. apply IH; [| | |done].
    - by eapply attribute_tree_child.
    - intros m k v Hm. apply Hnames. by eapply subtree_child.
    - intros m c' e Hm. apply Hreg. by eapply subtree_child. }
  (* serialisation *)
  set (t0 := match xml_doc with
             | None => VStr tg
             | Some _ => if truthy elem_name then elem_name else VStr tg
             end).
  destruct (child_loop_restores fuel l Hchildren
              (MkElement t0 (attributes t) [])) as (es & Hes & Hall).
  simpl in Hes.
  exists (MkElement t0 (attributes t) es).
  exists (sync_last (snd (elem_create (VStr tg) xml_doc elem_name))
            (MkElement t0 (attributes t) es)).
  split; [|split; [|done]].
  { simpl. unfold call_to_xml.
    rewrite call_method_None by (apply Hmeth; simpl; tauto).
    rewrite Hty. unfold BaseObject_to_xml.
    unfold getattr at 1. unfold element_tag in Htg. rewrite Htg. simpl.
    rewrite call_method_None by (apply Hmeth; simpl; tauto).
    rewrite elem_create_spec.
    change (fun xml_obj key => _) with (object_attribute t).
    assert (Hloop := object_loop_attributes t t0 []
                       (Hmeth "attr_get" ltac:(simpl; tauto)) (dict_of t) []).
    simpl in Hloop. fold (attributes t) in Hloop.
    destruct xml_doc as [p|]; cbn [bind]; cbv beta iota zeta;
      (unfold Element; fold t0; rewrite Hloop;
       [|intros k v Hin; unfold attr_get; by rewrite (dict_get_NoDup _ k v)
        |exact Hkeys|done]);
      cbn [bind];
      rewrite call_method_None by (apply Hmeth; simpl; tauto);
      unfold child_to_xml, getattr; rewrite Hl; simpl;
      by rewrite Hes. }
  (* deserialisation *)
  intros self handle Htakes. rewrite from_xml_unfold. unfold ingested.
  set (self0 := setattr self "_handle" handle).
  assert (Htakes0 : takes_in self0 (MkElement t0 (attributes t) es)).
  { destruct Htakes as (Hsty & Hsch & rest & Hrest).
    split; [done|]. split.
    - unfold self0, setattr. simpl. by rewrite dict_get_set_ne.
    - exists rest. unfold self0.
      by rewrite attributes_setattr_private. }
  assert (Hkept : forall k v, In (k, v) (attributes t) ->
            convert_to_python_var_name k = k /\ exists s, v = VStr s).
  { intros k v Hin. split.
    - apply (Hnames t k v); [apply subtree_root|done].
    - by apply (Hstr k v). }
  assert (Hpub : forall k, In k (keys (attributes t)) -> public k = true).
  { intros k Hin. by apply keys_filter_public in Hin as [_ Hp]. }
  rewrite ingest_attributes_Ok.
  2:{ apply (takes_in_absent self0 (MkElement t0 (attributes t) es) t);
        [done|done|done|].
      apply Hmeth. simpl. tauto. }
  2:{ simpl attrib. intros k Hin Heq.
      assert (Hk : In k (keys (dict_of t)))
        by (by apply keys_filter_public in Hin as [Hin _]).
      apply in_map_iff in Hin as ([k' v] & Hfst & Hin). simpl in Hfst.
      subst k'. destruct (Hkept k v Hin) as [Hconv _].
      rewrite Hconv in Heq. subst k.
      apply (dict_get_None (dict_of t) "attr_set"); [|done].
      apply Hmeth. simpl. tauto. }
  cbn [bind]. simpl attrib. simpl getchildren.
  rewrite stored_kept_names by done.
  set (d1 := fold_left (fun d kv => dict_set (fst kv) (snd kv) d)
               (attributes t) (dict_of self0)).
  assert (Hattr1 : attributes (Node (type_of self0) d1) = attributes t).
  { unfold attributes, d1. simpl. rewrite fold_dict_set_attributes by done.
    destruct Htakes0 as (_ & _ & rest & Hrest). simpl in Hrest.
    apply (fold_dict_set_prefix _ _ rest); [|exact Hrest].
    apply NoDup_keys_filter_public, Hkeys. }
  assert (Hpriv1 : forall k, public k = false ->
            dict_get k d1 = dict_get k (dict_of self0)).
  { intros k Hp. unfold d1. apply fold_dict_set_other.
    intros Hin. apply Hpub in Hin. congruence. }
  destruct (from_xml_loop_restores handle l es Hall) with
    (self := Node (type_of self0) d1) (l0 := @nil node)
    as (cs & Hcs & Htags).
  - intros c e Hc Htag Hattr. rewrite <- Hch in Hc. split.
    + apply (attribute_object_unshadowed c).
      * apply (proj2 Htree). eapply subtree_child; [exact Hc|].
        apply is_tree_root_in.
        by apply (attribute_tree_child _ _ _ Htree Hc).
      * simpl. tauto.
    + apply (Hreg t c e); [apply subtree_root|done|done|done].
  - simpl. rewrite Hpriv1 by done. by destruct Htakes0 as (_ & ? & _).
  - eexists. split; [exact Hcs|]. split; [split|].
    + by rewrite attributes_setattr_private.
    + rewrite children_of_setattr_child, Hch. done.
    + unfold element_tag, setattr. simpl.
      rewrite dict_get_set_ne by done. rewrite Hpriv1 by done.
      unfold self0, setattr. simpl. by rewrite dict_get_set_ne.
Qed.

(** C1 (amended): for every tree [t] of attribute objects with
    string-valued attributes, none of them named after a method that the
    serialiser or the deserialiser calls on the object, provided the naming
    convention leaves every attribute name of [t] unchanged and the registry
    resolves the element of every child in [t] to an attribute object under
    the tag of the element that takes the element in (a new object, or one
    pre-populated from the element), serialising [t] and ingesting the
    element into a newly constructed [BaseObject] reproduces the attributes
    of [t] and the tags of its children, in order. *)
Theorem round_trip_reproduces :
  forall n t fuel elem_name cid tg handle,
    attribute_tree n t -> n <= fuel ->
    names_kept convert_to_python_var_name n t ->
    children_resolved word_u get_imc_obj n t ->
    exists e t',
      to_xml fuel t None elem_name = Ok (e, None)
      /\ from_xml' e (new_BaseObject cid tg) handle = Ok t'
      /\ reproduces t' t.
Proof.
  intros n t fuel elem_name cid tg handle Htree Hfuel Hnames Hreg.
  destruct (tree_round_trip n t Htree Hnames Hreg fuel None elem_name Hfuel)
    as (e & r & Hrun & Hres & Hattr).
  destruct (Hres (new_BaseObject cid tg) handle) as (t' & Hfrom & Hrep & _).
  { split; [done|]. split; [done|]. by exists (keys (attrib e)). }
  exists e, t'. split; [|done].
  destruct fuel as [|fuel]; [done|]. assert (Hshape := Hrun).
  simpl in Hshape.
  apply call_to_xml_shape in Hshape as (t0 & _ & _ & ->);
    [done|apply to_xml_appends].
Qed.

End RoundTrip.

(** C1 (as stated, refuted): with a naming convention that turns camel-case
    names into names with underscores, an attribute object with the
    attribute [adminState] comes back with the attribute [admin_state]. *)
Lemma round_trip_renames_attribute :
  let t := attr_set (new_BaseObject (VStr "AdaptorUnit") (VStr "adaptorUnit"))
             "adminState" (VStr "up") in
  attribute_tree 1 t
  /\ exists e t',
       to_xml 1 t None VNone = Ok (e, None)
       /\ BaseObject_from_xml sample_convert sample_word_u sample_get_imc_obj
            sample_repr e
            (new_BaseObject (VStr "AdaptorUnit") (VStr "adaptorUnit")) VNone
          = Ok t'
       /\ attributes t = [("adminState", VStr "up")]
       /\ attributes t' = [("admin_state", VStr "up")].
Proof.
  intros t. split.
  - split; [reflexivity|]. intros m [<-|[]].
    split; [reflexivity|]. split.
    { unfold well_keyed. apply (bool_decide_unpack _). by vm_compute. }
    split; [by exists "adaptorUnit"|]. split; [|reflexivity].
    intros k v [[= <- <-]|[]]. by exists "up".
  - eexists. eexists. split; [reflexivity|]. split; [reflexivity|].
    split; reflexivity.
Qed.

Lemma round_trip_reproduces_witness :
  let unit := attr_set
                (new_BaseObject (VStr "AdaptorUnit") (VStr "adaptorUnit"))
                "dn" (VStr "sys/blade-1/adaptor-1") in
  let blade := setattr
                 (attr_set
                    (attr_set
                       (new_BaseObject (VStr "ComputeBlade")
                          (VStr "computeBlade"))
                       "dn" (VStr "sys/blade-1"))
                    "descr" (VStr "first blade"))
                 "_child" (VList [unit]) in
  exists e t',
    to_xml 2 blade None VNone = Ok (e, None)
    /\ BaseObject_from_xml sample_convert sample_word_u
         populating_get_imc_obj sample_repr e
         (new_BaseObject (VStr "ComputeBlade") (VStr "computeBlade"))
         (VHandle 7) = Ok t'
    /\ reproduces t' blade.
Proof.
  intros unit blade.
  assert (Hnodes : forall m, In m (subtree 2 blade) -> m = blade \/ m = unit).
  { intros m [<-|[<-|[]]]; tauto. }
  apply (round_trip_reproduces sample_convert sample_word_u
           populating_get_imc_obj sample_repr 2 blade 2 VNone).
  - split; [reflexivity|]. intros m Hm.
    destruct (Hnodes m Hm) as [->| ->].
    + split; [reflexivity|]. split.
      { unfold well_keyed. apply (bool_decide_unpack _). by vm_compute. }
      split; [by exists "computeBlade"|]. split; [|reflexivity].
      intros k v [[= <- <-]|[[= <- <-]|[]]]; eauto.
    + split; [reflexivity|]. split.
      { unfold well_keyed. apply (bool_decide_unpack _). by vm_compute. }
      split; [by exists "adaptorUnit"|]. split; [|reflexivity].
      intros k v [[= <- <-]|[]]; eauto.
  - lia.
  - intros m k v Hm. destruct (Hnodes m Hm) as [->| ->].
    + intros [[= <- <-]|[[= <- <-]|[]]]; reflexivity.
    + intros [[= <- <-]|[]]; reflexivity.
  - intros m c e Hm Hc. destruct (Hnodes m Hm) as [->| ->].
    + destruct Hc as [<-|[]]. intros Htag Hattr.
      destruct e as [tg a ces]. simpl in Htag, Hattr.
      inversion Htag; subst tg. subst a.
      exists "AdaptorUnit". eexists. split; [reflexivity|].
      split; [reflexivity|]. split; [reflexivity|].
      split; [reflexivity|]. split; [reflexivity|]. by exists [].
    + destruct Hc.
Defined.

(** ** The store model *)

Module StoreFacts.
Import Store.

(** *** C4: [child_remove] *)

Lemma py_eq_comparable h a b :
  comparable h a -> comparable h b ->
  py_eq h a b = Ok (bool_decide (a = b)).
Proof.
  intros Ha Hb. destruct (decide (a = b)) as [->|Hne].
  - rewrite bool_decide_true by done.
    destruct b; simpl;
      by rewrite ?String.eqb_refl, ?Z.eqb_refl, ?Nat.eqb_refl.
  - rewrite bool_decide_false by done.
    destruct a as [|s|z|l], b as [|s'|z'|l']; simpl in *;
      repeat match goal with
             | H : exists _, _ |- _ => destruct H as (? & ? & H)
             end;
      repeat match goal with
             | H : _ !! _ = Some _ |- _ => rewrite H
             end;
      try done.
    + destruct (String.eqb_spec s s'); congruence.
    + destruct (Z.eqb_spec z z'); congruence.
    + destruct (Nat.eqb_spec l l'); congruence.
Qed.

Lemma remove_first_absent h x items :
  comparable h x -> Forall (comparable h) items -> ~ In x items ->
  remove_first h x items = Raise ValueError.
Proof.
  intros Hx. induction items as [|y items IH]; intros Hall Hnin; [done|].
  apply Forall_cons in Hall as [Hy Hall]. simpl.
  rewrite (py_eq_comparable h y x Hy Hx). simpl.
  rewrite bool_decide_false.
  - rewrite IH; [done|done|]. intros Hin. apply Hnin. by right.
  - intros ->. apply Hnin. by left.
Qed.

Lemma remove_first_present h x pre post :
  comparable h x -> Forall (comparable h) pre -> ~ In x pre ->
  remove_first h x (pre ++ x :: post) = Ok (pre ++ post).
Proof.
  intros Hx. induction pre as [|y pre IH]; intros Hall Hnin; simpl.
  - rewrite (py_eq_comparable h x x Hx Hx). simpl.
    by rewrite bool_decide_true.
  - apply Forall_cons in Hall as [Hy Hall].
    rewrite (py_eq_comparable h y x Hy Hx). simpl.
    rewrite bool_decide_false.
    + rewrite IH; [done|done|]. intros Hin. apply Hnin. by right.
    + intros ->. apply Hnin. by left.
Qed.

(** C4 (as stated, refuted): removing a value that is not among the
    children raises [ValueError]; and so does removing an object that is
    equal in structure to a child (here a shallow copy of it) and is not the
    child itself. *)
Lemma child_remove_absent_raises :
  exists (h : store) (a b b' : loc),
    (let* (a, h) := new_object BaseObject ∅ (VStr "A") (VStr "a") in
     let* (b, h) := new_object BaseObject h (VStr "B") (VStr "b") in
     h <- child_add h a (VRef b) ;;
     let* (b', h) := copy h b in
     Ok (h, a, b, b')) = Ok (h, a, b, b')
    /\ getattr h a "_child" = Ok (VRef 1)
    /\ h !! 1 = Some (CList [VRef b])
    /\ h !! b' = h !! b
    /\ b' <> b
    /\ child_remove h a (VStr "x") = Raise ValueError
    /\ child_remove h a (VRef b') = Raise ValueError.
Proof.
  eexists _, _, _, _. split; [vm_compute; reflexivity|].
  repeat split; try (by vm_compute).
Qed.

(** C4 (amended): with a value that is not in the children list,
    [child_remove] raises [ValueError] (and the list is as it was); with a
    value that is in the list, it takes out the first element equal to it,
    where an object is equal only to itself and atoms are equal by value. *)
Theorem child_remove_first_equal :
  forall (h : store) self c d lc items obj,
    h !! self = Some (CObj c d) ->
    dict_get "_child" d = Some (VRef lc) ->
    h !! lc = Some (CList items) ->
    comparable h obj -> Forall (comparable h) items ->
    (~ In obj items -> child_remove h self obj = Raise ValueError)
    /\ (forall pre post,
          items = pre ++ obj :: post -> ~ In obj pre ->
          child_remove h self obj = Ok (<[lc := CList (pre ++ post)]> h)).
Proof.
  intros h self c d lc items obj Hself Hchild Hlist Hobj Hitems.
  unfold child_remove, getattr. rewrite Hself, Hchild. simpl.
  rewrite Hlist. split.
  - intros Hnin. by rewrite remove_first_absent.
  - intros pre post -> Hnin.
    rewrite remove_first_present; [done|done| |done].
    by apply Forall_app in Hitems as [Hpre _].
Qed.

Lemma child_remove_first_equal_witness :
  let h : store :=
    <[0 := CObj BaseObject [("_child", VRef 1)]]>
      (<[1 := CList [VStr "x"; VRef 2; VStr "x"]]>
         (<[2 := CObj BaseObject []]> ∅)) in
  child_remove h 0 (VStr "y") = Raise ValueError
  /\ child_remove h 0 (VRef 2)
     = Ok (<[1 := CList ([VStr "x"] ++ [VStr "x"])]> h).
Proof.
  intros h.
  assert (Hall : Forall (comparable h) [VStr "x"; VRef 2; VStr "x"]).
  { repeat constructor. by exists BaseObject, []. }
  split.
  - apply (proj1 (child_remove_first_equal h 0 BaseObject
                    [("_child", VRef 1)] 1 [VStr "x"; VRef 2; VStr "x"]
                    (VStr "y") eq_refl eq_refl eq_refl I Hall)).
    simpl. intros [?|[?|[?|[]]]]; discriminate.
  - apply (proj2 (child_remove_first_equal h 0 BaseObject
                    [("_child", VRef 1)] 1 [VStr "x"; VRef 2; VStr "x"]
                    (VRef 2) eq_refl eq_refl eq_refl
                    (ex_intro _ BaseObject (ex_intro _ [] eq_refl)) Hall)
             [VStr "x"] [VStr "x"] eq_refl).
    simpl. intros [?|[]]; discriminate.
Defined.

(** *** C8: [clone] *)

Lemma cells_unfold n (h : store) l c d lc items :
  h !! l = Some (CObj c d) ->
  dict_get "_child" d = Some (VRef lc) ->
  h !! lc = Some (CList items) ->
  cells (S n) h l
  = l :: lc :: flat_map (fun v => match v with
                                  | VRef l' => cells n h l'
                                  | _ => []
                                  end) items.
Proof. intros Hl Hd Hlc. simpl. by rewrite Hl, Hd, Hlc. Qed.

Lemma in_cells_child n (h : store) items l' x :
  In (VRef l') items -> In x (cells n h l') ->
  In x (flat_map (fun v => match v with
                           | VRef l' => cells n h l'
                           | _ => []
                           end) items).
Proof. intros Hin Hx. apply in_flat_map. by exists (VRef l'). Qed.

Lemma flat_map_agree {A B} (f g : A -> list B) l :
  (forall a, In a l -> f a = g a) -> flat_map f l = flat_map g l.
Proof.
  induction l as [|a l IH]; simpl; intros H; [done|].
  rewrite (H a) by (by left). f_equal. apply IH. intros a' Ha'. apply H.
  by right.
Qed.

Lemma cells_allocated n :
  forall (h : store) l x, tree_at n h l -> In x (cells n h l) ->
    is_Some (h !! x).
Proof.
  induction n as [|n IH]; intros h l x Ht Hx; [done|].
  destruct Ht as (c & d & lc & items & Hl & Hd & Hlc & Hall).
  rewrite (cells_unfold n h l c d lc items Hl Hd Hlc) in Hx.
  destruct Hx as [<-|[<-|Hx]]; [by eexists|by eexists|].
  apply in_flat_map in Hx as (v & Hv & Hx).
  rewrite Forall_forall in Hall.
  destruct (Hall v) as (l' & -> & Hl'); [by apply list_elem_of_In|].
  by apply (IH h l').
Qed.

Lemma cells_agree n :
  forall (h h' : store) l,
    tree_at n h l ->
    (forall x, In x (cells n h l) -> h' !! x = h !! x) ->
    cells n h' l = cells n h l /\ tree_at n h' l.
Proof.
  induction n as [|n IH]; intros h h' l Ht Hagree; [done|].
  destruct Ht as (c & d & lc & items & Hl & Hd & Hlc & Hall).
  rewrite (cells_unfold n h l c d lc items Hl Hd Hlc) in *.
  assert (Hl' : h' !! l = Some (CObj c d)).
  { rewrite Hagree; [done|by left]. }
  assert (Hlc' : h' !! lc = Some (CList items)).
  { rewrite Hagree; [done|right; by left]. }
  rewrite (cells_unfold n h' l c d lc items Hl' Hd Hlc').
  assert (Hch : forall v, In v items ->
            exists l', v = VRef l'
              /\ cells n h' l' = cells n h l' /\ tree_at n h' l').
  { intros v Hv. rewrite Forall_forall in Hall.
    destruct (Hall v) as (l' & -> & Ht'); [by apply list_elem_of_In|].
    exists l'. split; [done|]. apply IH; [done|].
    intros x Hx. apply Hagree. right. right.
    by apply (in_cells_child n h items l'). }
  split.
  - do 2 f_equal. apply flat_map_agree. intros v Hv.
    by destruct (Hch v Hv) as (l' & -> & -> & _).
  - exists c, d, lc, items. repeat split; try done.
    apply Forall_forall. intros v Hv.
    destruct (Hch v) as (l' & -> & _ & Ht'); [by apply list_elem_of_In|].
    by exists l'.
Qed.

Lemma similar_tree n :
  forall (h : store) l (h' : store) l',
    similar n h l h' l' -> tree_at n h l /\ tree_at n h' l'.
Proof.
  induction n as [|n IH]; intros h l h' l' Hs; [done|].
  destruct Hs as (c & d & lc & items & lc' & items' &
                  Hl & Hd & Hlc & Hl' & Hlc' & Hall).
  split.
  - exists c, d, lc, items. repeat split; try done.
    apply Forall_forall. intros v Hv.
    apply list_elem_of_In, (Forall2_In_l _ _ _ _ Hall) in Hv
      as (v' & _ & x & x' & -> & -> & Hs).
    exists x. split; [done|]. by apply (IH _ _ _ _ Hs).
  - exists c, (dict_set "_child" (VRef lc') d), lc', items'.
    repeat split; try done; [apply dict_get_set_eq|].
    apply Forall_forall. intros v' Hv'.
    apply list_elem_of_In, (Forall2_In_r _ _ _ _ Hall) in Hv'
      as (v & _ & x & x' & -> & -> & Hs).
    exists x'. split; [done|]. by apply (IH _ _ _ _ Hs).
Qed.

Lemma similar_agree n :
  forall (h1 h1' : store) l1 (h2 h2' : store) l2,
    similar n h1 l1 h2 l2 ->
    (forall x, In x (cells n h1 l1) -> h1' !! x = h1 !! x) ->
    (forall x, In x (cells n h2 l2) -> h2' !! x = h2 !! x) ->
    similar n h1' l1 h2' l2.
Proof.
  induction n as [|n IH]; intros h1 h1' l1 h2 h2' l2 Hs H1 H2; [done|].
  destruct Hs as (c & d & lc & items & lc' & items' &
                  Hl & Hd & Hlc & Hl' & Hlc' & Hall).
  rewrite (cells_unfold n h1 l1 c d lc items Hl Hd Hlc) in H1.
  rewrite (cells_unfold n h2 l2 c _ lc' items' Hl'
             (dict_get_set_eq _ _ _) Hlc') in H2.
  exists c, d, lc, items, lc', items'. repeat split; try done.
  - rewrite H1; [done|by left].
  - rewrite H1; [done|right; by left].
  - rewrite H2; [done|by left].
  - rewrite H2; [done|right; by left].
  - apply (Forall2_impl_In _ _ _ _ Hall).
    intros v v' Hv Hv' (x & x' & -> & -> & Hs).
    exists x, x'. repeat split; try done.
    apply (IH h1 h1' x h2 h2' x' Hs).
    + intros y Hy. apply H1. right. right.
      by apply (in_cells_child n h1 items x).
    + intros y Hy. apply H2. right. right.
      by apply (in_cells_child n h2 items' x').
Qed.

Lemma special_method_Ok (h : store) d name :
  special_method h d name = Ok tt <-> dict_get name d = None.
Proof.
  unfold special_method. destruct (dict_get name d) as [v|]; [|done].
  by destruct (truthy h v) as [[|]|].
Qed.

Lemma plain_agree n (h h' : store) l :
  cells n h' l = cells n h l ->
  (forall x, In x (cells n h l) -> h' !! x = h !! x) ->
  plain n h l -> plain n h' l.
Proof.
  intros Hcells Hagree Hp x c d k Hx Hc Hk. rewrite Hcells in Hx.
  rewrite Hagree in Hc by done. by apply (Hp x c d k).
Qed.

Lemma plain_child n (h : store) l c d lc items l' :
  h !! l = Some (CObj c d) ->
  dict_get "_child" d = Some (VRef lc) ->
  h !! lc = Some (CList items) ->
  In (VRef l') items ->
  plain (S n) h l -> plain n h l'.
Proof.
  intros Hl Hd Hlc Hin Hp x c' d' k Hx. apply Hp.
  rewrite (cells_unfold n h l c d lc items Hl Hd Hlc).
  right. right. by apply (in_cells_child n h items l').
Qed.

(** The loop of [__deepcopy__] over the children. *)
Lemma deepcopy_loop n fuel (h0 : store) cc :
  copies n fuel ->
  h0 !! cc = None ->
  forall items (h_cur : store) ys,
    (forall x, is_Some (h0 !! x) -> h_cur !! x = h0 !! x) ->
    h_cur !! cc = Some (CList ys) ->
    Forall (fun v => exists l, v = VRef l /\ tree_at n h0 l /\ plain n h0 l)
      items ->
    exists (h_end : store) zs,
      for_each (fun h child =>
                  let* (y, h) := deepcopy fuel h child in
                  list_append h (VRef cc) y)
               items h_cur = Ok h_end
      /\ (forall x, x <> cc -> is_Some (h_cur !! x) -> h_end !! x = h_cur !! x)
      /\ h_end !! cc = Some (CList (ys ++ zs))
      /\ Forall2 (fun v z =>
                    exists l l', v = VRef l /\ z = VRef l'
                      /\ similar n h0 l h_end l'
                      /\ forall x, In x (cells n h_end l') ->
                                   h_cur !! x = None)
           items zs.
Proof.
  intros Hcopies Hcc.
  induction items as [|v items IH]; intros h_cur ys Hext Hys Hitems.
  - exists h_cur, []. simpl. rewrite app_nil_r. by repeat split.
  - apply Forall_cons in Hitems as [(l & -> & Ht0 & Hp0) Hitems].
    (* the tree of the child, in the current store *)
    assert (Hsrc : forall x, In x (cells n h0 l) -> h_cur !! x = h0 !! x).
    { intros x Hx. apply Hext. by apply (cells_allocated n h0 l). }
    destruct (cells_agree n h0 h_cur l Ht0 Hsrc) as [Hcells Ht].
    assert (Hp : plain n h_cur l) by (by apply (plain_agree n h0)).
    destruct (Hcopies h_cur l Ht Hp)
      as (l' & h1 & Hcopy & Hext1 & Hsim & Hfresh).
    assert (Hys1 : h1 !! cc = Some (CList ys)).
    { rewrite Hext1; [done|by eexists]. }
    set (h2 := <[cc := CList (ys ++ [VRef l'])]> h1).
    destruct (IH h2 (ys ++ [VRef l'])) as (h_end & zs & Hrun & Hext2 & Hend & Hall).
    { intros x Hx. unfold h2. rewrite lookup_insert_ne.
      - rewrite Hext1; [by apply Hext|]. rewrite Hext; done.
      - intros <-. rewrite Hcc in Hx. by destruct Hx. }
    { unfold h2. apply lookup_insert_eq. }
    { done. }
    exists h_end, (VRef l' :: zs). cbn [for_each]. rewrite Hcopy.
    cbn [bind]. unfold list_append at 1. rewrite Hys1. fold h2.
    cbn [bind]. rewrite Hrun.
    (* the cells of the copy *)
    destruct (similar_tree n _ _ _ _ Hsim) as [_ Ht1].
    assert (Hnew : forall x, In x (cells n h1 l') ->
              x <> cc /\ h_end !! x = h1 !! x).
    { intros x Hx. assert (x <> cc).
      { intros ->. apply Hfresh in Hx. congruence. }
      split; [done|]. rewrite Hext2; [|done|].
      - unfold h2. by rewrite lookup_insert_ne.
      - unfold h2. rewrite lookup_insert_ne by done.
        by apply (cells_allocated n h1 l'). }
    destruct (cells_agree n h1 h_end l' Ht1 (fun x Hx => proj2 (Hnew x Hx)))
      as [Hcells1 _].
    repeat split.
    + intros x Hx Hsome. rewrite Hext2; [|done|].
      * unfold h2. rewrite lookup_insert_ne by done. by apply Hext1.
      * unfold h2. rewrite lookup_insert_ne by done.
        rewrite Hext1; done.
    + by rewrite Hend, <- app_assoc.
    + constructor.
      * exists l, l'. repeat split; try done.
        -- apply (similar_agree n h_cur h0 l h1 h_end l' Hsim).
           ++ intros x Hx. symmetry. apply Hsrc. by rewrite <- Hcells.
           ++ intros x Hx. by apply Hnew.
        -- intros x Hx. apply Hfresh. by rewrite <- Hcells1.
      * apply (Forall2_impl_In _ _ _ _ Hall).
        intros v z _ _ (x & x' & -> & -> & Hs & Hf).
        exists x, x'. repeat split; try done.
        intros y Hy. specialize (Hf y Hy).
        destruct (h_cur !! y) as [cl|] eqn:Hy'; [|done].
        exfalso. destruct (decide (y = cc)) as [->|Hne].
        -- unfold h2 in Hf. by rewrite lookup_insert_eq in Hf.
        -- unfold h2 in Hf. rewrite lookup_insert_ne in Hf by done.
           rewrite Hext1 in Hf; [congruence|by eexists].
Qed.

Lemma alloc_fresh (h : store) c : h !! (alloc h c).1 = None.
Proof. simpl. apply not_elem_of_dom, is_fresh. Qed.

Lemma deepcopy_tree n : forall fuel, n <= fuel -> copies n fuel.
Proof.
  induction n as [|n IH]; intros fuel Hfuel h root Ht Hplain; [done|].
  destruct fuel as [|fuel]; [lia|]. assert (Hc : copies n fuel).
  { apply IH. lia. }
  destruct Ht as (c & d & lc & items & Hroot & Hd & Hlc & Hitems).
  assert (Hmeth : forall k, In k copy_methods -> dict_get k d = None).
  { intros k. apply (Hplain root c d k); [|done].
    rewrite (cells_unfold n h root c d lc items Hroot Hd Hlc). by left. }
  assert (Hitems' : Forall (fun v => exists l, v = VRef l /\ tree_at n h l
                                                /\ plain n h l) items).
  { rewrite Forall_forall in Hitems. apply Forall_forall. intros v Hv.
    destruct (Hitems v Hv) as (l & -> & Ht). exists l.
    split; [done|]. split; [done|].
    apply (plain_child n h root c d lc items l Hroot Hd Hlc); [|done].
    by apply list_elem_of_In. }
  (* the two allocations *)
  set (clone := fresh (dom h)).
  set (h1 := <[clone := CObj c d]> h).
  set (cc := fresh (dom h1)).
  set (h2 := <[cc := CList []]> h1).
  assert (Hclone : h !! clone = None) by apply (alloc_fresh h (CObj c d)).
  assert (Hcc1 : h1 !! cc = None) by apply (alloc_fresh h1 (CList [])).
  assert (Hne : clone <> cc).
  { intros Heq. rewrite <- Heq in Hcc1. unfold h1 in Hcc1.
    by rewrite lookup_insert_eq in Hcc1. }
  assert (Hcc : h !! cc = None).
  { unfold h1 in Hcc1. by rewrite lookup_insert_ne in Hcc1. }
  assert (Hext2 : forall x, is_Some (h !! x) -> h2 !! x = h !! x).
  { intros x [cl Hx]. unfold h2, h1.
    rewrite !lookup_insert_ne; [done|congruence|congruence]. }
  (* the loop *)
  destruct (deepcopy_loop n fuel h cc Hc Hcc items h2 [])
    as (h_end & zs & Hrun & Hext & Hend & Hall).
  { done. }
  { unfold h2. apply lookup_insert_eq. }
  { exact Hitems'. }
  assert (Hclone_end : h_end !! clone = Some (CObj c d)).
  { rewrite Hext; [|done|]; unfold h2, h1;
      rewrite lookup_insert_ne, lookup_insert_eq; done. }
  set (h' := <[clone := CObj c (dict_set "_child" (VRef cc) d)]> h_end).
  exists clone, h'. split; [|split; [|split]].
  - (* the run *)
    simpl. rewrite Hroot.
    rewrite (proj2 (special_method_Ok h d "__deepcopy__"))
      by (apply Hmeth; simpl; tauto).
    cbn [bind]. unfold ImcBase__deepcopy__, copy. rewrite Hroot.
    rewrite (proj2 (special_method_Ok h d "__reduce_ex__"))
      by (apply Hmeth; simpl; tauto).
    cbn [bind]. rewrite (Hmeth "__getnewargs__") by (simpl; tauto).
    rewrite (Hmeth "__getstate__") by (simpl; tauto).
    cbn [bind alloc]. fold clone. fold h1. fold cc. fold h2.
    unfold getattr.
    replace (h2 !! clone) with (Some (CObj c d)).
    2:{ unfold h2, h1. by rewrite lookup_insert_ne, lookup_insert_eq. }
    rewrite Hd. cbn [bind]. unfold iter.
    rewrite Hext2, Hlc by (by eexists). cbn [bind].
    rewrite Hrun. cbn [bind]. unfold setattr. rewrite Hclone_end. done.
  - (* the store before is kept *)
    intros x Hx. assert (x <> clone /\ x <> cc) as [Hx1 Hx2].
    { destruct Hx as [cl Hx]. split; congruence. }
    unfold h'. rewrite lookup_insert_ne by done.
    rewrite Hext; [by apply Hext2|done|]. by rewrite Hext2.
  - (* the copy has the shape and the contents of the source *)
    exists c, d, lc, items, cc, zs. repeat split; try done.
    + unfold h'. apply lookup_insert_eq.
    + unfold h'. by rewrite lookup_insert_ne.
    + apply (Forall2_impl_In _ _ _ _ Hall).
      intros v z _ _ (l & l' & -> & -> & Hs & Hf).
      exists l, l'. repeat split; try done.
      apply (similar_agree n h h l h_end h' l' Hs); [done|].
      intros x Hx. unfold h'. rewrite lookup_insert_ne; [done|].
      intros <-. apply Hf in Hx. unfold h2, h1 in Hx.
      by rewrite lookup_insert_ne, lookup_insert_eq in Hx.
  - (* the cells of the copy are new *)
    intros x Hx.
    rewrite (cells_unfold n h' clone c
               (dict_set "_child" (VRef cc) d) cc zs) in Hx;
      [|apply lookup_insert_eq|apply dict_get_set_eq
       |unfold h'; by rewrite lookup_insert_ne].
    destruct Hx as [<-|[<-|Hx]]; [done|done|].
    apply in_flat_map in Hx as (z & Hz & Hx).
    apply (Forall2_In_r _ _ _ _ Hall) in Hz
      as (v & _ & l & l' & -> & -> & Hs & Hf).
    destruct (similar_tree n _ _ _ _ Hs) as [_ Ht'].
    assert (Hagree : forall y, In y (cells n h_end l') -> h' !! y = h_end !! y).
    { intros y Hy. unfold h'. rewrite lookup_insert_ne; [done|].
      intros <-. apply Hf in Hy. unfold h2, h1 in Hy.
      by rewrite lookup_insert_ne, lookup_insert_eq in Hy. }
    destruct (cells_agree n h_end h' l' Ht' Hagree) as [Hcells _].
    rewrite Hcells in Hx. apply Hf in Hx.
    destruct (h !! x) as [cl|] eqn:Hhx; [|done].
    rewrite Hext2 in Hx; [congruence|by eexists].
Qed.

(** A copy is returned of a plain tree only. *)
Lemma deepcopy_loop_plain n fuel (h0 : store) cc :
  copies n fuel ->
  (forall (h : store) l r,
     tree_at n h l -> deepcopy fuel h (VRef l) = Ok r -> plain n h l) ->
  h0 !! cc = None ->
  forall items (h_cur h_end : store) ys,
    (forall x, is_Some (h0 !! x) -> h_cur !! x = h0 !! x) ->
    h_cur !! cc = Some (CList ys) ->
    Forall (fun v => exists l, v = VRef l /\ tree_at n h0 l) items ->
    for_each (fun h child =>
                let* (y, h) := deepcopy fuel h child in
                list_append h (VRef cc) y)
             items h_cur = Ok h_end ->
    Forall (fun v => exists l, v = VRef l /\ tree_at n h0 l /\ plain n h0 l)
      items.
Proof.
  intros Hcopies Hplain Hcc.
  induction items as [|v items IH]; intros h_cur h_end ys Hext Hys Hitems Hrun;
    [constructor|].
  apply Forall_cons in Hitems as [(l & -> & Ht0) Hitems].
  assert (Hsrc : forall x, In x (cells n h0 l) -> h_cur !! x = h0 !! x).
  { intros x Hx. apply Hext. by apply (cells_allocated n h0 l). }
  destruct (cells_agree n h0 h_cur l Ht0 Hsrc) as [Hcells Ht].
  cbn [for_each] in Hrun. bind_inv Hrun as h2 Hstep.
  bind_inv Hstep as r Hr. destruct r as [y h1'].
  assert (Hp : plain n h_cur l) by exact (Hplain h_cur l _ Ht Hr).
  assert (Hp0 : plain n h0 l).
  { apply (plain_agree n h_cur); [done| |done].
    intros x Hx. symmetry. apply Hsrc. by rewrite <- Hcells. }
  destruct (Hcopies h_cur l Ht Hp)
    as (l' & h1 & Hcopy & Hext1 & Hsim & Hfresh).
  rewrite Hcopy in Hr. inversion Hr; subst y h1'.
  assert (Hys1 : h1 !! cc = Some (CList ys)).
  { rewrite Hext1; [done|by eexists]. }
  unfold list_append in Hstep. rewrite Hys1 in Hstep.
  inversion Hstep; subst h2.
  constructor; [by exists l|].
  apply (IH (<[cc := CList (ys ++ [VRef l'])]> h1) h_end (ys ++ [VRef l']));
    [| |done|exact Hrun].
  - intros x Hx. rewrite lookup_insert_ne.
    + rewrite Hext1; [by apply Hext|]. rewrite Hext; done.
    + intros <-. rewrite Hcc in Hx. by destruct Hx.
  - apply lookup_insert_eq.
Qed.

Lemma deepcopy_Ok_plain n :
  forall fuel, n <= fuel ->
    forall (h : store) root r,
      tree_at n h root -> deepcopy fuel h (VRef root) = Ok r ->
      plain n h root.
Proof.
  induction n as [|n IH]; intros fuel Hfuel h root r Ht Hrun; [done|].
  destruct fuel as [|fuel]; [lia|].
  destruct Ht as (c & d & lc & items & Hroot & Hd & Hlc & Hitems).
  simpl in Hrun. rewrite Hroot in Hrun.
  bind_inv Hrun as u1 Hu1. destruct u1. apply special_method_Ok in Hu1.
  unfold ImcBase__deepcopy__ in Hrun. bind_inv Hrun as r1 Hr1.
  unfold copy in Hr1. rewrite Hroot in Hr1.
  bind_inv Hr1 as u2 Hu2. destruct u2. apply special_method_Ok in Hu2.
  destruct (dict_get "__getnewargs__" d) eqn:Hu4; [done|].
  destruct (dict_get "__getstate__" d) eqn:Hu3; [done|].
  inversion Hr1; subst r1. clear Hr1. cbn [alloc] in Hrun.
  set (clone := fresh (dom h)) in *.
  set (h1 := <[clone := CObj c d]> h) in *.
  set (cc := fresh (dom h1)) in *.
  set (h2 := <[cc := CList []]> h1) in *.
  assert (Hclone : h !! clone = None) by apply (alloc_fresh h (CObj c d)).
  assert (Hcc1 : h1 !! cc = None) by apply (alloc_fresh h1 (CList [])).
  assert (Hne : clone <> cc).
  { intros Heq. rewrite <- Heq in Hcc1. unfold h1 in Hcc1.
    by rewrite lookup_insert_eq in Hcc1. }
  assert (Hcc : h !! cc = None).
  { unfold h1 in Hcc1. by rewrite lookup_insert_ne in Hcc1. }
  assert (Hext2 : forall x, is_Some (h !! x) -> h2 !! x = h !! x).
  { intros x [cl Hx]. unfold h2, h1.
    rewrite !lookup_insert_ne; [done|congruence|congruence]. }
  bind_inv Hrun as cv Hcv. unfold getattr in Hcv.
  replace (h2 !! clone) with (Some (CObj c d)) in Hcv.
  2:{ unfold h2, h1. by rewrite lookup_insert_ne, lookup_insert_eq. }
  rewrite Hd in Hcv. inversion Hcv; subst cv.
  bind_inv Hrun as children Hiter. unfold iter in Hiter.
  rewrite Hext2, Hlc in Hiter by (by eexists). inversion Hiter; subst children.
  bind_inv Hrun as h_end Hloop.
  assert (Hall := deepcopy_loop_plain n fuel h cc
                    (deepcopy_tree n fuel ltac:(lia))
                    (IH fuel ltac:(lia)) Hcc items h2 h_end []
                    Hext2 ltac:(unfold h2; apply lookup_insert_eq)
                    Hitems Hloop).
  intros x c' d' k Hx Hc Hk.
  rewrite (cells_unfold n h root c d lc items Hroot Hd Hlc) in Hx.
  destruct Hx as [<-|[<-|Hx]].
  - rewrite Hroot in Hc. inversion Hc; subst c' d'.
    destruct Hk as [<-|[<-|[<-|[<-|[]]]]]; done.
  - rewrite Hlc in Hc. discriminate.
  - apply in_flat_map in Hx as (v & Hv & Hx).
    rewrite Forall_forall in Hall.
    destruct (Hall v) as (l & -> & _ & Hp); [by apply list_elem_of_In|].
    by apply (Hp x c' d' k).
Qed.

Lemma attr_set_other (h h'' : store) x y key v :
  attr_set h x key v = Ok h'' -> x <> y -> h'' !! y = h !! y.
Proof.
  unfold attr_set. destruct (h !! x) as [[c d|]|]; try done.
  intros [= <-] Hne. by rewrite lookup_insert_ne.
Qed.

Lemma attr_get_agree (h1 h2 : store) y key :
  h1 !! y = h2 !! y -> attr_get h1 y key = attr_get h2 y key.
Proof. unfold attr_get. by intros ->. Qed.

(** C8 (as stated, refuted): [clone] is [copy.deepcopy], which reads
    [__deepcopy__] on the object: once [attr_set] has stored a value under
    that name, what is called is the value and not the method of the class,
    and [clone] raises. *)
Lemma clone_raises_on_shadowed_deepcopy :
  exists (a : loc) (h0 h : store),
    new_object BaseObject ∅ (VStr "ComputeBlade") (VStr "computeBlade")
    = Ok (a, h0)
    /\ attr_set h0 a "__deepcopy__" (VStr "x") = Ok h
    /\ tree_at 1 h a
    /\ clone 1 h a = Raise TypeError
    /\ exists r, clone 1 h0 a = Ok r.
Proof.
  eexists _, _, _. split; [vm_compute; reflexivity|].
  split; [vm_compute; reflexivity|]. split; [|split].
  - eexists _, _, _, _. split; [vm_compute; reflexivity|].
    split; [reflexivity|]. split; [vm_compute; reflexivity|]. constructor.
  - by vm_compute.
  - eexists. vm_compute. reflexivity.
Qed.

(** C8 (amended): on a tree no object of which holds a field named
    [__deepcopy__], [__reduce_ex__], [__getnewargs__] or [__getstate__] (the
    special methods that the copy reads on the object), [clone] returns a
    copy with the shape and the contents of the source, node by node (so
    each node holds under [_handle] the very reference the source holds:
    the context handle is not copied), and leaves the source as it was.  No
    object and no child list of the copy is an object or a child list of
    the source, at any depth.  After a change of an attribute of a node of
    the copy through [attr_set], every node of the source has the attributes
    it had; and the same with the copy and the source exchanged. *)
Theorem clone_independent :
  forall n fuel (h : store) root,
    tree_at n h root -> plain n h root -> n <= fuel ->
    exists root' h',
      clone fuel h root = Ok (VRef root', h')
      /\ similar n h root h' root'
      /\ (forall x, is_Some (h !! x) -> h' !! x = h !! x)
      /\ (forall x y,
            In x (cells n h' root') -> In y (cells n h root) -> x <> y)
      /\ getattr h' root' "_handle" = getattr h root "_handle"
      /\ (forall x y key v h'',
            In x (cells n h' root') -> In y (cells n h root) ->
            attr_set h' x key v = Ok h'' ->
            forall k, attr_get h'' y k = attr_get h y k)
      /\ (forall x y key v h'',
            In x (cells n h' root') -> In y (cells n h root) ->
            attr_set h' y key v = Ok h'' ->
            forall k, attr_get h'' x k = attr_get h' x k).
Proof.
  intros n fuel h root Ht Hplain Hfuel.
  destruct (deepcopy_tree n fuel Hfuel h root Ht Hplain)
    as (root' & h' & Hrun & Hext & Hsim & Hfresh).
  assert (Hdistinct : forall x y,
            In x (cells n h' root') -> In y (cells n h root) -> x <> y).
  { intros x y Hx Hy ->. apply Hfresh in Hx.
    destruct (cells_allocated n h root y Ht Hy) as [cl Hcl]. congruence. }
  exists root', h'. repeat split; try done.
  - destruct n as [|n]; [done|].
    destruct Hsim as (c & d & lc & items & lc' & items' &
                      Hl & Hd & Hlc & Hl' & Hlc' & Hall).
    unfold getattr. rewrite Hl, Hl'. by rewrite dict_get_set_ne.
  - intros x y key v h'' Hx Hy Hset k.
    apply attr_get_agree.
    rewrite (attr_set_other _ _ _ _ _ _ Hset (Hdistinct x y Hx Hy)).
    apply Hext. by apply (cells_allocated n h root).
  - intros x y key v h'' Hx Hy Hset k.
    apply attr_get_agree.
    apply (attr_set_other _ _ _ _ _ _ Hset).
    intros ->. by apply (Hdistinct x x).
Qed.

Lemma clone_independent_witness :
  let h : store :=
    <[0 := CObj BaseObject
             [("_tag_name", VStr "computeBlade"); ("_child", VRef 1);
              ("_handle", VRef 9); ("dn", VStr "sys/blade-1")]]>
      (<[1 := CList [VRef 2]]>
         (<[2 := CObj BaseObject
                   [("_tag_name", VStr "adaptorUnit"); ("_child", VRef 3);
                    ("_handle", VRef 9)]]>
            (<[3 := CList []]> ∅))) in
  exists root' h',
    clone 2 h 0 = Ok (VRef root', h')
    /\ similar 2 h 0 h' root'
    /\ (forall x y, In x (cells 2 h' root') -> In y (cells 2 h 0) -> x <> y)
    /\ getattr h' root' "_handle" = Ok (VRef 9).
Proof.
  intros h.
  assert (Ht : tree_at 2 h 0).
  { exists BaseObject, [("_tag_name", VStr "computeBlade"); ("_child", VRef 1);
                        ("_handle", VRef 9); ("dn", VStr "sys/blade-1")],
      1, [VRef 2].
    split; [reflexivity|]. split; [reflexivity|]. split; [reflexivity|].
    constructor; [|constructor]. exists 2. split; [reflexivity|].
    exists BaseObject, [("_tag_name", VStr "adaptorUnit"); ("_child", VRef 3);
                        ("_handle", VRef 9)], 3, [].
    split; [reflexivity|]. split; [reflexivity|]. split; [reflexivity|].
    constructor. }
  assert (Hp : plain 2 h 0).
  { intros x c d k Hx Hc Hk.
    destruct Hx as [<-|[<-|[<-|[<-|[]]]]]; vm_compute in Hc;
      inversion Hc; subst;
      destruct Hk as [<-|[<-|[<-|[<-|[]]]]]; reflexivity. }
  destruct (clone_independent 2 2 h 0 Ht Hp (le_n 2))
    as (root' & h' & Hrun & Hsim & _ & Hdistinct & Hhandle & _).
  exists root', h'. split; [exact Hrun|]. split; [exact Hsim|].
  split; [exact Hdistinct|]. exact Hhandle.
Defined.

End StoreFacts.

(** * Further properties of the value model *)

(** ** Serialisation reads the public fields, the tag and the children *)

Lemma for_each_ext {A S} (f g : S -> A -> result S) l :
  (forall s a, In a l -> f s a = g s a) ->
  forall s, for_each f l s = for_each g l s.
Proof.
  induction l as [|a l IH]; intros Hfg s; simpl; [done|].
  rewrite (Hfg s a) by (by left). destruct (g s a) as [s'|e]; simpl; [|done].
  apply IH. intros s0 a0 Ha0. apply Hfg. by right.
Qed.

Lemma for_each_map {A B S} (h : A -> B) (f : S -> B -> result S) l s :
  for_each f (map h l) s = for_each (fun s a => f s (h a)) l s.
Proof.
  revert s. induction l as [|a l IH]; intros s; simpl; [done|].
  destruct (f s (h a)); simpl; [apply IH|done].
Qed.

Lemma keys_dict_set {V} (d : list (string * V)) k v :
  keys (dict_set k v d) = keys d \/ keys (dict_set k v d) = keys d ++ [k].
Proof.
  induction d as [|[k0 v0] d IH]; simpl; [by right|].
  destruct (String.eqb_spec k k0) as [->|Hne]; simpl; [by left|].
  destruct IH as [-> | ->]; [by left|by right].
Qed.

Lemma bind_ext {A B} (m m' : result A) (k k' : A -> result B) :
  m' = m -> (forall a, k' a = k a) -> bind m' k' = bind m k.
Proof. intros -> Hk. destruct m; simpl; [apply Hk|done]. Qed.

(** A method call on two objects that agree on the field of that name. *)
Lemma call_method_same {A} self self' name (m m' : result A) :
  attr_get self' name = attr_get self name -> m' = m ->
  call_method self' name m' = call_method self name m.
Proof.
  unfold call_method, attr_get. intros Hget ->.
  destruct (dict_get name (dict_of self')), (dict_get name (dict_of self));
    done.
Qed.

(** Two objects that agree on the class, the tag, the public fields and
    the serialisation of the children serialise alike. *)
Lemma call_to_xml_same f self self' xml_doc elem_name :
  type_of self' = type_of self ->
  getattr self' "_tag_name" = getattr self "_tag_name" ->
  (forall key, String.prefix "_" key = false ->
     attr_get self' key = attr_get self key) ->
  (keys (dict_of self') = keys (dict_of self)
   \/ exists k, String.prefix "_" k = true
                /\ keys (dict_of self') = keys (dict_of self) ++ [k]) ->
  (forall x, child_to_xml f self' x = child_to_xml f self x) ->
  call_to_xml f self' xml_doc elem_name = call_to_xml f self xml_doc elem_name.
Proof.
  intros Hty Htag Hget Hkeys Hch. unfold call_to_xml. rewrite Hty.
  assert (Hloop : forall (body body' : element -> string -> result element),
            (forall x key, String.prefix "_" key = true -> body x key = Ok x) ->
            (forall x key, body' x key = body x key) ->
            forall x, for_each body' (keys (dict_of self')) x
                      = for_each body (keys (dict_of self)) x).
  { intros body body' Hskip Hsame x.
    rewrite (for_each_ext body' body) by (intros; apply Hsame).
    destruct Hkeys as [-> | (k & Hk & ->)]; [done|].
    rewrite for_each_app.
    destruct (for_each body (keys (dict_of self)) x) as [x'|e]; simpl; [|done].
    by rewrite Hskip. }
  apply call_method_same; [by apply Hget|].
  destruct (type_of self); try done.
  - unfold AbstractFilter_to_xml. rewrite Htag.
    apply bind_ext; [done|]. intros t.
    apply bind_ext; [apply call_method_same; [by apply Hget|done]|].
    intros [x0 doc0].
    change (fun (xml_obj : element) (key : string) => _)
      with (filter_attribute self') at 1.
    change (fun (xml_obj : element) (key : string) => _)
      with (filter_attribute self) at 1.
    apply bind_ext.
    + apply (Hloop (filter_attribute self) (filter_attribute self')).
      * intros x key Hp. unfold filter_attribute. by rewrite Hp.
      * intros x key. unfold filter_attribute.
        destruct (String.prefix "_" key) eqn:Hp; [done|].
        by rewrite (call_method_same self self' "attr_get"
                      (attr_get self key) (attr_get self' key)
                      (Hget "attr_get" eq_refl) (Hget key Hp)).
    + intros x1. apply bind_ext; [|done].
      apply call_method_same; [by apply Hget|apply Hch].
  - unfold BaseObject_to_xml. rewrite Htag.
    apply bind_ext; [done|]. intros t.
    apply bind_ext; [apply call_method_same; [by apply Hget|done]|].
    intros [x0 doc0].
    change (fun (xml_obj : element) (key : string) => _)
      with (object_attribute self') at 1.
    change (fun (xml_obj : element) (key : string) => _)
      with (object_attribute self) at 1.
    apply bind_ext.
    + apply (Hloop (object_attribute self) (object_attribute self')).
      * intros x key Hp. unfold object_attribute. by rewrite Hp.
      * intros x key. unfold object_attribute.
        destruct (String.prefix "_" key) eqn:Hp; [done|].
        by rewrite (call_method_same self self' "attr_get"
                      (attr_get self key) (attr_get self' key)
                      (Hget "attr_get" eq_refl) (Hget key Hp)).
    + intros x1. apply bind_ext; [|done].
      apply call_method_same; [by apply Hget|apply Hch].
Qed.

Lemma keys_dict_set_present {V} (d : list (string * V)) k v w :
  dict_get k d = Some w -> keys (dict_set k v d) = keys d.
Proof.
  induction d as [|[k0 v0] d IH]; simpl; [done|].
  destruct (String.eqb_spec k k0); simpl; [done|].
  intros Hw. by rewrite IH.
Qed.

Lemma call_to_xml_setattr_reserved f self k v xml_doc elem_name :
  String.prefix "_" k = true -> k <> "_tag_name" -> k <> "_child" ->
  call_to_xml f (setattr self k v) xml_doc elem_name
  = call_to_xml f self xml_doc elem_name.
Proof.
  intros Hk Htag Hchild. apply call_to_xml_same.
  - done.
  - unfold getattr, setattr. simpl. by rewrite dict_get_set_ne.
  - intros key Hp. unfold attr_get, setattr. simpl.
    rewrite dict_get_set_ne; [done|]. intros ->. congruence.
  - unfold setattr. simpl.
    destruct (keys_dict_set (dict_of self) k v) as [H|H]; [by left|].
    right. by exists k.
  - intros x. unfold child_to_xml, getattr, setattr. simpl.
    by rewrite dict_get_set_ne.
Qed.

Lemma to_xml_mark_clean fuel t xml_doc elem_name :
  to_xml fuel (mark_clean t) xml_doc elem_name
  = to_xml fuel t xml_doc elem_name.
Proof.
  destruct fuel as [|fuel]; [done|]. simpl. unfold mark_clean.
  by apply call_to_xml_setattr_reserved.
Qed.

Lemma for_all_mark_clean l l' :
  for_all (fun child =>
             call_method child "mark_clean" (Ok (mark_clean child))) l
  = Ok l' ->
  l' = map mark_clean l
  /\ forall c, In c l -> dict_get "mark_clean" (dict_of c) = None.
Proof.
  revert l'. induction l as [|a l IH]; simpl; intros l' H.
  - inversion H. by split.
  - bind_inv H as b Hb. bind_inv H as bs Hbs. inversion H; subst l'.
    call_inv Hb as Hfield. inversion Hb; subst b.
    destruct (IH bs Hbs) as [-> Hall]. split; [done|].
    intros c [<-|Hc]; [done|by apply Hall].
Qed.

(** X1: [to_xml] reads no reserved field other than [_tag_name] and
    [_child]: whatever is stored under another name that begins with the
    private marker (the handle, the dirty mask), the element and the parent
    element come out the same.  So [mark_clean] on the root, and
    [child_mark_clean], leave the serialisation as it was. *)
Theorem to_xml_ignores_reserved_fields :
  forall fuel self xml_doc elem_name,
    (forall k v,
       String.prefix "_" k = true -> k <> "_tag_name" -> k <> "_child" ->
       to_xml fuel (setattr self k v) xml_doc elem_name
       = to_xml fuel self xml_doc elem_name)
    /\ to_xml fuel (mark_clean self) xml_doc elem_name
       = to_xml fuel self xml_doc elem_name
    /\ (forall self',
          child_mark_clean self = Ok self' ->
          to_xml fuel self' xml_doc elem_name
          = to_xml fuel self xml_doc elem_name).
Proof.
  intros fuel self xml_doc elem_name. split; [|split].
  - intros k v Hk Htag Hchild. destruct fuel as [|fuel]; [done|]. simpl.
    by apply call_to_xml_setattr_reserved.
  - apply to_xml_mark_clean.
  - intros self' Hrun. unfold child_mark_clean in Hrun.
    bind_inv Hrun as c Hc. bind_inv Hrun as l Hl. bind_inv Hrun as l' Hl'.
    apply for_all_mark_clean in Hl' as [-> _].
    destruct c as [| | | |l0]; try (by inversion Hrun; subst).
    simpl in Hl. inversion Hl; subst l. inversion Hrun; subst self'.
    clear Hl Hrun.
    assert (Hd : dict_get "_child" (dict_of self) = Some (VList l0)).
    { unfold getattr in Hc.
      by destruct (dict_get "_child" (dict_of self)); inversion Hc. }
    destruct fuel as [|fuel]; [done|]. simpl. apply call_to_xml_same.
    + done.
    + unfold getattr, setattr. simpl. by rewrite dict_get_set_ne.
    + intros key Hp. unfold attr_get, setattr. simpl.
      rewrite dict_get_set_ne; [done|]. by intros <-.
    + left. unfold setattr. simpl. by eapply keys_dict_set_present.
    + intros x. unfold child_to_xml, getattr, setattr. simpl.
      rewrite dict_get_set_eq, Hd. simpl. rewrite for_each_map.
      apply for_each_ext. intros s a _. by rewrite to_xml_mark_clean.
Qed.

Lemma to_xml_ignores_reserved_fields_witness :
  let blade := attr_set (new_BaseObject (VStr "ComputeBlade")
                           (VStr "computeBlade"))
                 "dn" (VStr "sys/blade-1") in
  to_xml 2 (setattr blade "_handle" (VHandle 7)) None VNone
  = to_xml 2 blade None VNone.
Proof.
  intros blade.
  apply (proj1 (to_xml_ignores_reserved_fields 2 blade None VNone)
           "_handle" (VHandle 7)); [reflexivity|discriminate|discriminate].
Defined.

(** ** When serialisation succeeds, and what the element holds *)

Lemma for_each_total {A S} (body : S -> A -> result S) l :
  (forall s a, In a l -> exists s', body s a = Ok s') ->
  forall s, exists s', for_each body l s = Ok s'.
Proof.
  induction l as [|a l IH]; intros Hbody s; simpl; [by eexists|].
  destruct (Hbody s a) as [s1 Hs1]; [by left|]. rewrite Hs1. simpl.
  apply IH. intros s0 a0 Ha0. apply Hbody. by right.
Qed.

Lemma attr_get_present self key :
  In key (keys (dict_of self)) -> exists v, attr_get self key = Ok v.
Proof.
  intros Hin. unfold attr_get.
  destruct (dict_get key (dict_of self)) as [v|] eqn:Hget; [by eexists|].
  by apply dict_get_None in Hget.
Qed.

(** An attribute loop that ends without an exception has called
    [attr_get] on every public field: [attr_get] is no field. *)
Lemma attribute_loop_unshadowed self
  (body : element -> string -> result element) x x' :
  (forall y y', body y "attr_get" = Ok y' ->
     dict_get "attr_get" (dict_of self) = None) ->
  for_each body (keys (dict_of self)) x = Ok x' ->
  dict_get "attr_get" (dict_of self) = None.
Proof.
  intros Hbody Hrun.
  destruct (dict_get "attr_get" (dict_of self)) as [v|] eqn:Hget; [|done].
  exfalso. assert (Hin : In "attr_get" (keys (dict_of self))).
  { apply dict_get_In in Hget. unfold keys. apply in_map_iff.
    by exists ("attr_get", v). }
  destruct (for_each_all _ _ _ _ _ Hrun Hin) as (s1 & s2 & Hb).
  apply Hbody in Hb. congruence.
Qed.

Lemma object_loop_unshadowed self x x' :
  for_each (object_attribute self) (keys (dict_of self)) x = Ok x' ->
  dict_get "attr_get" (dict_of self) = None.
Proof.
  apply attribute_loop_unshadowed. intros y y' Hb.
  unfold object_attribute in Hb. simpl in Hb.
  bind_inv Hb as v Hv. by call_inv Hv as Hn.
Qed.

Lemma filter_loop_unshadowed self x x' :
  for_each (filter_attribute self) (keys (dict_of self)) x = Ok x' ->
  dict_get "attr_get" (dict_of self) = None.
Proof.
  apply attribute_loop_unshadowed. intros y y' Hb.
  unfold filter_attribute in Hb. simpl in Hb.
  bind_inv Hb as v Hv. by call_inv Hv as Hn.
Qed.

(** A call of [to_xml] that returns has reached the methods of the class
    on the object. *)
Lemma call_to_xml_unshadowed f self xml_doc elem_name r :
  call_to_xml f self xml_doc elem_name = Ok r ->
  unshadowed to_xml_methods self = true.
Proof.
  unfold call_to_xml. intros Hrun. call_inv Hrun as Hcall.
  assert (Hgoal : dict_get "elem_create" (dict_of self) = None ->
                  dict_get "attr_get" (dict_of self) = None ->
                  dict_get "child_to_xml" (dict_of self) = None ->
                  unshadowed to_xml_methods self = true).
  { intros H1 H2 H3. unfold unshadowed. simpl. by rewrite Hcall, H1, H2, H3. }
  destruct (type_of self); try discriminate.
  - unfold AbstractFilter_to_xml in Hrun. bind_inv Hrun as t Ht.
    bind_inv Hrun as r0 Hr0. destruct r0 as [x0 doc0]. call_inv Hr0 as Hcreate.
    change (fun (xml_obj : element) (key : string) => _)
      with (filter_attribute self) in Hrun.
    bind_inv Hrun as x1 Hx1. bind_inv Hrun as x2 Hx2.
    call_inv Hx2 as Hchild.
    apply Hgoal; [done| |done]. by apply filter_loop_unshadowed in Hx1.
  - unfold BaseObject_to_xml in Hrun. bind_inv Hrun as t Ht.
    bind_inv Hrun as r0 Hr0. destruct r0 as [x0 doc0]. call_inv Hr0 as Hcreate.
    change (fun (xml_obj : element) (key : string) => _)
      with (object_attribute self) in Hrun.
    bind_inv Hrun as x1 Hx1. bind_inv Hrun as x2 Hx2.
    call_inv Hx2 as Hchild.
    apply Hgoal; [done| |done]. by apply object_loop_unshadowed in Hx1.
Qed.

Lemma to_xml_Ok_unshadowed fuel :
  forall t xml_doc elem_name r,
    to_xml fuel t xml_doc elem_name = Ok r ->
    forall n m, In m (subtree n t) -> unshadowed to_xml_methods m = true.
Proof.
  induction fuel as [|fuel IH]; intros t xml_doc elem_name r Hrun n m Hm;
    [done|].
  simpl in Hrun. assert (Hroot := call_to_xml_unshadowed _ _ _ _ _ Hrun).
  apply call_to_xml_Ok in Hrun as [_ Hch].
  destruct n as [|n]; [done|].
  change (In m (t :: flat_map (subtree n) (children_of t))) in Hm.
  destruct Hm as [<-|Hm]; [done|].
  apply in_flat_map in Hm as (c & Hc & Hm).
  destruct (Hch c Hc) as (p & r' & Hr'). by eapply IH.
Qed.

Lemma to_xml_total n :
  forall t,
    is_tree n t = true ->
    (forall m, In m (subtree n t) ->
       (type_of m = BaseObject \/ type_of m = AbstractFilter)
       /\ (exists tg, element_tag m = Some tg)
       /\ unshadowed to_xml_methods m = true) ->
    forall fuel xml_doc elem_name,
      n <= fuel ->
      exists e doc', to_xml fuel t xml_doc elem_name = Ok (e, doc').
Proof.
  induction n as [|n IH]; intros t Ht Hall fuel xml_doc elem_name Hfuel;
    [done|].
  destruct fuel as [|fuel]; [lia|].
  destruct (Hall t (subtree_root n t)) as (Hty & [tg Htg] & Hun).
  assert (Hmeth : forall k, In k to_xml_methods ->
                    dict_get k (dict_of t) = None).
  { intros k. by apply unshadowed_In. }
  destruct (is_tree_inv _ _ Ht) as (l & Hl & Hch & Htrees).
  assert (Hchildren : forall x, exists x',
            child_to_xml (to_xml fuel) t x = Ok x').
  { intros x. unfold child_to_xml, getattr. rewrite Hl. simpl.
    apply for_each_total. intros s c Hc.
    destruct (IH c (Htrees c Hc)) with (fuel := fuel) (xml_doc := Some s)
      (elem_name := VNone) as (e & doc' & Hrun); [|lia|].
    - intros m Hm. apply Hall. eapply subtree_child; [|exact Hm].
      by rewrite Hch.
    - rewrite Hrun. simpl. by eexists. }
  simpl. unfold call_to_xml.
  rewrite call_method_None by (apply Hmeth; simpl; tauto).
  unfold element_tag in Htg.
  destruct Hty as [Hty|Hty]; rewrite Hty.
  - unfold BaseObject_to_xml, getattr. rewrite Htg. cbn [bind].
    rewrite call_method_None by (apply Hmeth; simpl; tauto). cbn [bind].
    destruct (elem_create tg xml_doc elem_name) as [x0 doc0].
    change (fun (xml_obj : element) (key : string) => _)
      with (object_attribute t).
    destruct (for_each_total (object_attribute t) (keys (dict_of t)))
      with (s := x0) as [x1 Hx1].
    { intros s key Hkey. unfold object_attribute.
      destruct (String.prefix "_" key); [by eexists|].
      rewrite call_method_None by (apply Hmeth; simpl; tauto).
      destruct (attr_get_present t key Hkey) as [v ->]. simpl. by eexists. }
    rewrite Hx1. cbn [bind].
    rewrite call_method_None by (apply Hmeth; simpl; tauto).
    destruct (Hchildren x1) as [x2 ->]. simpl. by do 2 eexists.
  - unfold AbstractFilter_to_xml, getattr. rewrite Htg. cbn [bind].
    rewrite call_method_None by (apply Hmeth; simpl; tauto). cbn [bind].
    destruct (elem_create tg xml_doc elem_name) as [x0 doc0].
    change (fun (xml_obj : element) (key : string) => _)
      with (filter_attribute t).
    destruct (for_each_total (filter_attribute t) (keys (dict_of t)))
      with (s := x0) as [x1 Hx1].
    { intros s key Hkey. unfold filter_attribute.
      destruct (String.prefix "_" key); [by eexists|].
      rewrite call_method_None by (apply Hmeth; simpl; tauto).
      destruct (attr_get_present t key Hkey) as [v ->]. simpl.
      destruct (String.eqb key "class_"); by eexists. }
    rewrite Hx1. cbn [bind].
    rewrite call_method_None by (apply Hmeth; simpl; tauto).
    destruct (Hchildren x1) as [x2 ->]. simpl. by do 2 eexists.
Qed.

(** X2: on a tree every node of which is a [BaseObject] or an
    [AbstractFilter], has its tag, and holds no field named [to_xml],
    [elem_create], [attr_get] or [child_to_xml], [to_xml] returns an
    element, given recursion depth for the height of the tree: no attribute
    value and no override name makes it raise.  A field of one of these
    names does: whenever [to_xml] returns, no node holds one. *)
Theorem to_xml_succeeds_on_serialisable_tree :
  forall n t fuel xml_doc elem_name,
    (is_tree n t = true ->
     (forall m, In m (subtree n t) ->
        (type_of m = BaseObject \/ type_of m = AbstractFilter)
        /\ (exists tg, element_tag m = Some tg)
        /\ unshadowed to_xml_methods m = true) ->
     n <= fuel ->
     exists e doc', to_xml fuel t xml_doc elem_name = Ok (e, doc'))
    /\ (forall r m,
          to_xml fuel t xml_doc elem_name = Ok r -> In m (subtree n t) ->
          unshadowed to_xml_methods m = true).
Proof.
  intros n t fuel xml_doc elem_name. split.
  - intros Ht Hall Hfuel. by eapply to_xml_total.
  - intros r m Hrun Hm. by eapply to_xml_Ok_unshadowed.
Qed.

Lemma to_xml_succeeds_on_serialisable_tree_witness :
  let f := attr_set (new_AbstractFilter (VStr "FilterFilter") (VStr "filter"))
             "class_" (VStr "computeBlade") in
  let m := setattr (new_BaseObject (VStr "ConfigResolveClass")
                      (VStr "configResolveClass"))
             "_child" (VList [f]) in
  exists e doc', to_xml 2 m None (VInt 3) = Ok (e, doc').
Proof.
  intros f m.
  apply (proj1 (to_xml_succeeds_on_serialisable_tree 2 m 2 None (VInt 3))).
  - reflexivity.
  - intros x [<-|[<-|[]]].
    + split; [by left|]. split; [by eexists|reflexivity].
    + split; [by right|]. split; [by eexists|reflexivity].
  - lia.
Defined.

(** The elements [child_to_xml] adds: one for each child, in order, under
    the tag of the child. *)
Lemma child_loop_elements fuel l :
  forall x x',
    for_each (fun xml_doc child =>
                r <- to_xml fuel child (Some xml_doc) VNone ;;
                Ok (default xml_doc (snd r)))
             l x = Ok x' ->
    exists es,
      x' = MkElement (tag x) (attrib x) (getchildren x ++ es)
      /\ Forall2 (fun c ce => element_tag c = Some (tag ce)) l es.
Proof.
  induction l as [|c l IH]; intros x x' Hrun; simpl in Hrun.
  - inversion Hrun; subst. exists []. rewrite app_nil_r.
    split; [by destruct x'|constructor].
  - bind_inv Hrun as x1 Hx1. bind_inv Hx1 as r Hr. destruct r as [e doc'].
    assert (Hshape : doc' = Some (Element_append x e)
                     /\ element_tag c = Some (tag e)).
    { clear -Hr. destruct fuel as [|fuel]; [done|]. simpl in Hr.
      apply call_to_xml_shape in Hr as (t & Ht & Htag & ->);
        [|apply to_xml_appends].
      by rewrite Htag, Ht. }
    destruct Hshape as [-> Htag]. simpl in Hx1. inversion Hx1; subst x1.
    apply IH in Hrun as (es & -> & Hall). exists (e :: es). split.
    + simpl. by rewrite <- app_assoc.
    + by constructor.
Qed.

Lemma child_to_xml_elements fuel self x x' :
  child_to_xml (to_xml fuel) self x = Ok x' ->
  exists es,
    x' = MkElement (tag x) (attrib x) (getchildren x ++ es)
    /\ Forall2 (fun c ce => element_tag c = Some (tag ce))
         (children_of self) es.
Proof.
  unfold child_to_xml. intros Hrun.
  bind_inv Hrun as c Hc. bind_inv Hrun as l Hl.
  rewrite (iter_children_of _ _ _ Hc Hl). by apply (child_loop_elements fuel).
Qed.

(** X3: the element [BaseObject.to_xml] makes carries the public fields of
    the object as its attributes, names and values as they are, in the order
    of the instance dictionary, and nothing else; its sub-elements are one
    for each child, in the order of the children, each under the tag of its
    child. *)
Theorem to_xml_object_contents :
  forall fuel t xml_doc elem_name e doc',
    type_of t = BaseObject ->
    well_keyed (dict_of t) ->
    to_xml fuel t xml_doc elem_name = Ok (e, doc') ->
    attrib e = attributes t
    /\ Forall2 (fun c ce => element_tag c = Some (tag ce))
         (children_of t) (getchildren e).
Proof.
  intros [|fuel] t xml_doc elem_name e doc' Hty Hkeys Hrun; [done|].
  simpl in Hrun. unfold call_to_xml in Hrun. call_inv Hrun as Hcall.
  rewrite Hty in Hrun.
  unfold BaseObject_to_xml in Hrun. bind_inv Hrun as tg Htg.
  bind_inv Hrun as r0 Hr0. call_inv Hr0 as Hcreate.
  rewrite elem_create_spec in Hr0.
  change (fun (xml_obj : element) (key : string) => _)
    with (object_attribute t) in Hrun.
  assert (Hgoal : forall t0 x1 x2,
            for_each (object_attribute t) (keys (dict_of t)) (Element t0)
            = Ok x1 ->
            child_to_xml (to_xml fuel) t x1 = Ok x2 ->
            attrib x2 = attributes t
            /\ Forall2 (fun c ce => element_tag c = Some (tag ce))
                 (children_of t) (getchildren x2)).
  { intros t0 x1 x2 Hx1 Hx2. unfold Element in Hx1.
    assert (Hget := object_loop_unshadowed _ _ _ Hx1).
    assert (Hloop := object_loop_attributes t t0 [] Hget (dict_of t) []).
    simpl in Hloop. fold (attributes t) in Hloop.
    rewrite Hloop in Hx1; [| |exact Hkeys|done].
    - inversion Hx1; subst x1.
      apply child_to_xml_elements in Hx2 as (es & -> & Hall). done.
    - intros k v Hin. unfold attr_get. by rewrite (dict_get_NoDup _ k v). }
  destruct xml_doc as [p|]; inversion Hr0; subst r0; clear Hr0;
    cbv beta iota zeta in Hrun;
    bind_inv Hrun as x1 Hx1; bind_inv Hrun as x2 Hx2;
    call_inv Hx2 as Hchild; inversion Hrun; subst; by eapply Hgoal.
Qed.

Lemma to_xml_object_contents_witness :
  let unit := attr_set
                (new_BaseObject (VStr "AdaptorUnit") (VStr "adaptorUnit"))
                "dn" (VStr "sys/blade-1/adaptor-1") in
  let blade := setattr
                 (attr_set
                    (attr_set
                       (new_BaseObject (VStr "ComputeBlade")
                          (VStr "computeBlade"))
                       "dn" (VStr "sys/blade-1"))
                    "slotId" (VInt 1))
                 "_child" (VList [unit]) in
  [("dn", VStr "sys/blade-1"); ("slotId", VInt 1)] = attributes blade
  /\ Forall2 (fun c ce => element_tag c = Some (tag ce))
       (children_of blade)
       [MkElement (VStr "adaptorUnit")
          [("dn", VStr "sys/blade-1/adaptor-1")] []].
Proof.
  intros unit blade.
  apply (to_xml_object_contents 2 blade None VNone
           (MkElement (VStr "computeBlade")
              [("dn", VStr "sys/blade-1"); ("slotId", VInt 1)]
              [MkElement (VStr "adaptorUnit")
                 [("dn", VStr "sys/blade-1/adaptor-1")] []]) None).
  - reflexivity.
  - unfold well_keyed. apply (bool_decide_unpack _). by vm_compute.
  - reflexivity.
Defined.

Lemma keys_dict_set_In_inv {V} (d : list (string * V)) k v k' :
  In k' (keys (dict_set k v d)) -> k' = k \/ In k' (keys d).
Proof.
  destruct (keys_dict_set d k v) as [-> | ->]; [by right|].
  rewrite in_app_iff. simpl. intros [H|[H|[]]]; [by right|by left].
Qed.

(** X4: whatever the class, [to_xml] writes no field whose name begins with
    the private marker: every attribute of the element is named after a
    public field of the object, or [class]; and the element has as many
    sub-elements as the object has children. *)
Theorem to_xml_writes_public_names_only :
  forall fuel t xml_doc elem_name e doc',
    to_xml fuel t xml_doc elem_name = Ok (e, doc') ->
    (forall k, In k (keys (attrib e)) ->
       String.prefix "_" k = false
       /\ (In k (keys (dict_of t)) \/ k = "class"))
    /\ length (getchildren e) = length (children_of t).
Proof.
  intros [|fuel] t xml_doc elem_name e doc' Hrun; [done|].
  simpl in Hrun. unfold call_to_xml in Hrun. call_inv Hrun as Hcall.
  set (P := fun x : element =>
              (forall k, In k (keys (attrib x)) ->
                 String.prefix "_" k = false
                 /\ (In k (keys (dict_of t)) \/ k = "class"))
              /\ getchildren x = []).
  assert (Hgoal : forall (body : element -> string -> result element) t0 x1 x2,
            (forall s key s', In key (keys (dict_of t)) -> P s ->
               body s key = Ok s' -> P s') ->
            for_each body (keys (dict_of t)) (Element t0) = Ok x1 ->
            child_to_xml (to_xml fuel) t x1 = Ok x2 ->
            (forall k, In k (keys (attrib x2)) ->
               String.prefix "_" k = false
               /\ (In k (keys (dict_of t)) \/ k = "class"))
            /\ length (getchildren x2) = length (children_of t)).
  { intros body t0 x1 x2 Hbody Hx1 Hx2.
    assert (HP1 : P x1).
    { revert Hx1. apply (for_each_inv P); [exact Hbody|].
      split; [by intros k []|done]. }
    destruct HP1 as [Hattr Hnil].
    apply child_to_xml_elements in Hx2 as (es & -> & Hall). simpl.
    split; [exact Hattr|].
    rewrite Hnil. simpl. symmetry. by eapply Forall2_length. }
  assert (Hset : forall s key k v,
            In key (keys (dict_of t)) -> String.prefix "_" k = false ->
            (k = key \/ k = "class") -> P s -> P (Element_set s k v)).
  { intros s key k v Hkey Hpub Hk [Hattr Hnil]. split; [|done].
    intros k' Hk'. simpl in Hk'. apply keys_dict_set_In_inv in Hk'.
    destruct Hk' as [->|Hk']; [|by apply Hattr].
    split; [done|]. destruct Hk as [->| ->]; [by left|by right]. }
  destruct (type_of t); try discriminate.
  - unfold AbstractFilter_to_xml in Hrun. bind_inv Hrun as tg Htg.
    bind_inv Hrun as r0 Hr0. call_inv Hr0 as Hcreate.
    rewrite elem_create_spec in Hr0.
    destruct xml_doc as [p|]; inversion Hr0; subst r0; clear Hr0;
      cbv beta iota zeta in Hrun;
      bind_inv Hrun as x1 Hx1; bind_inv Hrun as x2 Hx2;
      call_inv Hx2 as Hchild; inversion Hrun; subst;
      (eapply Hgoal; [|exact Hx1|exact Hx2]);
      intros s key s' Hkey HP Hb; simpl in Hb;
      (destruct (String.prefix "_" key) eqn:Hp; [by inversion Hb; subst|]);
      (destruct (String.eqb_spec key "class_") as [->|Hne];
       bind_inv Hb as v Hv; inversion Hb; subst;
       [by apply (Hset s "class_" "class" v Hkey eq_refl (or_intror eq_refl))
       |by apply (Hset s key key v Hkey Hp (or_introl eq_refl))]).
  - unfold BaseObject_to_xml in Hrun. bind_inv Hrun as tg Htg.
    bind_inv Hrun as r0 Hr0. call_inv Hr0 as Hcreate.
    rewrite elem_create_spec in Hr0.
    destruct xml_doc as [p|]; inversion Hr0; subst r0; clear Hr0;
      cbv beta iota zeta in Hrun;
      bind_inv Hrun as x1 Hx1; bind_inv Hrun as x2 Hx2;
      call_inv Hx2 as Hchild; inversion Hrun; subst;
      (eapply Hgoal; [|exact Hx1|exact Hx2]);
      intros s key s' Hkey HP Hb; simpl in Hb;
      (destruct (String.prefix "_" key) eqn:Hp; [by inversion Hb; subst|]);
      bind_inv Hb as v Hv; inversion Hb; subst;
      by apply (Hset s key key v Hkey Hp (or_introl eq_refl)).
Qed.

Lemma to_xml_writes_public_names_only_witness :
  let f := attr_set
             (attr_set (new_AbstractFilter (VStr "FilterFilter") (VStr "filter"))
                "class_" (VStr "computeBlade"))
             "_dirty_mask" (VInt 1) in
  (forall k, In k (keys [("class", VStr "computeBlade")]) ->
     String.prefix "_" k = false
     /\ (In k (keys (dict_of f)) \/ k = "class"))
  /\ length (@nil element) = length (children_of f).
Proof.
  intros f.
  apply (to_xml_writes_public_names_only 1 f None VNone
           (MkElement (VStr "filter") [("class", VStr "computeBlade")] [])
           None).
  reflexivity.
Defined.

(** ** What [from_xml] stores *)

Section FromXmlFacts.

Variable convert_to_python_var_name : string -> string.
Variable word_u : value -> result string.
Variable get_imc_obj : string -> element -> result node.
Variable object_repr : value -> string.

Abbreviation from_xml'' :=
  (BaseObject_from_xml convert_to_python_var_name word_u get_imc_obj
     object_repr).
Abbreviation ingest :=
  (fold_left (fun self item =>
                attr_set self (convert_to_python_var_name (fst item))
                  (VStr (py_str object_repr (snd item))))).

(** The attribute loop leaves a field alone when no attribute is converted
    to its name. *)
Lemma ingest_other key :
  forall attrs self,
    (forall k, In k (keys attrs) -> convert_to_python_var_name k <> key) ->
    dict_get key (dict_of (ingest attrs self)) = dict_get key (dict_of self)
    /\ type_of (ingest attrs self) = type_of self.
Proof.
  induction attrs as [|[k v] attrs IH]; intros self Hne; simpl; [done|].
  destruct (IH (attr_set self (convert_to_python_var_name k)
                  (VStr (py_str object_repr v)))) as [-> ->].
  - intros k' Hk'. apply Hne. by right.
  - unfold attr_set. simpl. rewrite dict_get_set_ne; [done|].
    apply Hne. by left.
Qed.

(** The attribute loop stores each attribute under its converted name, as a
    string, when no two attributes are converted to one name. *)
Lemma ingest_stored :
  forall attrs self k v,
    NoDup (map convert_to_python_var_name (keys attrs)) ->
    In (k, v) attrs ->
    dict_get (convert_to_python_var_name k) (dict_of (ingest attrs self))
    = Some (VStr (py_str object_repr v)).
Proof.
  induction attrs as [|[k0 v0] attrs IH]; intros self k v Hnd Hin; [done|].
  simpl in Hnd. apply NoDup_cons in Hnd as [Hk0 Hnd]. simpl.
  destruct Hin as [[= -> ->]|Hin]; [|by apply IH].
  destruct (ingest_other (convert_to_python_var_name k) attrs
              (attr_set self (convert_to_python_var_name k)
                 (VStr (py_str object_repr v)))) as [-> _].
  - intros k' Hk' Heq. apply Hk0. rewrite <- Heq.
    apply list_elem_of_In, in_map. exact Hk'.
  - unfold attr_set. simpl. apply dict_get_set_eq.
Qed.

(** A round of the child loop changes the child list only. *)
Lemma from_xml_child_other handle self ce self' key :
  from_xml_child convert_to_python_var_name word_u get_imc_obj object_repr
    handle self ce = Ok self' ->
  key <> "_child" ->
  dict_get key (dict_of self') = dict_get key (dict_of self)
  /\ type_of self' = type_of self.
Proof.
  unfold from_xml_child. intros H Hne.
  bind_inv H as cln Hcln. bind_inv H as child Hchild.
  bind_inv H as s1 Hs1.
  apply child_append_children in Hs1 as (l & Hl & ->).
  destruct (isinstance child OperationStatus).
  - inversion H; subst. unfold setattr. simpl.
    by rewrite dict_get_set_ne.
  - bind_inv H as c' Hc'. inversion H; subst.
    rewrite child_sync_append. unfold setattr. simpl.
    by rewrite dict_get_set_ne.
Qed.

Lemma from_xml_started elem self handle self' :
  from_xml'' elem self handle = Ok self' ->
  for_each (from_xml_child convert_to_python_var_name word_u get_imc_obj
              object_repr handle) (getchildren elem)
    (ingest (attrib elem) (setattr self "_handle" handle)) = Ok self'.
Proof.
  intros Hrun. rewrite from_xml_unfold in Hrun. bind_inv Hrun as s0 Hs0.
  unfold ingested in Hs0. apply ingest_attributes_Ok_inv in Hs0.
  by subst s0.
Qed.

Lemma from_xml_children_other handle ces key :
  key <> "_child" ->
  forall self self',
    for_each (from_xml_child convert_to_python_var_name word_u get_imc_obj
                object_repr handle) ces self = Ok self' ->
    dict_get key (dict_of self') = dict_get key (dict_of self)
    /\ type_of self' = type_of self.
Proof.
  intros Hne self self'.
  apply (for_each_inv
           (fun s => dict_get key (dict_of s) = dict_get key (dict_of self)
                     /\ type_of s = type_of self)); [|done].
  intros s ce s' _ [Hd Ht] Hround.
  destruct (from_xml_child_other handle s ce s' key Hround Hne) as [-> ->].
  done.
Qed.

(** X5: [from_xml] binds the handle it is given: afterwards [get_handle]
    returns it, provided no attribute of the element is converted to the
    name [_handle] (such an attribute would be stored over the handle); the
    class of the object is as it was.  On an element with no attribute and
    no sub-element, binding the handle is all [from_xml] does. *)
Theorem from_xml_binds_handle :
  forall elem self handle,
    (forall self',
       from_xml'' elem self handle = Ok self' ->
       (forall k, In k (keys (attrib elem)) ->
          convert_to_python_var_name k <> "_handle") ->
       get_handle self' = Ok handle /\ type_of self' = type_of self)
    /\ (attrib elem = [] -> getchildren elem = [] ->
        from_xml'' elem self handle = Ok (setattr self "_handle" handle)).
Proof.
  intros elem self handle. split.
  - intros self' Hrun Hne. apply from_xml_started in Hrun.
    destruct (from_xml_children_other handle (getchildren elem) "_handle")
      with (2 := Hrun) as [Hd Ht]; [done|].
    unfold get_handle, getattr. rewrite Hd, Ht.
    destruct (ingest_other "_handle" (attrib elem)
                (setattr self "_handle" handle) Hne) as [-> ->].
    unfold setattr. simpl. by rewrite dict_get_set_eq.
  - intros Ha Hc. rewrite from_xml_unfold. unfold ingested, ingest_attributes.
    by rewrite Ha, Hc.
Qed.

(** X6: [from_xml] stores every attribute of the element under its
    converted name and as a string, whatever the value was, provided no two
    attributes of the element are converted to one name. *)
Theorem from_xml_stores_strings :
  forall elem self handle self' k v,
    from_xml'' elem self handle = Ok self' ->
    NoDup (map convert_to_python_var_name (keys (attrib elem))) ->
    In (k, v) (attrib elem) ->
    attr_get self' (convert_to_python_var_name k)
    = Ok (VStr (py_str object_repr v)).
Proof.
  intros elem self handle self' k v Hrun Hnd Hin.
  apply from_xml_started in Hrun.
  assert (Hstored := ingest_stored (attrib elem)
                       (setattr self "_handle" handle) k v Hnd Hin).
  unfold attr_get.
  destruct (String.eqb_spec (convert_to_python_var_name k) "_child")
    as [Heq|Hne].
  - (* the name of the child list: the element can have no sub-element *)
    destruct (getchildren elem) as [|ce ces].
    + inversion Hrun; subst. by rewrite Hstored.
    + exfalso. simpl in Hrun. bind_inv Hrun as s1 Hs1.
      unfold from_xml_child in Hs1.
      bind_inv Hs1 as cln Hcln. bind_inv Hs1 as child Hchild.
      bind_inv Hs1 as s2 Hs2.
      apply child_append_children in Hs2 as (l & Hl & _).
      rewrite Heq in Hstored. congruence.
  - destruct (from_xml_children_other handle (getchildren elem) _ Hne _ _ Hrun)
      as [-> _].
    by rewrite Hstored.
Qed.

(** X7: [from_xml] keeps the children the object has and appends one child
    for each sub-element (provided no attribute is converted to the name
    [_child]); it does not replace them, so a second [from_xml] of the same
    element appends the children a second time. *)
Theorem from_xml_appends_children :
  forall elem self handle s1,
    from_xml'' elem self handle = Ok s1 ->
    (forall k, In k (keys (attrib elem)) ->
       convert_to_python_var_name k <> "_child") ->
    (exists cs, children_of s1 = children_of self ++ cs
                /\ length cs = length (getchildren elem))
    /\ (forall s2,
          from_xml'' elem s1 handle = Ok s2 ->
          length (children_of s2)
          = length (children_of self) + 2 * length (getchildren elem)).
Proof.
  assert (Hone : forall elem self handle s1,
            from_xml'' elem self handle = Ok s1 ->
            (forall k, In k (keys (attrib elem)) ->
               convert_to_python_var_name k <> "_child") ->
            exists cs, children_of s1 = children_of self ++ cs
                       /\ length cs = length (getchildren elem)).
  { intros elem self handle s1 Hrun Hne. apply from_xml_started in Hrun.
    apply from_xml_children_spec in Hrun as (cs & Hcs & Hall).
    exists cs. split; [|symmetry; by eapply Forall2_length].
    rewrite Hcs. f_equal. unfold children_of.
    destruct (ingest_other "_child" (attrib elem)
                (setattr self "_handle" handle) Hne) as [-> _].
    unfold setattr. simpl. by rewrite dict_get_set_ne. }
  intros elem self handle s1 Hrun Hne. split; [by eapply Hone|].
  intros s2 Hrun2.
  destruct (Hone _ _ _ _ Hrun Hne) as (cs1 & H1 & Hl1).
  destruct (Hone _ _ _ _ Hrun2 Hne) as (cs2 & H2 & Hl2).
  rewrite H2, H1, !length_app. lia.
Qed.

(** X8: a sub-element that the registry cannot resolve is not dropped:
    when [get_imc_obj] raises on any sub-element of the element, [from_xml]
    raises. *)
Theorem from_xml_raises_on_unresolved_child :
  forall elem self handle ce,
    In ce (getchildren elem) ->
    (forall cln, word_u (tag ce) = Ok cln ->
       exists e, get_imc_obj cln ce = Raise e) ->
    exists e, from_xml'' elem self handle = Raise e.
Proof.
  intros elem self handle ce Hce Hfail.
  destruct (from_xml'' elem self handle) as [self'|e] eqn:Hrun; [|by eexists].
  exfalso. apply from_xml_started in Hrun.
  apply from_xml_children_spec in Hrun as (cs & _ & Hall).
  destruct (Forall2_In_l _ _ _ _ Hall Hce)
    as (c' & _ & cln & child & Hcln & Hchild & _).
  destruct (Hfail cln Hcln) as [e He]. congruence.
Qed.

End FromXmlFacts.

Lemma from_xml_binds_handle_witness :
  let elem := MkElement (VStr "computeBlade") [("dn", VStr "sys/blade-1")]
                [MkElement (VStr "adaptorUnit") [] []] in
  let self := new_BaseObject (VStr "ComputeBlade") (VStr "computeBlade") in
  exists self',
    BaseObject_from_xml sample_convert sample_word_u sample_get_imc_obj
      sample_repr elem self (VHandle 7) = Ok self'
    /\ get_handle self' = Ok (VHandle 7)
    /\ type_of self' = type_of self.
Proof.
  intros elem self. eexists. split; [reflexivity|].
  apply (proj1 (from_xml_binds_handle sample_convert sample_word_u
                  sample_get_imc_obj sample_repr elem self (VHandle 7))).
  - reflexivity.
  - intros k [<-|[]]. discriminate.
Defined.

Lemma from_xml_stores_strings_witness :
  let elem := MkElement (VStr "computeBlade")
                [("dn", VStr "sys/blade-1"); ("slotId", VInt 3)] [] in
  let self := new_BaseObject (VStr "ComputeBlade") (VStr "computeBlade") in
  attr_get
    (attr_set
       (attr_set (setattr self "_handle" VNone) "dn" (VStr "sys/blade-1"))
       "slot_id" (VStr "3"))
    (sample_convert "slotId")
  = Ok (VStr (py_str sample_repr (VInt 3))).
Proof.
  intros elem self.
  apply (from_xml_stores_strings sample_convert sample_word_u
           sample_get_imc_obj sample_repr elem self VNone).
  - reflexivity.
  - apply (bool_decide_unpack _). by vm_compute.
  - right. by left.
Defined.

Lemma from_xml_appends_children_witness :
  let elem := MkElement (VStr "computeBlade") [("dn", VStr "sys/blade-1")]
                [MkElement (VStr "adaptorUnit") [] [];
                 MkElement (VStr "operationStatus") [] []] in
  let self := new_BaseObject (VStr "ComputeBlade") (VStr "computeBlade") in
  exists s1 s2,
    BaseObject_from_xml sample_convert sample_word_u sample_get_imc_obj
      sample_repr elem self VNone = Ok s1
    /\ BaseObject_from_xml sample_convert sample_word_u sample_get_imc_obj
         sample_repr elem s1 VNone = Ok s2
    /\ length (children_of s2) = length (children_of self) + 2 * 2.
Proof.
  intros elem self. eexists. eexists. split; [reflexivity|].
  split; [reflexivity|].
  apply (proj2 (from_xml_appends_children sample_convert sample_word_u
                  sample_get_imc_obj sample_repr elem self VNone _
                  eq_refl
                  (fun k Hk => match Hk with
                               | or_introl H =>
                                   eq_ind "dn"
                                     (fun k => sample_convert k <> "_child")
                                     (fun E => ltac:(discriminate E)) k H
                               | or_intror F => match F with end
                               end))).
  reflexivity.
Defined.

Lemma from_xml_raises_on_unresolved_child_witness :
  let registry := fun cln e =>
                    if String.eqb cln "MemoryArray" then Raise KeyError
                    else sample_get_imc_obj cln e in
  let elem := MkElement (VStr "computeBlade") [("dn", VStr "sys/blade-1")]
                [MkElement (VStr "adaptorUnit") [] [];
                 MkElement (VStr "memoryArray") [] []] in
  exists e,
    BaseObject_from_xml sample_convert sample_word_u registry sample_repr
      elem (new_BaseObject (VStr "ComputeBlade") (VStr "computeBlade")) VNone
    = Raise e.
Proof.
  intros registry elem.
  apply (from_xml_raises_on_unresolved_child sample_convert sample_word_u
           registry sample_repr elem _ VNone
           (MkElement (VStr "memoryArray") [] [])).
  - right. by left.
  - intros cln [= <-]. by exists KeyError.
Defined.

(** ** The child list *)

Lemma child_add_list self l obj :
  dict_get "_child" (dict_of self) = Some (VList l) ->
  child_add self obj = Ok (setattr self "_child" (VList (l ++ [obj]))).
Proof.
  intros Hl. unfold child_add, child_append, getattr. by rewrite Hl.
Qed.

Lemma setattr_setattr self k v v' :
  setattr (setattr self k v) k v' = setattr self k v'.
Proof. unfold setattr. simpl. by rewrite dict_set_set. Qed.

Lemma child_add_all objs :
  forall self l,
    dict_get "_child" (dict_of self) = Some (VList l) ->
    for_each child_add objs self
    = Ok (setattr self "_child" (VList (l ++ objs))).
Proof.
  induction objs as [|obj objs IH]; intros self l Hl; simpl.
  - rewrite app_nil_r. destruct self as [c d]. unfold setattr. simpl.
    simpl in Hl. by rewrite dict_set_same.
  - rewrite (child_add_list self l obj Hl). simpl.
    rewrite (IH _ (l ++ [obj])).
    + by rewrite setattr_setattr, <- app_assoc.
    + unfold setattr. simpl. apply dict_get_set_eq.
Qed.

(** X9: [child_add] appends: after adding objects one after the other to an
    object that holds a child list, the children are the former children
    followed by the added objects in the order they were added,
    [child_count] has grown by their number, and the class and the
    attributes of the object are as they were.  When [_child] does not hold
    a list, [child_add] raises [AttributeError]. *)
Theorem child_add_appends_in_order :
  forall self objs,
    (forall l,
       dict_get "_child" (dict_of self) = Some (VList l) ->
       exists self',
         for_each child_add objs self = Ok self'
         /\ children_of self' = l ++ objs
         /\ child_count self' = Ok (length l + length objs)
         /\ attributes self' = attributes self
         /\ type_of self' = type_of self)
    /\ (forall obj,
          (forall l, dict_get "_child" (dict_of self) <> Some (VList l)) ->
          child_add self obj = Raise AttributeError).
Proof.
  intros self objs. split.
  - intros l Hl. eexists. split; [by apply child_add_all|].
    split; [apply children_of_setattr_child|]. split; [|split; [|done]].
    + unfold child_count, getattr, setattr. simpl.
      rewrite dict_get_set_eq. simpl. f_equal. apply length_app.
    + unfold attributes, setattr. simpl. by apply filter_dict_set_private.
  - intros obj Hno. unfold child_add, child_append, getattr.
    destruct (dict_get "_child" (dict_of self)) as [[| | | |l]|]; try done.
    by destruct (Hno l).
Qed.

Lemma child_add_appends_in_order_witness :
  let a := new_BaseObject (VStr "AdaptorUnit") (VStr "adaptorUnit") in
  let self := new_BaseObject (VStr "ComputeBlade") (VStr "computeBlade") in
  exists b self',
    new_OperationStatus [("status", VStr "success")] = Ok b
    /\ for_each child_add [a; b] self = Ok self'
    /\ children_of self' = [] ++ [a; b]
    /\ child_count self' = Ok (0 + 2)
    /\ attributes self' = attributes self
    /\ type_of self' = type_of self.
Proof.
  intros a self. eexists.
  destruct (proj1 (child_add_appends_in_order self
                     [a; Node OperationStatus
                           [("_tag_name", VStr "operationStatus");
                            ("_class_id", VStr "OperationStatus");
                            ("_child", VList []); ("_handle", VNone);
                            ("status", VStr "success")]]) [] eq_refl)
    as (self' & H).
  exists self'. split; [reflexivity|exact H].
Defined.

(** ** Dirty tracking *)

Lemma mark_clean_idempotent t : mark_clean (mark_clean t) = mark_clean t.
Proof. unfold mark_clean. apply setattr_setattr. Qed.

Lemma dirty_flag_mark_clean t : dirty_flag (mark_clean t) = false.
Proof.
  unfold dirty_flag, mark_clean, setattr. simpl. by rewrite dict_get_set_eq.
Qed.

Lemma attributes_mark_clean t : attributes (mark_clean t) = attributes t.
Proof.
  unfold attributes, mark_clean, setattr. simpl.
  by apply filter_dict_set_private.
Qed.

(** X10: the constructors do not set the dirty mask: on a newly constructed
    object of any of the four classes that take a class id, the property
    [dirty_mask] raises [AttributeError].  After [mark_clean] it returns [0],
    and a second [mark_clean] changes nothing. *)
Theorem dirty_mask_unset_until_mark_clean :
  forall class_id tag_name t,
    dirty_mask (new_ImcBase class_id) = Raise AttributeError
    /\ dirty_mask (new_AbstractFilter class_id tag_name) = Raise AttributeError
    /\ dirty_mask (new_BaseObject class_id tag_name) = Raise AttributeError
    /\ dirty_mask (new_ImcCustomMethod class_id tag_name)
       = Raise AttributeError
    /\ dirty_mask (mark_clean t) = Ok (VInt 0)
    /\ mark_clean (mark_clean t) = mark_clean t.
Proof.
  intros class_id tag_name t. repeat split.
  - unfold dirty_mask, getattr, mark_clean, setattr. simpl.
    by rewrite dict_get_set_eq.
  - apply mark_clean_idempotent.
Qed.

Lemma for_all_raises {A B} (f : A -> result B) e l a :
  In a l -> f a = Raise e ->
  (forall x, In x l -> (exists y, f x = Ok y) \/ f x = Raise e) ->
  for_all f l = Raise e.
Proof.
  induction l as [|x l IH]; simpl; intros Hin Ha Hall; [done|].
  destruct Hin as [->|Hin]; [by rewrite Ha|].
  destruct (Hall x (or_introl eq_refl)) as [[y ->]| ->]; [|done].
  simpl. rewrite IH; [done|done|done|].
  intros x' Hx'. apply Hall. by right.
Qed.

(** X11: [child_mark_clean], on children none of which holds a field named
    [mark_clean], clears the dirty flag of each child and of nothing else:
    the children come out in the same number and order, each with its flag
    clear and its own children and attributes as they were; the dirty flag
    and the attributes of the object itself are as they were; and a second
    [child_mark_clean] changes nothing.  When a child holds a field named
    [mark_clean], that field is what [child.mark_clean()] calls, and
    [child_mark_clean] raises [TypeError]. *)
Theorem child_mark_clean_clears_children_only :
  forall self l,
    dict_get "_child" (dict_of self) = Some (VList l) ->
    ((forall c, In c l -> dict_get "mark_clean" (dict_of c) = None) ->
     exists self',
       child_mark_clean self = Ok self'
       /\ children_of self' = map mark_clean l
       /\ (forall c, In c (children_of self') -> dirty_flag c = false)
       /\ Forall2 (fun c c' => children_of c' = children_of c
                               /\ attributes c' = attributes c)
            l (children_of self')
       /\ dirty_flag self' = dirty_flag self
       /\ attributes self' = attributes self
       /\ child_mark_clean self' = Ok self')
    /\ (forall c v,
          In c l -> dict_get "mark_clean" (dict_of c) = Some v ->
          child_mark_clean self = Raise TypeError).
Proof.
  intros self l Hl. split.
  - intros Hun.
    exists (setattr self "_child" (VList (map mark_clean l))).
    assert (Hrun : forall s k,
              dict_get "_child" (dict_of s) = Some (VList k) ->
              (forall c, In c k -> dict_get "mark_clean" (dict_of c) = None) ->
              child_mark_clean s
              = Ok (setattr s "_child" (VList (map mark_clean k)))).
    { intros s k Hk Hfields. unfold child_mark_clean, getattr. rewrite Hk.
      simpl. rewrite (for_all_map _ mark_clean); [done|].
      intros c Hc. by rewrite call_method_None by (by apply Hfields). }
    split; [by apply Hrun|].
    rewrite children_of_setattr_child. split; [done|]. split; [|split].
    + intros c Hc. apply in_map_iff in Hc as (c0 & <- & _).
      apply dirty_flag_mark_clean.
    + clear. induction l as [|c l IH]; simpl; constructor; [|done].
      split; [apply children_of_mark_clean|apply attributes_mark_clean].
    + split; [|split].
      * unfold dirty_flag, setattr. simpl. by rewrite dict_get_set_ne.
      * unfold attributes, setattr. simpl. by apply filter_dict_set_private.
      * rewrite (Hrun _ (map mark_clean l)).
        -- rewrite setattr_setattr, map_map. do 3 f_equal.
           apply map_ext. intros c. apply mark_clean_idempotent.
        -- unfold setattr. simpl. apply dict_get_set_eq.
        -- intros c Hc. apply in_map_iff in Hc as (c0 & <- & Hc0).
           unfold mark_clean, setattr. simpl.
           rewrite dict_get_set_ne by done. by apply Hun.
  - intros c v Hc Hfield. unfold child_mark_clean, getattr. rewrite Hl.
    simpl. rewrite (for_all_raises _ TypeError l c); [done|done| |].
    + by rewrite (call_method_Some c "mark_clean" _ v).
    + intros x _. unfold call_method.
      destruct (dict_get "mark_clean" (dict_of x)); [by right|left; eauto].
Qed.

Lemma child_mark_clean_clears_children_only_witness :
  let c := attr_set (new_BaseObject (VStr "AdaptorUnit") (VStr "adaptorUnit"))
             "_dirty_mask" (VInt 4) in
  let self := setattr (attr_set (new_BaseObject (VStr "ComputeBlade")
                                   (VStr "computeBlade"))
                         "_dirty_mask" (VInt 2))
                "_child" (VList [c]) in
  exists self',
    child_mark_clean self = Ok self'
    /\ children_of self' = map mark_clean [c]
    /\ (forall c, In c (children_of self') -> dirty_flag c = false)
    /\ dirty_flag self' = true.
Proof.
  intros c self.
  destruct (proj1 (child_mark_clean_clears_children_only self [c] eq_refl))
    as (self' & Hrun & Hch & Hclean & _ & Hown & _).
  { intros x [<-|[]]. reflexivity. }
  exists self'. split; [exact Hrun|]. split; [exact Hch|].
  split; [exact Hclean|]. exact Hown.
Defined.

(** X12: [child_is_dirty] asks the children in order and returns [True] at
    the first child whose [is_dirty] is true, without asking the children
    after it; it returns [False] when every child answers [False], and so on
    an object with no child.  This holds whatever the [is_dirty] of the
    children is. *)
Theorem child_is_dirty_first_dirty_child :
  forall (child_method : node -> result bool) self,
    (forall before c after,
       dict_get "_child" (dict_of self) = Some (VList (before ++ c :: after)) ->
       (forall x, In x before -> child_method x = Ok false) ->
       child_method c = Ok true ->
       child_is_dirty child_method self = Ok true)
    /\ (forall l,
          dict_get "_child" (dict_of self) = Some (VList l) ->
          (forall x, In x l -> child_method x = Ok false) ->
          child_is_dirty child_method self = Ok false).
Proof.
  intros f self. split.
  - intros before c after Hl Hbefore Hc.
    unfold child_is_dirty, getattr. rewrite Hl. simpl.
    clear Hl. induction before as [|x before IH]; simpl.
    + by rewrite Hc.
    + rewrite (Hbefore x) by (by left). simpl. apply IH.
      intros y Hy. apply Hbefore. by right.
  - intros l Hl Hall. unfold child_is_dirty, getattr. rewrite Hl. simpl.
    by apply any_dirty_false.
Qed.

Lemma child_is_dirty_first_dirty_child_witness :
  let own_flag := fun c => if dirty_flag c then Ok true else Raise TypeError in
  let a := new_BaseObject (VStr "A") (VStr "a") in
  let c := attr_set a "_dirty_mask" (VInt 1) in
  let self := setattr (new_BaseObject (VStr "P") (VStr "p")) "_child"
                (VList ([] ++ c :: [a])) in
  child_is_dirty own_flag self = Ok true.
Proof.
  intros own_flag a c self.
  apply (proj1 (child_is_dirty_first_dirty_child own_flag self) [] c [a]).
  - reflexivity.
  - intros x [].
  - reflexivity.
Defined.

Lemma for_each_raises {A S} (body : S -> A -> result S) l a :
  In a l -> (forall s, exists e, body s a = Raise e) ->
  forall s, exists e, for_each body l s = Raise e.
Proof.
  induction l as [|x l IH]; simpl; intros Hin Ha s; [done|].
  destruct (body s x) as [s'|e] eqn:Hb; simpl; [|by eauto].
  destruct Hin as [->|Hin]; [|by apply IH].
  destruct (Ha s) as [e He]. congruence.
Qed.

(** X13: on a tree no node of which holds a field named [write_object],
    given recursion depth for its height, [write_object] returns: the
    method of the base class visits the children and writes nothing.  When
    a child holds a field named [write_object], that field is what
    [child.write_object()] calls, and [write_object] raises. *)
Theorem write_object_returns_on_tree :
  forall fuel n t,
    (is_tree n t = true -> n <= fuel ->
     (forall m, In m (subtree n t) ->
        dict_get "write_object" (dict_of m) = None) ->
     write_object fuel t = Ok tt)
    /\ (forall c v,
          In c (children_of t) ->
          dict_get "write_object" (dict_of c) = Some v ->
          exists e, write_object fuel t = Raise e).
Proof.
  intros fuel n t. split.
  - revert n t. induction fuel as [|fuel IH]; intros n t Ht Hle Hun.
    + assert (n = 0) as -> by lia. done.
    + destruct n as [|n]; [done|].
      assert (Hroot := Hun t (or_introl eq_refl)).
      assert (Hsub : forall c m, In c (children_of t) ->
                In m (subtree n c) ->
                dict_get "write_object" (dict_of m) = None).
      { intros c m Hc Hm. apply Hun.
        change (In m (t :: flat_map (subtree n) (children_of t))).
        right. apply in_flat_map. by exists c. }
      apply is_tree_inv in Ht as (l & Hl & Hch & Hall). rewrite Hch in Hsub.
      simpl. rewrite call_method_None by done.
      unfold getattr. rewrite Hl. simpl.
      clear Hl Hch. induction l as [|c l IHl]; simpl; [done|].
      rewrite (IH n c); [|apply Hall; by left|lia|].
      * simpl. apply IHl.
        -- intros c' Hc'. apply Hall. by right.
        -- intros c' m Hc'. apply Hsub. by right.
      * intros m. apply Hsub. by left.
  - intros c v Hc Hfield. destruct fuel as [|fuel]; [by eexists|].
    simpl. unfold call_method at 1.
    destruct (dict_get "write_object" (dict_of t)); [by eexists|].
    unfold children_of in Hc. unfold getattr.
    destruct (dict_get "_child" (dict_of t)) as [[| | | |l]|];
      try (by destruct Hc).
    simpl. apply (for_each_raises _ l c Hc). intros [].
    destruct fuel as [|fuel]; [by eexists|]. simpl.
    rewrite (call_method_Some c "write_object" _ v Hfield). by eexists.
Qed.

Lemma write_object_returns_on_tree_witness :
  let c := new_BaseObject (VStr "AdaptorUnit") (VStr "adaptorUnit") in
  let self := setattr (new_BaseObject (VStr "ComputeBlade")
                         (VStr "computeBlade")) "_child" (VList [c; c]) in
  write_object 2 self = Ok tt.
Proof.
  intros c self.
  apply (proj1 (write_object_returns_on_tree 2 2 self)); [reflexivity|lia|].
  intros m [<-|[<-|[<-|[]]]]; reflexivity.
Defined.

(** ** class OperationStatus *)

Lemma fold_attr_set_append c :
  forall (kwargs d0 : list (string * value)),
    NoDup (keys kwargs) ->
    (forall k, In k (keys kwargs) -> dict_get k d0 = None) ->
    fold_left (fun self nv => attr_set self (fst nv) (snd nv)) kwargs
      (Node c d0)
    = Node c (d0 ++ kwargs).
Proof.
  induction kwargs as [|[k v] kwargs IH]; intros d0 Hnd Hd0; simpl.
  - by rewrite app_nil_r.
  - apply NoDup_cons in Hnd as [Hk Hnd]. unfold attr_set at 2. simpl.
    rewrite dict_set_absent by (apply Hd0; by left).
    rewrite IH; [by rewrite <- app_assoc|done|].
    intros k' Hk'. rewrite dict_get_app, Hd0 by (by right). simpl.
    destruct (String.eqb_spec k' k) as [->|]; [|done].
    exfalso. apply Hk. by apply list_elem_of_In.
Qed.

(** The loop of [OperationStatus.__init__]: when no keyword is named
    [attr_set], every call reaches the method. *)
Lemma kwargs_loop_Ok kwargs :
  forall self,
    dict_get "attr_set" (dict_of self) = None ->
    ~ In "attr_set" (keys kwargs) ->
    for_each (fun self nv =>
                call_method self "attr_set"
                  (Ok (attr_set self (fst nv) (snd nv))))
      kwargs self
    = Ok (fold_left (fun self nv => attr_set self (fst nv) (snd nv))
            kwargs self).
Proof.
  induction kwargs as [|[k v] kwargs IH]; intros self Hself Hk; simpl; [done|].
  rewrite call_method_None by done. simpl. apply IH.
  - unfold attr_set. simpl. rewrite dict_get_set_ne; [done|].
    intros ->. apply Hk. by left.
  - intros Hin. apply Hk. by right.
Qed.

Lemma kwargs_loop_outcome kwargs :
  forall self,
    (exists self',
       for_each (fun self nv =>
                   call_method self "attr_set"
                     (Ok (attr_set self (fst nv) (snd nv))))
         kwargs self = Ok self')
    \/ for_each (fun self nv =>
                   call_method self "attr_set"
                     (Ok (attr_set self (fst nv) (snd nv))))
         kwargs self = Raise TypeError.
Proof.
  induction kwargs as [|[k v] kwargs IH]; intros self; simpl; [by eauto|].
  unfold call_method at 1 3.
  destruct (dict_get "attr_set" (dict_of self)); [by right|]. simpl.
  apply IH.
Qed.



(** * Further properties of the store model *)

Module StoreMore.
Import Store.

(** ** Construction *)

Lemma new_object_spec cls (h : store) class_id tag_name :
  exists self lc (h' : store),
    new_object cls h class_id tag_name = Ok (self, h')
    /\ h !! self = None /\ h !! lc = None /\ self <> lc
    /\ h' !! self
       = Some (CObj cls [("_tag_name", tag_name); ("_class_id", class_id);
                         ("_child", VRef lc); ("_handle", VNone)])
    /\ h' !! lc = Some (CList [])
    /\ (forall x, x <> self -> x <> lc -> h' !! x = h !! x).
Proof.
  unfold new_object, ImcBase__init__, alloc, setattr. cbv zeta.
  set (self := fresh (dom h)).
  assert (Hself : h !! self = None) by apply not_elem_of_dom, is_fresh.
  rewrite lookup_insert_eq. cbn [bind dict_set].
  rewrite lookup_insert_eq. cbn [bind dict_set]. simpl String.eqb. cbv iota.
  match goal with
  | |- context [fresh (dom ?m)] => set (h1 := m)
  end.
  set (lc := fresh (dom h1)).
  assert (Hlc1 : h1 !! lc = None) by apply not_elem_of_dom, is_fresh.
  assert (Hne : self <> lc).
  { intros Heq. rewrite <- Heq in Hlc1. unfold h1 in Hlc1.
    by rewrite lookup_insert_eq in Hlc1. }
  assert (Hlc : h !! lc = None).
  { unfold h1 in Hlc1. by rewrite !lookup_insert_ne in Hlc1. }
  rewrite lookup_insert_ne by done. unfold h1 at 1.
  rewrite lookup_insert_eq. cbn [bind dict_set]. simpl String.eqb. cbv iota.
  rewrite lookup_insert_eq. cbn [bind dict_set]. simpl String.eqb. cbv iota.
  eexists self, lc, _. split; [reflexivity|].
  repeat split; try done.
  - by rewrite lookup_insert_eq.
  - rewrite !lookup_insert_ne by done. by rewrite lookup_insert_eq.
  - intros x Hx Hx'. unfold h1. by rewrite !lookup_insert_ne.
Qed.

Lemma child_add_inv (h h' : store) self obj :
  child_add h self obj = Ok h' ->
  exists c d lc items,
    h !! self = Some (CObj c d)
    /\ dict_get "_child" d = Some (VRef lc)
    /\ h !! lc = Some (CList items)
    /\ h' = <[lc := CList (items ++ [obj])]> h.
Proof.
  unfold child_add, getattr, list_append. intros H.
  destruct (h !! self) as [[c d|]|] eqn:Hself; try done.
  destruct (dict_get "_child" d) as [v|] eqn:Hd; [|done]. simpl in H.
  destruct v as [| | |lc]; try done.
  destruct (h !! lc) as [[|items]|] eqn:Hlc; try done.
  inversion H. by exists c, d, lc, items.
Qed.

(** X15: every object is constructed with a child list of its own: the
    child lists of two objects constructed one after the other are two
    lists, both empty, and a child added to the one object is not a child
    of the other. *)
Theorem new_objects_have_own_child_lists :
  forall cls cls' (h : store) cid tg cid' tg',
    exists a b la lb (h1 h2 : store),
      new_object cls h cid tg = Ok (a, h1)
      /\ new_object cls' h1 cid' tg' = Ok (b, h2)
      /\ a <> b /\ la <> lb
      /\ getattr h2 a "_child" = Ok (VRef la)
      /\ getattr h2 b "_child" = Ok (VRef lb)
      /\ h2 !! la = Some (CList []) /\ h2 !! lb = Some (CList [])
      /\ forall obj, exists h3 : store,
           child_add h2 a obj = Ok h3
           /\ h3 !! la = Some (CList [obj])
           /\ h3 !! lb = Some (CList []).
Proof.
  intros cls cls' h cid tg cid' tg'.
  destruct (new_object_spec cls h cid tg)
    as (a & la & h1 & Hrun1 & Ha & Hla & Hne1 & Ha1 & Hla1 & Hext1).
  destruct (new_object_spec cls' h1 cid' tg')
    as (b & lb & h2 & Hrun2 & Hb & Hlb & Hne2 & Hb2 & Hlb2 & Hext2).
  assert (Hab : a <> b) by (intros ->; congruence).
  assert (Hab' : a <> lb) by (intros ->; congruence).
  assert (Hlab : la <> lb) by (intros ->; congruence).
  assert (Hlab' : la <> b) by (intros ->; congruence).
  assert (Ha2 : h2 !! a = h1 !! a) by (by apply Hext2).
  assert (Hla2 : h2 !! la = h1 !! la) by (by apply Hext2).
  exists a, b, la, lb, h1, h2. repeat split; try done.
  - unfold getattr. by rewrite Ha2, Ha1.
  - unfold getattr. by rewrite Hb2.
  - by rewrite Hla2.
  - intros obj. exists (<[la := CList ([] ++ [obj])]> h2). split; [|split].
    + unfold child_add, getattr, list_append. rewrite Ha2, Ha1. simpl.
      by rewrite Hla2, Hla1.
    + by rewrite lookup_insert_eq.
    + by rewrite lookup_insert_ne.
Qed.

(** ** Adding and removing a child *)

Lemma comparable_insert_list (h : store) lc items items' v :
  h !! lc = Some (CList items) ->
  comparable h v -> comparable (<[lc := CList items']> h) v.
Proof.
  intros Hlc. destruct v as [| | |l]; simpl; try done.
  intros (c & d & Hl). exists c, d. rewrite lookup_insert_ne; [done|].
  intros ->. congruence.
Qed.

(** X16: [child_add] followed by [child_remove] of the same value gives
    back the store as it was, when the value was not among the children.
    When it was, [child_remove] takes out its first occurrence, not the one
    just added: the value moves to the end of the list. *)
Theorem child_add_then_child_remove :
  forall (h : store) self c d lc items obj,
    h !! self = Some (CObj c d) ->
    dict_get "_child" d = Some (VRef lc) ->
    h !! lc = Some (CList items) ->
    comparable h obj -> Forall (comparable h) items ->
    exists h1 : store,
      child_add h self obj = Ok h1
      /\ (~ In obj items -> child_remove h1 self obj = Ok h)
      /\ (forall pre post,
            items = pre ++ obj :: post -> ~ In obj pre ->
            exists h2 : store,
              child_remove h1 self obj = Ok h2
              /\ h2 !! lc = Some (CList (pre ++ post ++ [obj]))).
Proof.
  intros h self c d lc items obj Hself Hd Hlc Hobj Hitems.
  set (h1 := <[lc := CList (items ++ [obj])]> h).
  assert (Hne : self <> lc) by (intros ->; congruence).
  assert (Hself1 : h1 !! self = Some (CObj c d)).
  { unfold h1. by rewrite lookup_insert_ne. }
  assert (Hlc1 : h1 !! lc = Some (CList (items ++ [obj]))).
  { unfold h1. by rewrite lookup_insert_eq. }
  assert (Hobj1 : comparable h1 obj).
  { by apply (comparable_insert_list h lc items). }
  assert (Hitems1 : Forall (comparable h1) items).
  { eapply Forall_impl; [exact Hitems|]. intros v.
    by apply (comparable_insert_list h lc items). }
  exists h1. split; [|split].
  - unfold child_add, getattr, list_append. rewrite Hself, Hd. simpl.
    by rewrite Hlc.
  - intros Hnin. unfold child_remove, getattr, list_remove.
    rewrite Hself1, Hd. simpl. rewrite Hlc1.
    rewrite (StoreFacts.remove_first_present h1 obj items [] Hobj1 Hitems1
               Hnin).
    simpl. rewrite app_nil_r. unfold h1.
    rewrite insert_insert_eq. f_equal. by apply insert_id.
  - intros pre post -> Hnin. eexists. split.
    + unfold child_remove, getattr, list_remove.
      rewrite Hself1, Hd. simpl. rewrite Hlc1.
      rewrite <- app_assoc. simpl.
      rewrite (StoreFacts.remove_first_present h1 obj pre (post ++ [obj])
                 Hobj1); [reflexivity| |done].
      by apply Forall_app in Hitems1 as [Hpre _].
    + by rewrite lookup_insert_eq.
Qed.

Lemma child_add_then_child_remove_witness :
  let h : store :=
    <[0 := CObj BaseObject [("_child", VRef 1)]]>
      (<[1 := CList [VRef 2]]>
         (<[2 := CObj BaseObject []]>
            (<[3 := CObj OperationStatus []]> ∅))) in
  exists h1 : store,
    child_add h 0 (VRef 3) = Ok h1
    /\ child_remove h1 0 (VRef 3) = Ok h.
Proof.
  intros h.
  destruct (child_add_then_child_remove h 0 BaseObject [("_child", VRef 1)]
              1 [VRef 2] (VRef 3) eq_refl eq_refl eq_refl)
    as (h1 & Hadd & Hremove & _).
  - by exists OperationStatus, [].
  - repeat constructor. by exists BaseObject, [].
  - exists h1. split; [exact Hadd|]. apply Hremove.
    simpl. intros [?|[]]. discriminate.
Defined.

(** ** The child lists of a clone *)

(** X17: a child added to the clone is not added to the source, and a
    child added to the source after the cloning is not added to the clone:
    [child_add] on the root of the one leaves every object and every child
    list of the other as it was. *)
Theorem clone_then_child_add :
  forall n fuel (h : store) root root' (h' : store),
    tree_at n h root -> n <= fuel ->
    clone fuel h root = Ok (VRef root', h') ->
    (forall obj (h'' : store),
       child_add h' root' obj = Ok h'' ->
       forall y, In y (cells n h root) -> h'' !! y = h !! y)
    /\ (forall obj (h'' : store),
          child_add h' root obj = Ok h'' ->
          forall x, In x (cells n h' root') -> h'' !! x = h' !! x).
Proof.
  intros n fuel h root root' h' Ht Hfuel Hrun. unfold clone in Hrun.
  assert (Hplain := StoreFacts.deepcopy_Ok_plain n fuel Hfuel h root _ Ht
                      Hrun).
  destruct (StoreFacts.deepcopy_tree n fuel Hfuel h root Ht Hplain)
    as (r0 & h0 & Hrun0 & Hext & Hsim & Hfresh).
  rewrite Hrun0 in Hrun.
  inversion Hrun; subst r0 h0. clear Hrun.
  destruct n as [|n]; [done|].
  destruct Hsim as (c & d & lc & items & lc' & items' &
                    Hl & Hd & Hlc & Hl' & Hlc' & Hall).
  split.
  - intros obj h'' Hadd y Hy.
    apply child_add_inv in Hadd as (c1 & d1 & l1 & items1 & H1 & H2 & H3 & ->).
    rewrite Hl' in H1. inversion H1; subst c1 d1.
    rewrite dict_get_set_eq in H2. inversion H2; subst l1.
    destruct (StoreFacts.cells_allocated _ _ _ _ Ht Hy) as [cl Hcl].
    rewrite lookup_insert_ne.
    + apply Hext. by eexists.
    + intros <-.
      assert (Hin : In lc' (cells (S n) h' root')).
      { rewrite (StoreFacts.cells_unfold n h' root' c _ lc' items' Hl'
                   (dict_get_set_eq _ _ _) Hlc').
        right. by left. }
      apply Hfresh in Hin. congruence.
  - intros obj h'' Hadd x Hx.
    apply child_add_inv in Hadd as (c1 & d1 & l1 & items1 & H1 & H2 & H3 & ->).
    rewrite Hext in H1 by (by eexists). rewrite Hl in H1.
    inversion H1; subst c1 d1. rewrite Hd in H2. inversion H2; subst l1.
    rewrite lookup_insert_ne; [done|].
    intros <-. apply Hfresh in Hx. congruence.
Qed.

Lemma clone_then_child_add_witness :
  let h : store :=
    <[0 := CObj BaseObject [("_child", VRef 1); ("dn", VStr "sys")]]>
      (<[1 := CList []]> ∅) in
  exists root' (h' h'' : store),
    clone 1 h 0 = Ok (VRef root', h')
    /\ child_add h' root' (VStr "x") = Ok h''
    /\ h'' !! 1 = h !! 1.
Proof.
  intros h.
  assert (Ht : tree_at 1 h 0).
  { exists BaseObject, [("_child", VRef 1); ("dn", VStr "sys")], 1, [].
    repeat split. constructor. }
  eexists. eexists. eexists. split; [vm_compute; reflexivity|].
  split; [vm_compute; reflexivity|].
  apply (proj1 (clone_then_child_add 1 1 h 0 _ _ Ht (le_n 1) eq_refl)
           (VStr "x") _ eq_refl 1).
  right. by left.
Defined.

End StoreMore.
